(** * famAI pipeline: a shallow embedding of the job tracker, the heuristic
      extractor, the QA gateway, the code emitter and the SIR-to-backend
      parameter mapping.

    Conventions of the embedding.
    - A JavaScript string is a [string] whose characters are code units below
      256 (ASCII and Latin-1).
    - A JavaScript number is a [number]: a finite value is a rational
      ([Q]), beside [NaN] and the two infinities. The conversions from text
      ([parseInt], [parseFloat], [Number]) and the operations named as
      rounded ([rounded], [sqrt64]) give the binary64 value: the nearest
      one, ties to the even significand, an infinity beyond the largest
      finite value. The other arithmetic is exact on rationals: where a
      statement depends on its rounding, the statement says so.
    - [Date.now()], [new Date()] and [Math.random()] are inputs: a clock
      reading is a [Z] (milliseconds since the epoch), the random suffix of a
      generated identifier is a [string].
    - A [Map] of the source that is keyed by strings is a [gmap string _];
      the records it holds are shared objects, so a mutation of a record
      obtained with [get] is an update of the map entry. *)

From Stdlib Require Import QArith Qpower Qminmax Qround Qabs Lqa ZArith Lia Ascii String.
From stdpp Require Import gmap strings list pretty.

Local Open Scope string_scope.

(** ** JavaScript strings *)
Module JsString.

(** [s.startsWith(p)] *)
Definition startsWith (s p : string) : bool := String.prefix p s.

(** [s.includes(sub)] *)
Fixpoint includes (s sub : string) : bool :=
  if String.prefix sub s then true
  else match s with
       | EmptyString => false
       | String _ rest => includes rest sub
       end.

Definition code (c : ascii) : N := N_of_ascii c.

Definition in_range (lo hi : N) (c : ascii) : bool :=
  (lo <=? code c)%N && (code c <=? hi)%N.

Definition is_digit (c : ascii) : bool := in_range 48 57 c.
Definition is_upper (c : ascii) : bool := in_range 65 90 c.
Definition is_lower (c : ascii) : bool := in_range 97 122 c.
Definition is_letter (c : ascii) : bool := is_upper c || is_lower c.

(** [\w] of a regular expression: [[A-Za-z0-9_]] *)
Definition is_word (c : ascii) : bool :=
  is_letter c || is_digit c || (code c =? 95)%N.

(** [\s] of a regular expression, and the characters [trim] removes:
    tab, line feed, vertical tab, form feed, carriage return, space and
    the no-break space (the only one above 127 and below 256). *)
Definition is_space (c : ascii) : bool :=
  in_range 9 13 c || (code c =? 32)%N || (code c =? 160)%N.

(** Line terminators below 256: the characters [.] does not match. *)
Definition is_line_terminator (c : ascii) : bool :=
  (code c =? 10)%N || (code c =? 13)%N.

(** [toLowerCase] on one code unit: A-Z, and the Latin-1 capitals
    U+00C0..U+00DE except the multiplication sign U+00D7. *)
Definition lower_char (c : ascii) : ascii :=
  if is_upper c || (in_range 192 222 c && negb (code c =? 215)%N)
  then ascii_of_N (code c + 32) else c.

Fixpoint toLowerCase (s : string) : string :=
  match s with
  | EmptyString => EmptyString
  | String c rest => String (lower_char c) (toLowerCase rest)
  end.

Fixpoint trimStart (s : string) : string :=
  match s with
  | String c rest => if is_space c then trimStart rest else s
  | EmptyString => EmptyString
  end.

(** Removes trailing white space: a character is kept when it is not a
    space or when something is kept after it. *)
Fixpoint trimEnd (s : string) : string :=
  match s with
  | EmptyString => EmptyString
  | String c rest =>
      match trimEnd rest with
      | EmptyString => if is_space c then EmptyString else String c EmptyString
      | kept => String c kept
      end
  end.

Definition trim (s : string) : string := trimEnd (trimStart s).

(** [Array.prototype.join] *)
Fixpoint join (sep : string) (parts : list string) : string :=
  match parts with
  | [] => EmptyString
  | [p] => p
  | p :: rest => p ++ sep ++ join sep rest
  end.

(** Truthiness of a string: only the empty string is falsy. *)
Definition truthy (s : string) : bool :=
  match s with EmptyString => false | _ => true end.

(** The line feed and the double quote. *)
Definition nl : string := String "010" EmptyString.
Definition dq : string := String "034" EmptyString.

End JsString.

(** ** JavaScript numbers and primitive values *)
Module JsNumber.
Import JsString.
Local Open Scope Q_scope.

(** A number: a finite value, [NaN], or an infinity ([Inf true] is
    [-Infinity]). *)
Inductive number :=
| Fin (q : Q)
| NaN
| Inf (negative : bool).

Definition Qltb (a b : Q) : bool := negb (Qle_bool b a).
Definition Qeqb (a b : Q) : bool := Qeq_bool a b.

(** [a < b]; every comparison with [NaN] is false. *)
Definition lt (a b : number) : bool :=
  match a, b with
  | NaN, _ | _, NaN => false
  | Fin p, Fin q => Qltb p q
  | Fin _, Inf neg => negb neg
  | Inf neg, Fin _ => neg
  | Inf n1, Inf n2 => n1 && negb n2
  end.
Definition gt (a b : number) : bool := lt b a.

(** [a === b] on numbers. *)
Definition eq (a b : number) : bool :=
  match a, b with
  | Fin p, Fin q => Qeqb p q
  | Inf n1, Inf n2 => Bool.eqb n1 n2
  | _, _ => false
  end.
Definition le (a b : number) : bool := lt a b || eq a b.
Definition ge (a b : number) : bool := le b a.

(** [a - b] *)
Definition sub (a b : number) : number :=
  match a, b with
  | NaN, _ | _, NaN => NaN
  | Fin p, Fin q => Fin (p - q)
  | Fin _, Inf neg => Inf (negb neg)
  | Inf neg, Fin _ => Inf neg
  | Inf n1, Inf n2 => if Bool.eqb n1 n2 then NaN else Inf n1
  end.

(** [Math.abs(a)] *)
Definition abs (a : number) : number :=
  match a with
  | Fin q => Fin (Qabs q)
  | NaN => NaN
  | Inf _ => Inf false
  end.

(** [a / c] for a positive finite constant [c]. *)
Definition div_const (a : number) (c : Q) : number :=
  match a with
  | Fin q => Fin (q / c)
  | other => other
  end.

(** Truthiness: [0] and [NaN] are falsy. *)
Definition truthy (a : number) : bool :=
  match a with
  | Fin q => negb (Qeqb q 0)
  | NaN => false
  | Inf _ => true
  end.

Definition is_nan (a : number) : bool :=
  match a with NaN => true | _ => false end.

Definition is_integer_Q (q : Q) : bool := Qeqb (inject_Z (Qfloor q)) q.

(** [Number.isInteger(a)] *)
Definition isInteger (a : number) : bool :=
  match a with Fin q => is_integer_Q q | _ => false end.

(** [a % 100 !== 0]: the remainder of a finite value is zero exactly when
    the quotient is an integer; the remainder of [NaN] or of an infinity
    is [NaN]. *)
Definition rem100_nonzero (a : number) : bool :=
  match a with
  | Fin q => negb (is_integer_Q (q / 100))
  | _ => true
  end.

(** [a + b] *)
Definition add (a b : number) : number :=
  match a, b with
  | NaN, _ | _, NaN => NaN
  | Fin p, Fin q => Fin (p + q)
  | Fin _, Inf neg | Inf neg, Fin _ => Inf neg
  | Inf n1, Inf n2 => if Bool.eqb n1 n2 then Inf n1 else NaN
  end.

Definition negative (q : Q) : bool := Qltb q 0.

(** [a * b] *)
Definition mul (a b : number) : number :=
  match a, b with
  | NaN, _ | _, NaN => NaN
  | Fin p, Fin q => Fin (p * q)
  | Fin p, Inf neg | Inf neg, Fin p =>
      if Qeqb p 0 then NaN else Inf (xorb neg (negative p))
  | Inf n1, Inf n2 => Inf (xorb n1 n2)
  end.

(** *** Rounding to binary64 *)

(** The integer nearest to [p / d], for [0 <= p] and [0 < d]; of two
    nearest integers, the even one. *)
Definition nearest_even (p d : Z) : Z :=
  let q := (p / d)%Z in
  match (2 * (p mod d) ?= d)%Z with
  | Lt => q
  | Gt => (q + 1)%Z
  | Eq => if Z.even q then q else (q + 1)%Z
  end.

(** The binary exponent of a positive rational [a]: the [e] with
    [2^e <= a < 2^(e+1)]. *)
Definition exponent (a : Q) : Z :=
  let n := Qnum a in
  let d := Zpos (Qden a) in
  let t := (Z.log2 n - Z.log2 d)%Z in
  if (if 0 <=? t then d * 2 ^ t <=? n else d <=? n * 2 ^ (- t))%Z then t else (t - 1)%Z.

(** The spacing of the binary64 values around a positive rational, as a
    power of two: 53 significant bits, and the spacing [2^-1074] of the
    subnormal values at the bottom. *)
Definition spacing (a : Q) : Z := Z.max (exponent a - 52) (-1074).

(** [a / 2^k] rounded to an integer. *)
Definition significand (a : Q) (k : Z) : Z :=
  if (0 <=? k)%Z then nearest_even (Qnum a) (Zpos (Qden a) * 2 ^ k)
  else nearest_even (Qnum a * 2 ^ (- k)) (Zpos (Qden a)).

(** [m * 2^k] *)
Definition scaled (m k : Z) : Q :=
  if (0 <=? k)%Z then inject_Z (m * 2 ^ k) else Qmake m (Z.to_pos (2 ^ (- k))).

(** The binary64 value of a rational: the nearest one, of two nearest ones
    the one with the even significand, and an infinity from
    [2^1024 - 2^970] on. A rational that is a binary64 value is returned as
    it is. The sign of a zero is not kept. *)
Definition round64 (q : Q) : number :=
  if Qeqb q 0 then Fin 0
  else
    let a := Qabs q in
    let k := spacing a in
    let m := significand a k in
    if (971 <=? k)%Z && (2 ^ 1024 <=? m * 2 ^ k)%Z then Inf (negative q)
    else if (m =? 0)%Z then Fin 0
    else
      let v := (if negative q then - scaled m k else scaled m k) in
      if Qeqb v q then Fin q else Fin v.

(** A number that is neither [NaN] nor below zero: a finite value from 0
    on, or [Infinity]. *)
Definition nonnegative (n : number) : Prop :=
  match n with
  | Fin q => 0 <= q
  | NaN => False
  | Inf neg => neg = false
  end.

(** The result of an operation, rounded. *)
Definition rounded (n : number) : number :=
  match n with
  | Fin q => round64 q
  | other => other
  end.

(** A number that is not [NaN] and not below [c], and one that is not
    [NaN] and not above [c]. *)
Definition at_least (c : Q) (n : number) : Prop :=
  match n with
  | Fin q => c <= q
  | NaN => False
  | Inf neg => neg = false
  end.

Definition at_most (c : Q) (n : number) : Prop :=
  match n with
  | Fin q => q <= c
  | NaN => False
  | Inf neg => neg = true
  end.

(** [2^-40]: half the spacing of the binary64 values below [2^14], the most
    that a value below [2^14] moves when it is rounded. *)
Definition ulp14 : Q := 1 # 1099511627776.

(** [Math.min(a, b)] *)
Definition math_min (a b : number) : number :=
  if is_nan a || is_nan b then NaN else if lt b a then b else a.

(** The square root of a positive rational, rounded in the same way. *)
Definition sqrt64 (a : Q) : Q :=
  let e := (exponent a / 2)%Z in
  let k := Z.max (e - 52) (-1074) in
  let n := if (0 <=? k)%Z then Qnum a else (Qnum a * 4 ^ (- k))%Z in
  let d := if (0 <=? k)%Z then (Zpos (Qden a) * 4 ^ k)%Z else Zpos (Qden a) in
  let m := Z.sqrt (n / d) in
  let up :=
    match (4 * n ?= (2 * m + 1) * (2 * m + 1) * d)%Z with
    | Lt => false
    | Gt => true
    | Eq => negb (Z.even m)
    end in
  scaled (if up then (m + 1)%Z else m) k.

(** [Math.sqrt(a)] *)
Definition sqrt (a : number) : number :=
  match a with
  | Fin q => if Qeqb q 0 then Fin 0 else if negative q then NaN else Fin (sqrt64 q)
  | NaN => NaN
  | Inf neg => if neg then NaN else Inf false
  end.

(** [String(n)]: an integer below 10^21 in absolute value is written in
    decimal. The digits of any other finite number follow the nearest
    binary64 value, which the idealised numbers do not have: they are given
    by [showFraction]. *)
Definition numberToString (showFraction : Q -> string) (n : number) : string :=
  match n with
  | NaN => "NaN"
  | Inf neg => if neg then "-Infinity" else "Infinity"
  | Fin q =>
      if is_integer_Q q && Qltb (Qabs q) (inject_Z (10 ^ 21))
      then pretty (Qfloor q)
      else showFraction q
  end.

(** *** Numeric literals *)

Definition digit_val (c : ascii) : Z := (Z.of_N (code c) - 48)%Z.

Definition hex_val (c : ascii) : option Z :=
  if is_digit c then Some (digit_val c)
  else if in_range 97 102 c then Some (Z.of_N (code c) - 87)%Z
  else if in_range 65 70 c then Some (Z.of_N (code c) - 55)%Z
  else None.

(** Longest prefix of decimal digits: its value continuing [acc], the
    number of digits read, and the rest. *)
Fixpoint scan_digits (acc : Z) (s : string) : Z * nat * string :=
  match s with
  | String c rest =>
      if is_digit c then
        let '(v, n, r) := scan_digits (acc * 10 + digit_val c)%Z rest in
        (v, S n, r)
      else (acc, O, s)
  | EmptyString => (acc, O, s)
  end.

(** Same, for digits of [radix] 16, 8 or 2. *)
Fixpoint scan_radix (radix : Z) (acc : Z) (s : string) : Z * nat * string :=
  match s with
  | String c rest =>
      match hex_val c with
      | Some d =>
          if (d <? radix)%Z then
            let '(v, n, r) := scan_radix radix (acc * radix + d)%Z rest in
            (v, S n, r)
          else (acc, O, s)
      | None => (acc, O, s)
      end
  | EmptyString => (acc, O, s)
  end.

Definition pow10 (e : Z) : Q := Qpower 10 e.

(** The exponent part [[eE][+-]?digits] when it is complete; otherwise
    nothing is consumed. *)
Definition scan_exponent (s : string) : Z * string :=
  match s with
  | String c rest =>
      if (code c =? 101)%N || (code c =? 69)%N then
        let '(neg, after_sign) :=
          match rest with
          | String sg r =>
              if (code sg =? 45)%N then (true, r)
              else if (code sg =? 43)%N then (false, r)
              else (false, rest)
          | EmptyString => (false, rest)
          end in
        let '(v, n, r) := scan_digits 0 after_sign in
        match n with
        | O => (0%Z, s)
        | _ => ((if neg then - v else v)%Z, r)
        end
      else (0%Z, s)
  | EmptyString => (0%Z, s)
  end.

(** An unsigned decimal literal at the start of [s]: [digits],
    [digits.], [digits.digits] or [.digits], then an optional exponent.
    [None] when [s] does not start with one. *)
Definition scan_decimal (s : string) : option (Q * string) :=
  let '(ip, n1, r1) := scan_digits 0 s in
  let '(fp, n2, r2) :=
    match r1 with
    | String c after_dot =>
        if (code c =? 46)%N then
          let '(v, n, r) := scan_digits 0 after_dot in
          match n1, n with
          | O, O => (0%Z, O, r1)
          | _, _ => (v, n, r)
          end
        else (0%Z, O, r1)
    | EmptyString => (0%Z, O, r1)
    end in
  match n1, n2 with
  | O, O => None
  | _, _ =>
      let '(e, r3) := scan_exponent r2 in
      Some ((inject_Z ip + inject_Z fp / pow10 (Z.of_nat n2)) * pow10 e, r3)
  end.

(** An optional sign. *)
Definition scan_sign (s : string) : bool * string :=
  match s with
  | String c rest =>
      if (code c =? 45)%N then (true, rest)
      else if (code c =? 43)%N then (false, rest)
      else (false, s)
  | EmptyString => (false, s)
  end.

Definition signed (neg : bool) (q : Q) : Q := if neg then - q else q.

Definition radix_literal (radix : Z) (digits : string) : number :=
  let '(v, n, r) := scan_radix radix 0 digits in
  match n, r with
  | S _, EmptyString => round64 (inject_Z v)
  | _, _ => NaN
  end.

(** [Number(s)] for a string: white space is trimmed, the empty string is
    [0], then a radix literal, [Infinity] or a decimal literal that takes
    the whole string; anything else is [NaN]. The value of the literal is
    rounded to binary64. *)
Definition string_to_number (s : string) : number :=
  let t := trim s in
  match t with
  | EmptyString => Fin 0
  | _ =>
      if String.prefix "0x" t || String.prefix "0X" t
      then radix_literal 16 (String.substring 2 (String.length t) t)
      else if String.prefix "0o" t || String.prefix "0O" t
      then radix_literal 8 (String.substring 2 (String.length t) t)
      else if String.prefix "0b" t || String.prefix "0B" t
      then radix_literal 2 (String.substring 2 (String.length t) t)
      else
        let '(neg, body) := scan_sign t in
        if String.eqb body "Infinity" then Inf neg
        else match scan_decimal body with
             | Some (q, EmptyString) => round64 (signed neg q)
             | _ => NaN
             end
  end.

(** [parseFloat(s)]: the longest numeric prefix after leading white
    space, rounded to binary64. *)
Definition parseFloat (s : string) : number :=
  let '(neg, body) := scan_sign (trimStart s) in
  if String.prefix "Infinity" body then Inf neg
  else match scan_decimal body with
       | Some (q, _) => round64 (signed neg q)
       | None => NaN
       end.

(** [parseInt(s)] without a radix: leading white space, a sign, then
    hexadecimal digits after [0x], or decimal digits. The integer that the
    digits write is rounded to binary64 (all the digits count, as in V8). *)
Definition parseInt (s : string) : number :=
  let '(neg, body) := scan_sign (trimStart s) in
  if String.prefix "0x" body || String.prefix "0X" body then
    let '(v, n, _) := scan_radix 16 0 (String.substring 2 (String.length body) body) in
    match n with O => NaN | _ => round64 (signed neg (inject_Z v)) end
  else
    let '(v, n, _) := scan_digits 0 body in
    match n with O => NaN | _ => round64 (signed neg (inject_Z v)) end.

(** *** Primitive values *)
Inductive jsval :=
| VNum (n : number)
| VStr (s : string)
| VBool (b : bool)
| VNull.

(** [Number(v)] *)
Definition to_number (v : jsval) : number :=
  match v with
  | VNum n => n
  | VStr s => string_to_number s
  | VBool b => Fin (if b then 1 else 0)
  | VNull => Fin 0
  end.

(** [isNaN(v)] *)
Definition isNaN (v : jsval) : bool := is_nan (to_number v).

(** Truthiness of a value. *)
Definition val_truthy (v : jsval) : bool :=
  match v with
  | VNum n => truthy n
  | VStr s => JsString.truthy s
  | VBool b => b
  | VNull => false
  end.

End JsNumber.

(** ** Regular expressions: a backtracking matcher with the priorities of
       the ECMAScript semantics (leftmost match, alternatives in order,
       greedy quantifiers) *)
Module Regex.
Import JsString.

Inductive regex :=
| Eps
| Lit (c : ascii)
| Class (p : ascii -> bool)
| Seq (r1 r2 : regex)
| Alt (r1 r2 : regex)
| Repeat (r : regex) (min : nat) (max : option nat)
| Group (n : nat) (r : regex)
| Bol
| Eol.

(** A position in the subject: the index and what is left to read. *)
Record cursor := { pos : nat; rest : string }.

(** Captured substrings, by group number; the first entry wins. *)
Definition captures := list (nat * string).

Definition capture (n : nat) (cs : captures) : option string :=
  snd <$> List.find (fun e => Nat.eqb (fst e) n) cs.

Fixpoint groups_of (r : regex) : list nat :=
  match r with
  | Seq r1 r2 | Alt r1 r2 => (groups_of r1 ++ groups_of r2)%list
  | Repeat r' _ _ => groups_of r'
  | Group n r' => n :: groups_of r'
  | _ => []
  end.

Definition clear (ns : list nat) (cs : captures) : captures :=
  List.filter (fun e => negb (List.existsb (Nat.eqb (fst e)) ns)) cs.

Definition step (c : cursor) (s' : string) : cursor :=
  {| pos := S (pos c); rest := s' |}.

Definition below (count : nat) (max : option nat) : bool :=
  match max with
  | Some m => Nat.ltb count m
  | None => true
  end.

Definition result := (cursor * captures)%type.

(** The type of a matcher: from a cursor and the captures, with a
    continuation for what follows. *)
Definition matcher : Type :=
  cursor -> captures -> (cursor -> captures -> option result) -> option result.

Section Quantifier.
(** The quantified expression, its groups and its bounds; [k] is what
    follows the quantifier. *)
Variable m : matcher.
Variable inner : list nat.
Variable min : nat.
Variable max : option nat.
Variable k : cursor -> captures -> option result.

(** Greedy iteration: one more round of [m] is tried first, then [k]. A
    round that consumes nothing is rejected once the minimum is reached, and
    the groups inside are reset at each round. [count] is the number of
    rounds done; [fuel] bounds the rounds still possible. *)
Fixpoint iterate (fuel count : nat) (c : cursor) (cs : captures) : option result :=
  match fuel with
  | O => None
  | S fuel' =>
      let again :=
        if below count max then
          m c (clear inner cs)
            (fun c' cs' =>
               if Nat.leb min count && Nat.eqb (pos c') (pos c) then None
               else iterate fuel' (S count) c' cs')
        else None in
      match again with
      | Some res => Some res
      | None => if Nat.leb min count then k c cs else None
      end
  end.
End Quantifier.

(** [run r c cs k]: match [r] at [c], then continue with [k]; the first
    way that makes [k] succeed is the answer. *)
Fixpoint run (r : regex) (c : cursor) (cs : captures)
         (k : cursor -> captures -> option result) {struct r} : option result :=
  match r with
  | Eps => k c cs
  | Lit a =>
      match rest c with
      | String b s' => if Ascii.eqb a b then k (step c s') cs else None
      | EmptyString => None
      end
  | Class p =>
      match rest c with
      | String b s' => if p b then k (step c s') cs else None
      | EmptyString => None
      end
  | Seq r1 r2 => run r1 c cs (fun c' cs' => run r2 c' cs' k)
  | Alt r1 r2 =>
      match run r1 c cs k with
      | Some res => Some res
      | None => run r2 c cs k
      end
  | Repeat r' min max =>
      iterate (run r') (groups_of r') min max k (min + String.length (rest c) + 1) 0 c cs
  | Group n r' =>
      run r' c cs
          (fun c' cs' =>
             k c' ((n, String.substring 0 (pos c' - pos c) (rest c)) :: clear [n] cs'))
  | Bol => if Nat.eqb (pos c) 0 then k c cs else None
  | Eol => match rest c with EmptyString => k c cs | _ => None end
  end.

(** A match at a cursor, without search. *)
Definition match_at (r : regex) (c : cursor) : option result :=
  run r c [] (fun c' cs' => Some (c', cs')).

(** The result of [exec]: where the match starts, the matched text and the
    groups. *)
Record match_result := {
  index : nat;
  matched : string;
  groups : captures
}.

Fixpoint search (r : regex) (i : nat) (s : string) : option match_result :=
  match match_at r {| pos := i; rest := s |} with
  | Some (c', cs) =>
      Some {| index := i; matched := String.substring 0 (pos c' - i) s; groups := cs |}
  | None =>
      match s with
      | String _ s' => search r (S i) s'
      | EmptyString => None
      end
  end.

(** [s.match(r)] and [r.exec(s)] for a regular expression without the
    global flag: the leftmost match. *)
Definition exec (r : regex) (s : string) : option match_result := search r 0 s.

(** [r.test(s)] *)
Definition test (r : regex) (s : string) : bool :=
  match exec r s with Some _ => true | None => false end.

(** [m[n]] of a match: [None] is [undefined]. *)
Definition group (m : match_result) (n : nat) : option string :=
  capture n (groups m).

(** [s.replace(r, '')] for [r] with the global flag: every match, found
    from left to right after the previous one, is deleted. [skip] counts
    the characters of the current match that are still to be dropped. *)
Fixpoint remove_from (r : regex) (i skip : nat) (s : string) : string :=
  match s with
  | EmptyString => EmptyString
  | String ch s' =>
      match skip with
      | S skip' => remove_from r (S i) skip' s'
      | O =>
          match match_at r {| pos := i; rest := s |} with
          | Some (c', _) =>
              match pos c' - i with
              | O => String ch (remove_from r (S i) 0 s')
              | S len => remove_from r (S i) len s'
              end
          | None => String ch (remove_from r (S i) 0 s')
          end
      end
  end.

Definition remove_all (r : regex) (s : string) : string := remove_from r 0 0 s.

(** The number of matches of a global regular expression:
    [(s.match(r) || []).length]. An empty match advances by one
    character. *)
Fixpoint count_from (r : regex) (i skip : nat) (s : string) : nat :=
  match s with
  | EmptyString =>
      match skip, match_at r {| pos := i; rest := s |} with
      | O, Some _ => 1
      | _, _ => 0
      end
  | String ch s' =>
      match skip with
      | S skip' => count_from r (S i) skip' s'
      | O =>
          match match_at r {| pos := i; rest := s |} with
          | Some (c', _) => S (count_from r (S i) (pos c' - i - 1) s')
          | None => count_from r (S i) 0 s'
          end
      end
  end.

Definition count_matches (r : regex) (s : string) : nat := count_from r 0 0 s.

(** [s.split(r)]: [cur] is the piece being read (reversed), [skip] the
    characters of the current separator still to be dropped. A separator
    match that is empty at the start of a piece is ignored. *)
Fixpoint rev_string (acc s : string) : string :=
  match s with
  | EmptyString => acc
  | String ch s' => rev_string (String ch acc) s'
  end.

Fixpoint split_from (r : regex) (i skip : nat) (cur : string) (s : string) : list string :=
  match s with
  | EmptyString => [rev_string EmptyString cur]
  | String ch s' =>
      match skip with
      | S skip' => split_from r (S i) skip' cur s'
      | O =>
          match match_at r {| pos := i; rest := s |} with
          | Some (c', _) =>
              match pos c' - i, cur with
              | O, EmptyString => split_from r (S i) 0 (String ch cur) s'
              | O, _ =>
                  rev_string EmptyString cur
                  :: split_from r (S i) 0 (String ch EmptyString) s'
              | S len, _ =>
                  rev_string EmptyString cur :: split_from r (S i) len EmptyString s'
              end
          | None => split_from r (S i) 0 (String ch cur) s'
          end
      end
  end.

Definition split (r : regex) (s : string) : list string :=
  match s with
  | EmptyString =>
      match match_at r {| pos := 0; rest := s |} with
      | Some _ => []
      | None => [EmptyString]
      end
  | _ => split_from r 0 0 EmptyString s
  end.

(** *** Lines *)

(** The string without its first [n] characters. *)
Fixpoint drop (n : nat) (s : string) : string :=
  match n, s with
  | O, _ => s
  | S n', String _ s' => drop n' s'
  | S _, EmptyString => EmptyString
  end.

(** When the first line terminator of [s] is a line feed: the number of
    characters up to it, the line feed included. *)
Fixpoint line_rest (s : string) : option nat :=
  match s with
  | EmptyString => None
  | String ch s' =>
      if is_line_terminator ch then (if Ascii.eqb "010" ch then Some 1 else None)
      else S <$> line_rest s'
  end.

(** The length of the text that [/LITERAL.*\n/] matches at the start of
    [s], if it matches there. *)
Definition line_match (literal s : string) : option nat :=
  if String.prefix literal s
  then (fun n => String.length literal + n) <$> line_rest (drop (String.length literal) s)
  else None.

(** No character of [s] is a line terminator, and no character is [ch]. *)
Fixpoint no_terminator (s : string) : bool :=
  match s with
  | EmptyString => true
  | String c s' => negb (is_line_terminator c) && no_terminator s'
  end.

Fixpoint without (ch : ascii) (s : string) : bool :=
  match s with
  | EmptyString => true
  | String c s' => negb (Ascii.eqb ch c) && without ch s'
  end.

(** A character of [s] differs from the character of [literal] at the same
    place: [literal] is not a prefix of [s], whatever follows [s]. *)
Fixpoint mismatch (literal s : string) : bool :=
  match literal, s with
  | String a literal', String b s' => if Ascii.eqb a b then mismatch literal' s' else true
  | _, _ => false
  end.

(** [literal] starts at no position of [s], whatever follows [s]. *)
Fixpoint starts_nowhere (literal s : string) : bool :=
  match s with
  | EmptyString => true
  | String _ s' => mismatch literal s && starts_nowhere literal s'
  end.

(** *** Notation of patterns *)

(** The characters of a literal string, in sequence. *)
Fixpoint str (s : string) : regex :=
  match s with
  | EmptyString => Eps
  | String c EmptyString => Lit c
  | String c s' => Seq (Lit c) (str s')
  end.

Fixpoint seq (rs : list regex) : regex :=
  match rs with
  | [] => Eps
  | [r] => r
  | r :: rs' => Seq r (seq rs')
  end.

Fixpoint alt (rs : list regex) : regex :=
  match rs with
  | [] => Eps
  | [r] => r
  | r :: rs' => Alt r (alt rs')
  end.

Definition star (r : regex) : regex := Repeat r 0 None.
Definition plus (r : regex) : regex := Repeat r 1 None.
Definition opt (r : regex) : regex := Repeat r 0 (Some 1).
Definition upto (n : nat) (r : regex) : regex := Repeat r 0 (Some n).

Definition digit : regex := Class is_digit.          (* \d *)
Definition space : regex := Class is_space.          (* \s *)
Definition word : regex := Class is_word.            (* \w *)
Definition any : regex := Class (fun c => negb (is_line_terminator c)).  (* . *)
Definition anything : regex := Class (fun _ => true).  (* [\s\S] *)

(** [/LITERAL.*\n/]: the literal, the rest of the line and the line feed. *)
Definition line_from (literal : string) : regex :=
  seq [str literal; star any; Lit "010"].

(** *** What a pattern can match *)

(** [rounds round n w cs cs']: [w] is read in [n] rounds, each of which
    satisfies [round], and the captures go from [cs] to [cs']. *)
Fixpoint rounds (round : string -> captures -> captures -> Prop) (n : nat)
         (w : string) (cs cs' : captures) : Prop :=
  match n with
  | O => w = EmptyString /\ cs' = cs
  | S n' =>
      exists w1 w2 mid,
        w = w1 ++ w2 /\ round w1 cs mid /\ rounds round n' w2 mid cs'
  end.

(** [matches r w cs cs']: the pattern [r] can read the text [w] and turn
    the captures [cs] into [cs']. This bounds the matcher from above: it
    says nothing about which of the possible matches [run] prefers, and it
    does not count the upper bound of a quantifier. *)
Fixpoint matches (r : regex) (w : string) (cs cs' : captures) : Prop :=
  match r with
  | Eps | Bol | Eol => w = EmptyString /\ cs' = cs
  | Lit a => w = String a EmptyString /\ cs' = cs
  | Class p => (exists b, p b = true /\ w = String b EmptyString) /\ cs' = cs
  | Seq r1 r2 =>
      exists w1 w2 mid, w = w1 ++ w2 /\ matches r1 w1 cs mid /\ matches r2 w2 mid cs'
  | Alt r1 r2 => matches r1 w cs cs' \/ matches r2 w cs cs'
  | Repeat r' min _ =>
      exists n,
        min <= n
        /\ rounds (fun w a b => matches r' w (clear (groups_of r') a) b) n w cs cs'
  | Group n r' => exists mid, matches r' w cs mid /\ cs' = (n, w) :: clear [n] mid
  end.

(** Every character of [s] satisfies [p]. *)
Fixpoint every (p : ascii -> bool) (s : string) : bool :=
  match s with
  | EmptyString => true
  | String c s' => p c && every p s'
  end.

(** *** The last closing brace *)

(** The number of characters of [s] up to its last closing brace, the
    brace included. *)
Fixpoint last_close (s : string) : option nat :=
  match s with
  | EmptyString => None
  | String ch s' =>
      match last_close s' with
      | Some n => Some (S n)
      | None => if Ascii.eqb "}" ch then Some 1 else None
      end
  end.

End Regex.

(** ** [Date.prototype.toISOString] *)
Module Clock.
Local Open Scope Z_scope.

Definition digit_char (d : Z) : ascii := ascii_of_N (Z.to_N (48 + d mod 10)).

(** The last [n] decimal digits of [v], most significant first. *)
Fixpoint pad (n : nat) (v : Z) : string :=
  match n with
  | O => EmptyString
  | S n' => pad n' (v / 10) ++ String (digit_char v) EmptyString
  end.

(** Year, month and day of a day count from 1970-01-01 (proleptic
    Gregorian calendar). *)
Definition civil_from_days (days : Z) : Z * Z * Z :=
  let z := days + 719468 in
  let era := z / 146097 in
  let doe := z - era * 146097 in
  let yoe := (doe - doe / 1460 + doe / 36524 - doe / 146096) / 365 in
  let doy := doe - (365 * yoe + yoe / 4 - yoe / 100) in
  let mp := (5 * doy + 2) / 153 in
  let d := doy - (153 * mp + 2) / 5 + 1 in
  let m := if mp <? 10 then mp + 3 else mp - 9 in
  let y := yoe + era * 400 + (if m <=? 2 then 1 else 0) in
  (y, m, d).

Definition year_string (y : Z) : string :=
  if (0 <=? y) && (y <=? 9999) then pad 4 y
  else (if y <? 0 then "-" else "+") ++ pad 6 (Z.abs y).

(** [new Date(ms).toISOString()] for a time value in the range of
    [Date]. *)
Definition toISOString (ms : Z) : string :=
  let days := ms / 86400000 in
  let t := ms mod 86400000 in
  let '(y, m, d) := civil_from_days days in
  year_string y ++ "-" ++ pad 2 m ++ "-" ++ pad 2 d ++ "T"
    ++ pad 2 (t / 3600000) ++ ":" ++ pad 2 (t / 60000 mod 60) ++ ":"
    ++ pad 2 (t / 1000 mod 60) ++ "." ++ pad 3 (t mod 1000) ++ "Z".

End Clock.

(** ** The Structured Intermediate Representation *)
Module Sir.
Import JsNumber.

Record point2 := { p2_x : number; p2_y : number }.
Record point3 := { x : number; y : number; z : number }.

Record extrusion := {
  ext_name : string;
  profile : option (list point2);
  startPoint : point3;
  endPoint : point3;
  ext_material : option string
}.

Record referencePlane := {
  plane_name : string;
  origin : point3;
  normal : point3
}.

Record constraint := {
  element1 : option string;
  element2 : option string;
  constraintType : option string;
  offset : option number
}.

(** The heuristic extractor also writes the arrays [blends], [sweeps] and
    [revolves]; they are always empty and nothing reads them. *)
Record geometryDefinition := {
  extrusions : option (list extrusion);
  referencePlanes : option (list referencePlane);
  constraints : option (list constraint)
}.

Record familyParameter := {
  param_name : string;
  param_type : string;
  defaultValue : option jsval;
  isInstance : bool;
  param_group : option string;
  formula : option string
}.

(** [type_parameters] lists the own properties of the object in the order
    of [Object.keys]. *)
Record familyType := {
  type_name : option string;
  type_parameters : option (list (string * jsval))
}.

Record parameters := {
  familyParameters : option (list familyParameter);
  familyTypes : option (list familyType)
}.

Record material := {
  mat_name : string;
  parameterName : option string;
  mat_defaultValue : option string;
  color : option string
}.

Record familyMetadata := {
  familyName : string;
  category : string;
  description : option string;
  lodLevel : number;
  isHosted : bool;
  hostingType : option string
}.

Record visibilitySettings := {
  coarse : option (list string);
  medium : option (list string);
  fine : option (list string)
}.

(** [top_constraints] and [visibility] are the top-level [constraints] and
    [visibility] entries that the heuristic extractor writes. *)
Record SIR := {
  metadata : familyMetadata;
  geometry : geometryDefinition;
  params : parameters;
  top_constraints : list constraint;
  materials : option (list material);
  visibility : option (bool * bool * bool);
  visibility_settings : option visibilitySettings
}.

(** [o || d] for an optional string. *)
Definition str_or (o : option string) (d : string) : string :=
  match o with
  | Some s => if JsString.truthy s then s else d
  | None => d
  end.

(** [l || []] and the length of an optional array. *)
Definition list_or_empty {A} (o : option (list A)) : list A := default [] o.

End Sir.

(** ** The SIR generator and the heuristic extractor ([BIMLLMService]) *)
Module BIMLLMService.
Import JsString JsNumber Regex Sir.
Local Open Scope Q_scope.

(** *** Patterns of [generateDemoSIR] *)

(** [(?:\w+\s+){0,n}] *)
Definition words (n : nat) : regex := upto n (seq [plus word; plus space]).

(** [(\d+)\s*mm] with group [g] *)
Definition mm (g : nat) : regex := seq [Group g (plus digit); star space; str "mm"].

(** [(\d+(?:\.\d+)?)] with group [g] *)
Definition decimal (g : nat) : regex :=
  Group g (seq [plus digit; opt (seq [Lit "."; plus digit])]).

(** [(\d+(?:\.\d+)?)\s*(?:ft|foot|feet|')] with group [g] *)
Definition ft (g : nat) : regex :=
  seq [decimal g; star space; alt [str "ft"; str "foot"; str "feet"; Lit "'"]].

(** [q s+ (?:\w+\s+){0,2} kw] : a quantity, then the keyword. *)
Definition before (q : regex) (kw : string) : regex :=
  seq [q; plus space; words 2; str kw].

(** [kw s+ (?:\w+\s+){0,2} q] : the keyword, then a quantity. *)
Definition after (kw : string) (q : regex) : regex :=
  seq [str kw; plus space; words 2; q].

Definition widthMmPattern : regex :=
  alt [before (mm 1) "wide"; before (mm 2) "width";
       after "wide" (mm 3); after "width" (mm 4)].
Definition heightMmPattern : regex :=
  alt [before (mm 1) "high"; before (mm 2) "height";
       after "high" (mm 3); after "height" (mm 4)].
Definition widthFtPattern : regex :=
  alt [before (ft 1) "wide"; before (ft 2) "width";
       after "wide" (ft 3); after "width" (ft 4)].
Definition heightFtPattern : regex :=
  alt [before (ft 1) "high"; before (ft 2) "height";
       after "high" (ft 3); after "height" (ft 4)].

(** [(?:sill|from\s+floor|above\s+floor|floor\s+to)] *)
Definition sillWords : regex :=
  alt [str "sill"; seq [str "from"; plus space; str "floor"];
       seq [str "above"; plus space; str "floor"];
       seq [str "floor"; plus space; str "to"]].
Definition sillHeightMmPattern : regex := seq [mm 1; plus space; words 3; sillWords].
Definition sillHeightFtPattern : regex := seq [ft 1; plus space; words 3; sillWords].

(** [(?:inset|depth|frame\s+depth)] *)
Definition insetWords : regex :=
  alt [str "inset"; str "depth"; seq [str "frame"; plus space; str "depth"]].
Definition insetMmPattern : regex := seq [mm 1; plus space; words 2; insetWords].
Definition insetFtPattern : regex := seq [ft 1; plus space; words 2; insetWords].
(** [(\d+(?:\.\d+)?)\s*(?:in|inch|inches|DQ)\s+(?:\w+\s+){0,2}(?:inset|depth|frame\s+depth)]
    where DQ is the double quote character (code 34). *)
Definition insetInchPattern : regex :=
  seq [decimal 1; star space; alt [str "in"; str "inch"; str "inches"; Lit "034"];
       plus space; words 2; insetWords].

(** [a || b] on the groups of a match: the first one that is defined and
    not empty. *)
Definition or_else (a b : option string) : option string :=
  match a with
  | Some s => if JsString.truthy s then a else b
  | None => b
  end.

Definition first_group (m : match_result) : option string :=
  or_else (group m 1) (or_else (group m 2) (or_else (group m 3) (group m 4))).

(** [parseInt] of a group; [parseInt(undefined)] is [NaN]. *)
Definition parseInt_group (o : option string) : number :=
  match o with
  | Some s => parseInt s
  | None => NaN
  end.

(** [parseFloat(g || d)] *)
Definition parseFloat_group (o : option string) (d : string) : number :=
  parseFloat (default d (or_else o None)).

(** [parseFloat(m[1])]; [parseFloat(undefined)] is [NaN]. *)
Definition parseFloat_opt (o : option string) : number :=
  match o with
  | Some s => parseFloat s
  | None => NaN
  end.

Definition mm_per_foot : Q := 304.8.

Definition extract_width (lowerPrompt : string) : number :=
  match exec widthMmPattern lowerPrompt with
  | Some m => div_const (parseInt_group (first_group m)) mm_per_foot
  | None =>
      match exec widthFtPattern lowerPrompt with
      | Some m => parseFloat_group (first_group m) "2.0"
      | None => Fin 2
      end
  end.

Definition extract_height (lowerPrompt : string) : number :=
  match exec heightMmPattern lowerPrompt with
  | Some m => div_const (parseInt_group (first_group m)) mm_per_foot
  | None =>
      match exec heightFtPattern lowerPrompt with
      | Some m => parseFloat_group (first_group m) "4.0"
      | None => Fin 4
      end
  end.

Definition extract_sillHeight (lowerPrompt : string) : number :=
  match exec sillHeightMmPattern lowerPrompt with
  | Some m => div_const (parseInt_group (group m 1)) mm_per_foot
  | None =>
      match exec sillHeightFtPattern lowerPrompt with
      | Some m => parseFloat_opt (group m 1)
      | None => Fin 3
      end
  end.

Definition extract_inset (lowerPrompt : string) : number :=
  match exec insetMmPattern lowerPrompt with
  | Some m => div_const (parseInt_group (group m 1)) mm_per_foot
  | None =>
      match exec insetInchPattern lowerPrompt with
      | Some m => div_const (parseFloat_opt (group m 1)) 12
      | None =>
          match exec insetFtPattern lowerPrompt with
          | Some m => parseFloat_opt (group m 1)
          | None => Fin 0.05
          end
      end
  end.

Definition extract_glassMaterial (lowerPrompt : string) : string :=
  if includes lowerPrompt "glass" then "Glass" else "Default".

Definition extract_sashMaterial (lowerPrompt : string) : string :=
  if includes lowerPrompt "wood" || includes lowerPrompt "timber" then "Wood"
  else if includes lowerPrompt "metal" || includes lowerPrompt "steel"
          || includes lowerPrompt "aluminum" then "Metal"
  else "Default".

Definition pt (a b : number) : point2 := {| p2_x := a; p2_y := b |}.
Definition pt3 (a b c : number) : point3 := {| x := a; y := b; z := c |}.

Definition lengthParameter (name : string) (v : number) : familyParameter :=
  {| param_name := name; param_type := "Length"; defaultValue := Some (VNum v);
     isInstance := true; param_group := None; formula := None |}.

Definition materialParameter (name : string) (v : string) : familyParameter :=
  {| param_name := name; param_type := "Material"; defaultValue := Some (VStr v);
     isInstance := true; param_group := None; formula := None |}.

(** The main body; [depth] is [endPoint.z]. *)
Definition mainBody (width height depth : number) (sashMaterial : string) : extrusion :=
  {| ext_name := "MainBody";
     profile := Some [pt (Fin 0) (Fin 0); pt width (Fin 0); pt width height; pt (Fin 0) height];
     startPoint := pt3 (Fin 0) (Fin 0) (Fin 0);
     endPoint := pt3 width height depth;
     ext_material := Some sashMaterial |}.

Definition glassPane (width height : number) (glassMaterial : string) : extrusion :=
  {| ext_name := "GlassPane";
     profile := Some [pt (Fin 10) (Fin 10);
                      pt (sub width (Fin 10)) (Fin 10);
                      pt (sub width (Fin 10)) (sub height (Fin 10));
                      pt (Fin 10) (sub height (Fin 10))];
     startPoint := pt3 (Fin 10) (Fin 10) (Fin 5);
     endPoint := pt3 (sub width (Fin 10)) (sub height (Fin 10)) (Fin 95);
     ext_material := Some glassMaterial |}.

(** The category, family name, description, depth of the main body and
    the extra extrusions, by the first keyword found. *)
Definition customize (lowerPrompt : string) (width height : number) (glassMaterial : string)
  : string * string * string * number * list extrusion :=
  if includes lowerPrompt "door" then
    ("Doors", "Generated Door", "Parametric door family", Fin 50, [])
  else if includes lowerPrompt "window" then
    ("Windows", "Generated Window", "Parametric window family", Fin 100,
     [glassPane width height glassMaterial])
  else if includes lowerPrompt "furniture" then
    ("Furniture", "Generated Furniture", "Parametric furniture family", Fin 100, [])
  else
    ("Generic", "Generated Family", "Parametric family generated from natural language",
     Fin 100, []).

(** The SIR that [generateDemoSIR] builds for a prompt. *)
Definition demoFamily (userPrompt : string) : SIR :=
  let lowerPrompt := toLowerCase userPrompt in
  let width := extract_width lowerPrompt in
  let height := extract_height lowerPrompt in
  let sillHeight := extract_sillHeight lowerPrompt in
  let inset := extract_inset lowerPrompt in
  let glassMaterial := extract_glassMaterial lowerPrompt in
  let sashMaterial := extract_sashMaterial lowerPrompt in
  let '(cat, name, descr, depth, extra) :=
    customize lowerPrompt width height glassMaterial in
  {| metadata :=
       {| familyName := name; category := cat; description := Some descr;
          lodLevel := Fin 200; isHosted := false; hostingType := None |};
     geometry :=
       {| extrusions := Some (mainBody width height depth sashMaterial :: extra);
          referencePlanes := None;
          constraints := None |};
     params :=
       {| familyParameters :=
            Some [lengthParameter "Width" width;
                  lengthParameter "Height" height;
                  lengthParameter "SillHeight" sillHeight;
                  lengthParameter "Inset" inset;
                  materialParameter "GlassPaneMaterial" glassMaterial;
                  materialParameter "SashMaterial" sashMaterial];
          familyTypes :=
            Some [{| type_name := Some "Type 1";
                     type_parameters :=
                       Some [("Width", VNum width); ("Height", VNum height);
                             ("SillHeight", VNum sillHeight); ("Inset", VNum inset);
                             ("GlassPaneMaterial", VStr glassMaterial);
                             ("SashMaterial", VStr sashMaterial)] |}] |};
     top_constraints := [];
     materials :=
       Some [{| mat_name := glassMaterial; parameterName := None;
                mat_defaultValue := None; color := Some "#87CEEB" |};
             {| mat_name := sashMaterial; parameterName := None;
                mat_defaultValue := None; color := Some "#8B4513" |}];
     visibility := Some (true, true, true);
     visibility_settings := None |}.

(** *** What the patterns capture *)

(** The first character of [s] is a decimal digit. *)
Definition starts_with_digit (s : string) : bool :=
  match s with String c _ => is_digit c | EmptyString => false end.

(** Only decimal digits, and at least one. *)
Definition digits (s : string) : Prop := every is_digit s = true /\ s <> EmptyString.

(** A successful match has captured, in one of the groups [gs] and in no
    other, a part [d] of the matched text that satisfies [P]. *)
Definition captured (gs : list nat) (P : string -> Prop) (w : string)
           (cs cs' : captures) : Prop :=
  exists g a d b,
    In g gs /\ w = a ++ d ++ b /\ P d /\ cs' = (g, d) :: clear [g] cs.

(** No character of [s] is a decimal digit. *)
Definition no_digit (s : string) : bool := every (fun c => negb (is_digit c)) s.

(** Every match of [r] is such a capture. *)
Definition carries (gs : list nat) (P : string -> Prop) (r : regex) : Prop :=
  forall w cs cs', matches r w cs cs' -> captured gs P w cs cs'.

(** *** Exceptions *)

(** The outcome of code that may throw: a value, or the message of the
    error thrown. *)
Inductive outcome (A : Type) :=
| Ok (a : A)
| Throw (message : string).
Arguments Ok {A} a.
Arguments Throw {A} message.

Definition bind {A B} (m : outcome A) (f : A -> outcome B) : outcome B :=
  match m with
  | Ok a => f a
  | Throw e => Throw e
  end.

(** [try { body } catch (error) { handler(error.message) }] *)
Definition try_catch {A} (body : outcome A) (handler : string -> outcome A) : outcome A :=
  match body with
  | Ok a => Ok a
  | Throw e => handler e
  end.

(** *** The reply of the language model, as [JSON.parse] returns it *)
#[warnings="-register-all"]
Inductive json :=
| JNull
| JBool (b : bool)
| JNum (n : number)
| JStr (s : string)
| JArr (items : list json)
| JObj (fields : list (string * json)).

(** [j[k]]: [None] is [undefined]. The fields of an object are listed with
    each key once. None of the property names read here exists on a
    string, a number, a boolean or an array. *)
Definition get (j : json) (k : string) : option json :=
  match j with
  | JObj fields => snd <$> List.find (fun f => String.eqb (fst f) k) fields
  | _ => None
  end.

(** Truthiness of [j[k]]. *)
Definition json_truthy (o : option json) : bool :=
  match o with
  | None | Some JNull => false
  | Some (JBool b) => b
  | Some (JNum n) => JsNumber.truthy n
  | Some (JStr s) => JsString.truthy s
  | Some (JArr _) | Some (JObj _) => true
  end.

(** [Number(j)]: an array converts through its [join(',')], so an empty
    array is [0], an array of one element converts like the string of that
    element, and a longer one is [NaN]; an object is [NaN]. *)
Fixpoint json_to_number (j : json) : number :=
  match j with
  | JNull => Fin 0
  | JBool b => Fin (if b then 1 else 0)
  | JNum n => n
  | JStr s => string_to_number s
  | JArr [] => Fin 0
  | JArr [e] =>
      match e with
      | JNull => Fin 0
      | JBool _ => NaN
      | JNum n => n
      | JStr s => string_to_number s
      | JArr _ => json_to_number e
      | JObj _ => NaN
      end
  | JArr _ => NaN
  | JObj _ => NaN
  end.

Definition opt_to_number (o : option json) : number :=
  match o with
  | Some j => json_to_number j
  | None => NaN
  end.

Definition requiredFields : list string :=
  ["familyMetadata"; "geometryDefinition"; "parameters"; "materials"; "visibilitySettings"].

(** The first required field that is missing. *)
Definition missing_field (sir : json) : option string :=
  List.find (fun field => negb (json_truthy (get sir field))) requiredFields.

(** [validateSIR(sir)] of the generator. *)
Definition validateSIR (sir : json) : outcome unit :=
  match missing_field sir with
  | Some field => Throw ("Missing required SIR field: " ++ field)
  | None =>
      let meta := default JNull (get sir "familyMetadata") in
      if negb (json_truthy (get meta "familyName")) || negb (json_truthy (get meta "category"))
      then Throw "Missing required family metadata"
      else
        let lod := opt_to_number (get meta "lodLevel") in
        if lt lod (Fin 100) || gt lod (Fin 500)
        then Throw "LOD level must be between 100 and 500"
        else Ok tt
  end.

(** The fields of the value that [generateSIR] resolves to. The SIR is the
    object parsed from the reply of the model, or the one built by the
    heuristic extractor; [isDemo] is present on the heuristic path only. *)
Inductive sir_object :=
| ModelSIR (j : json)
| DemoSIR (s : SIR).

Record generation := {
  success : bool;
  sir : sir_object;
  sessionId : string;
  timestamp : string;
  isDemo : option bool
}.

(** [generateDemoSIR(userPrompt, sessionId)], with the clock reading. *)
Definition generateDemoSIR (userPrompt sessionId : string) (now : Z) : generation :=
  {| success := true;
     sir := DemoSIR (demoFamily userPrompt);
     sessionId := sessionId;
     timestamp := Clock.toISOString now;
     isDemo := Some true |}.

(** An entry of [conversationHistory]; its [type] is always
    ['generation']. *)
Record interaction := {
  int_timestamp : string;
  userPrompt : string;
  int_sir : json
}.

(** [updateConversationContext]: the last ten interactions are kept. *)
Definition updateConversationContext (sessionId prompt : string) (sir : json) (now : Z)
           (history : gmap string (list interaction)) : gmap string (list interaction) :=
  let old := default [] (history !! sessionId) in
  let pushed := (old ++ [{| int_timestamp := Clock.toISOString now;
                            userPrompt := prompt; int_sir := sir |}])%list in
  <[sessionId := if Nat.ltb 10 (length pushed) then List.tl pushed else pushed]> history.

Section Generator.
(** The service is in demo mode when no key of the model is configured. *)
Variable demoMode : bool.
(** [model.generateContent(prompt)] followed by [response.text()]: the
    text of the reply, or an error. *)
Variable generateContent : string -> outcome string.
(** [JSON.parse]: the value, or the message of the syntax error. *)
Variable JSON_parse : string -> outcome json.

(** [parseSIRResponse(text)]: the text from the first opening brace to
    the last closing one is parsed. *)
Definition parseSIRResponse (text : string) : outcome json :=
  try_catch
    (match exec (seq [Lit "{"; star anything; Lit "}"]) text with
     | None => Throw "No valid JSON found in response"
     | Some m => JSON_parse (matched m)
     end)
    (fun message => Throw ("Failed to parse SIR response: " ++ message)).





End Generator.

(** *** The conversation context *)

(** [getConversationContext(sessionId)] *)
Record context := {
  recentInteractions : list interaction;
  totalInteractions : nat;
  ctx_sessionId : string
}.

(** [history.slice(-n)]: the last [n] entries. *)
Definition slice_last {A} (n : nat) (l : list A) : list A :=
  List.skipn (length l - n) l.

Definition getConversationContext (sessionId : string)
           (history : gmap string (list interaction)) : context :=
  let h := default [] (history !! sessionId) in
  {| recentInteractions := slice_last 3 h;
     totalInteractions := length h;
     ctx_sessionId := sessionId |}.

(** A call of [updateConversationContext]: the session, the prompt, the
    SIR and the clock reading. *)
Record update := {
  u_session : string;
  u_prompt : string;
  u_sir : json;
  u_now : Z
}.

Definition apply_update (history : gmap string (list interaction)) (u : update)
  : gmap string (list interaction) :=
  updateConversationContext (u_session u) (u_prompt u) (u_sir u) (u_now u) history.

(** The history after a sequence of calls, from the empty map of the
    constructor. *)
Definition replay (calls : list update) : gmap string (list interaction) :=
  List.fold_left apply_update calls ∅.

(** The interactions that the calls of one session record, oldest first. *)
Definition recorded (sessionId : string) (calls : list update) : list interaction :=
  List.map
    (fun u => {| int_timestamp := Clock.toISOString (u_now u);
                 userPrompt := u_prompt u; int_sir := u_sir u |})
    (List.filter (fun u => String.eqb (u_session u) sessionId) calls).

(** *** Refinement and variations *)

(** What [refineSIR] resolves to. *)
Record refinement := {
  ref_success : bool;
  ref_sir : option json;
  ref_error : option string;
  ref_sessionId : string;
  refinementType : option string
}.


Section Refinement.
Variable demoMode : bool.
Variable generateContent : string -> outcome string.
Variable JSON_parse : string -> outcome json.
(** [JSON.stringify(value, null, 2)] of a SIR and of a context. *)
Variable stringify : sir_object -> string.
Variable stringify_context : context -> string.

(** [this.model.generateContent(prompt)] and the text of its response. In
    demo mode the constructor creates no model: reading [generateContent]
    of [undefined] throws. *)
Definition model_call (prompt : string) : outcome string :=
  if demoMode then Throw "Cannot read properties of undefined (reading 'generateContent')"
  else generateContent prompt.

Definition refinementPrompt (feedback : string) (originalSIR : sir_object) (c : context)
  : string :=
  "Based on the following feedback, refine the existing SIR:" ++ nl ++ nl
    ++ "FEEDBACK: " ++ feedback ++ nl ++ nl
    ++ "ORIGINAL SIR: " ++ stringify originalSIR ++ nl ++ nl
    ++ "CONTEXT: " ++ stringify_context c ++ nl ++ nl
    ++ "Provide an updated SIR that addresses the feedback while maintaining all valid aspects of the original design. Output ONLY valid JSON.".

(** The model call, the parsing and the validation of one reply. *)
Definition ask (prompt : string) : outcome json :=
  bind (model_call prompt) (fun text =>
  bind (parseSIRResponse JSON_parse text) (fun sir =>
  bind (validateSIR sir) (fun _ => Ok sir))).

(** [refineSIR(sessionId, feedback, originalSIR)], with the clock reading
    of the update of the history. *)
Definition refineSIR (sessionId feedback : string) (originalSIR : sir_object) (now : Z)
           (history : gmap string (list interaction))
  : refinement * gmap string (list interaction) :=
  let c := getConversationContext sessionId history in
  match ask (refinementPrompt feedback originalSIR c) with
  | Ok refinedSIR =>
      ({| ref_success := true; ref_sir := Some refinedSIR; ref_error := None;
          ref_sessionId := sessionId; refinementType := Some "feedback_based" |},
       updateConversationContext sessionId ("Refinement: " ++ feedback) refinedSIR now
         history)
  | Throw message =>
      ({| ref_success := false; ref_sir := None; ref_error := Some message;
          ref_sessionId := sessionId; refinementType := None |},
       history)
  end.







End Refinement.

(** *** Samples *)


(** The default value of the family parameter [name] of a SIR. *)
Definition parameter_default (name : string) (s : SIR) : option jsval :=
  match List.find (fun p => String.eqb (param_name p) name)
                  (list_or_empty (familyParameters (params s))) with
  | Some p => defaultValue p
  | None => None
  end.

Definition example_prompt : string :=
  "Create a 900 mm wide, 1200 mm high double-hung window with 900 mm sill height".

End BIMLLMService.

(** ** The QA gateway ([QAGateway]) *)
Module QAGateway.
Import JsString JsNumber Regex Sir.
Local Open Scope Z_scope.

(** The record every validation pass starts from and mutates. *)
Record results := {
  pass : bool;
  issues : list string;
  warnings : list string;
  score : Z
}.

Definition fresh : results :=
  {| pass := true; issues := []; warnings := []; score := 100 |}.

(** [l.push(msg)] *)
Definition push (l : list string) (msg : string) : list string := (l ++ [msg])%list.

(** [results.issues.push(msg); results.pass = false; results.score -= pts] *)
Definition issue (msg : string) (pts : Z) (r : results) : results :=
  {| pass := false; issues := push (issues r) msg; warnings := warnings r;
     score := score r - pts |}.

(** [results.warnings.push(msg); results.score -= pts] *)
Definition warning (msg : string) (pts : Z) (r : results) : results :=
  {| pass := pass r; issues := issues r; warnings := push (warnings r) msg;
     score := score r - pts |}.

(** [if (b) { f }] on the record. *)
Definition when (b : bool) (f : results -> results) (r : results) : results :=
  if b then f r else r.

(** A pass that completes, or throws after having mutated the record. *)
Inductive run :=
| Done (r : results)
| Failed (r : results) (message : string).

Definition and_then (o : run) (f : results -> run) : run :=
  match o with
  | Done r => f r
  | Failed r m => Failed r m
  end.

(** The [catch] of a pass: the error is reported and the score set to 0. *)
Definition finish (label : string) (o : run) : results :=
  match o with
  | Done r => r
  | Failed r m =>
      {| pass := false; issues := push (issues r) (label ++ m);
         warnings := warnings r; score := 0 |}
  end.

(** [l.forEach((a, index) => ...)] *)
Fixpoint forEach_from {A} (i : nat) (f : A -> nat -> results -> results)
         (l : list A) (r : results) : results :=
  match l with
  | [] => r
  | a :: l' => forEach_from (S i) f l' (f a i r)
  end.
Definition forEach {A} (f : A -> nat -> results -> results) (l : list A) : results -> results :=
  forEach_from 0 f l.

(** The same when the callback may throw: the loop stops at the first
    error. *)
Fixpoint forEach_run_from {A} (i : nat) (f : A -> nat -> results -> run)
         (l : list A) (r : results) : run :=
  match l with
  | [] => Done r
  | a :: l' => and_then (f a i r) (forEach_run_from (S i) f l')
  end.
Definition forEach_run {A} (f : A -> nat -> results -> run) (l : list A) : results -> run :=
  forEach_run_from 0 f l.

Definition count {A} (l : list A) : Z := Z.of_nat (length l).

(** [o && o.length > n] and [!o || o.length < n] for an optional array. *)
Definition longer_than {A} (n : Z) (o : option (list A)) : bool :=
  match o with Some l => n <? count l | None => false end.
Definition absent_or_shorter {A} (n : Z) (o : option (list A)) : bool :=
  match o with Some l => count l <? n | None => true end.

(** Truthiness of an optional string. *)
Definition present (o : option string) : bool :=
  match o with Some s => JsString.truthy s | None => false end.

(** An optional string inside a template literal. *)
Definition shown (o : option string) : string := default "undefined" o.

Section Passes.
(** The digits of a number that is not an integer, see
    [JsNumber.numberToString]. *)
Variable showFraction : Q -> string.

(** *** Geometry *)

Definition check_extrusion (e : extrusion) (index : nat) (r : results) : results :=
  let r := when (absent_or_shorter 3 (profile e))
             (issue ("Extrusion " ++ ext_name e
                       ++ " has invalid profile (minimum 3 points required)") 20) r in
  let height := abs (sub (z (endPoint e)) (z (startPoint e))) in
  let r := when (le height (Fin 0))
             (issue ("Extrusion " ++ ext_name e ++ " has zero or negative height") 15) r in
  match profile e with
  | Some p =>
      when (20 <? count p)
        (warning ("Extrusion " ++ ext_name e ++ " has high complexity ("
                    ++ pretty (length p) ++ " points)") 5) r
  | None => r
  end.

(** [Math.sqrt(normal.x * normal.x + normal.y * normal.y + normal.z * normal.z)],
    each operation rounded. *)
Definition magnitude (n : point3) : number :=
  sqrt (rounded (add (rounded (add (rounded (mul (x n) (x n))) (rounded (mul (y n) (y n)))))
                     (rounded (mul (z n) (z n))))).

(** [Math.abs(magnitude - 1.0) > 0.001]; the literal stands for the
    binary64 value nearest to 0.001. *)
Definition check_plane (p : referencePlane) (index : nat) (r : results) : results :=
  when (gt (abs (rounded (sub (magnitude (normal p)) (Fin 1)))) (round64 0.001))
    (issue ("Reference plane " ++ plane_name p ++ " has invalid normal vector") 10) r.

Definition check_constraint (c : constraint) (index : nat) (r : results) : results :=
  when (negb (present (element1 c)) || negb (present (element2 c)))
    (issue ("Constraint " ++ pretty index ++ " has missing elements") 10) r.

Definition geometry_lod (sir : SIR) (r : results) : results :=
  let lod := lodLevel (metadata sir) in
  if le lod (Fin 200) then
    when (longer_than 3 (extrusions (geometry sir)))
      (warning "LOD 200 family has complex geometry - consider simplification" 5) r
  else if ge lod (Fin 400) then
    when (absent_or_shorter 2 (extrusions (geometry sir)))
      (warning "LOD 400+ family may need more detailed geometry" 5) r
  else r.

Definition geometry_body (sir : SIR) (r : results) : results :=
  let g := geometry sir in
  let r := when (absent_or_shorter 1 (extrusions g))
             (issue "No extrusions defined in geometry" 30) r in
  let r := forEach check_extrusion (list_or_empty (extrusions g)) r in
  let r := forEach check_plane (list_or_empty (referencePlanes g)) r in
  let r := forEach check_constraint (list_or_empty (constraints g)) r in
  geometry_lod sir r.

(** [validateGeometry(sir)]. No access of the body can throw on a SIR of
    this type. *)
Definition validateGeometry (sir : SIR) : results :=
  finish "Geometry validation error: " (Done (geometry_body sir fresh)).

(** *** Parameters *)

(** [/^[a-zA-Z][a-zA-Z0-9_]*$/] *)
Definition namePattern : regex :=
  seq [Bol; Class is_letter; star (Class is_word); Eol].

Definition validTypes : list string :=
  ["Length"; "Number"; "Text"; "Material"; "YesNo"; "Integer"].

(** [array.includes(s)] on strings. *)
Definition member (s : string) (l : list string) : bool :=
  List.existsb (String.eqb s) l.

Definition validOperators : list string :=
  ["+"; "-"; "*"; "/"; "("; ")"; "="; "<"; ">"; "<="; ">="].

(** [formula.split('')] *)
Fixpoint chars (s : string) : list string :=
  match s with
  | EmptyString => []
  | String c rest => String c EmptyString :: chars rest
  end.

(** The class [[\s+\-*/()=<>]] *)
Definition is_separator (c : ascii) : bool :=
  is_space c || member (String c EmptyString) ["+"; "-"; "*"; "/"; "("; ")"; "="; "<"; ">"].

(** The error of the last word that is neither numeric nor the name of a
    parameter, if any. *)
Definition undefined_reference (parameterNames words : list string) : option string :=
  List.fold_left
    (fun err word =>
       if JsString.truthy word && isNaN (VStr word) && negb (member word parameterNames)
       then Some ("Undefined parameter reference: " ++ word)
       else err)
    words None.

(** [validateFormula(formula, parameters)]: [None] when the formula is
    valid, the error otherwise. *)
Definition validateFormula (formula : string) (parameters : list familyParameter)
  : option string :=
  if negb (JsString.truthy formula) || String.eqb (trim formula) EmptyString
  then Some "Empty formula"
  else if negb (List.existsb (fun ch => member ch validOperators) (chars formula))
          && (1 <? String.length formula)%nat
  then Some "Formula contains no valid operators"
  else undefined_reference (List.map param_name parameters)
         (split (plus (Class is_separator)) formula).

(** The names seen so far ([parameterNames], a [Set]) and the record. *)
Definition check_parameter (all : list familyParameter) (param : familyParameter)
           (st : list string * results) : list string * results :=
  let '(names, r) := st in
  let r := when (member (param_name param) names)
             (issue ("Duplicate parameter name: " ++ param_name param) 15) r in
  let names := (names ++ [param_name param])%list in
  let r := when (negb (test namePattern (param_name param)))
             (issue ("Invalid parameter name format: " ++ param_name param) 10) r in
  let r := when (negb (member (param_type param) validTypes))
             (issue ("Invalid parameter type: " ++ param_type param) 10) r in
  let r :=
    match formula param with
    | Some f =>
        if JsString.truthy f then
          match validateFormula f all with
          | Some err =>
              issue ("Invalid formula for " ++ param_name param ++ ": " ++ err) 10 r
          | None => r
          end
        else r
    | None => r
    end in
  (names, r).

(** The names that every object inherits from [Object.prototype]: looked
    up in an object literal they give a function (the prototype itself for
    [__proto__]), which is truthy and has no [forEach]. *)
Definition inheritedNames : list string :=
  ["constructor"; "__defineGetter__"; "__defineSetter__"; "hasOwnProperty";
   "__lookupGetter__"; "__lookupSetter__"; "isPrototypeOf"; "propertyIsEnumerable";
   "toString"; "valueOf"; "__proto__"; "toLocaleString"].

(** [getEssentialParameters(category)], that is
    [essentialParams[category] || []]: the array of the category, the empty
    array for a name that the table does not have, and [None] for an
    inherited name, whose value is not an array. *)
Definition getEssentialParameters (category : string) : option (list string) :=
  if String.eqb category "Doors" then Some ["Width"; "Height"; "Thickness"]
  else if String.eqb category "Windows" then Some ["Width"; "Height"; "Sill Height"]
  else if String.eqb category "Furniture" then Some ["Width"; "Depth"; "Height"]
  else if String.eqb category "Structural Framing" then Some ["Length"; "Width"; "Height"]
  else if String.eqb category "Structural Columns" then Some ["Width"; "Depth"; "Height"]
  else if String.eqb category "Mechanical Equipment" then Some ["Width"; "Depth"; "Height"]
  else if String.eqb category "Electrical Equipment" then Some ["Width"; "Depth"; "Height"]
  else if String.eqb category "Plumbing Fixtures" then Some ["Width"; "Depth"; "Height"]
  else if List.existsb (String.eqb category) inheritedNames then None
  else Some [].

Definition check_essential (names : list string) (essentialParam : string) (index : nat)
           (r : results) : results :=
  when (negb (member essentialParam names))
    (warning ("Missing essential parameter: " ++ essentialParam) 5) r.

(** [validateParameterValue(value, type)]: [None] when the value is valid,
    the error otherwise. *)
Definition validateParameterValue (value : jsval) (type : string) : option string :=
  if String.eqb type "Length" || String.eqb type "Number" then
    if isNaN value then Some "Value must be numeric" else None
  else if String.eqb type "Integer" then
    if negb (isInteger (to_number value)) then Some "Value must be an integer" else None
  else if String.eqb type "YesNo" then
    match value with
    | VBool _ => None
    | VStr s =>
        if String.eqb s "true" || String.eqb s "false" then None
        else Some "Value must be true or false"
    | _ => Some "Value must be true or false"
    end
  else if String.eqb type "Text" || String.eqb type "Material" then
    match value with
    | VStr _ => None
    | _ => Some "Value must be a string"
    end
  else None.

(** One key of [type.parameters]. Looking the parameter up throws when the
    SIR has no [familyParameters]. *)
Definition check_value (sir : SIR) (t : familyType) (entry : string * jsval) (index : nat)
           (r : results) : run :=
  let '(paramName, value) := entry in
  match familyParameters (params sir) with
  | None => Failed r "Cannot read properties of undefined (reading 'find')"
  | Some all =>
      match List.find (fun p => String.eqb (param_name p) paramName) all with
      | Some paramDef =>
          match validateParameterValue value (param_type paramDef) with
          | Some err =>
              Done (issue ("Invalid value for " ++ paramName ++ " in type "
                             ++ shown (type_name t) ++ ": " ++ err) 5 r)
          | None => Done r
          end
      | None => Done r
      end
  end.

Definition empty_name (o : option string) : bool :=
  match o with
  | Some s => negb (JsString.truthy s) || String.eqb (trim s) EmptyString
  | None => true
  end.

Definition check_type (sir : SIR) (t : familyType) (index : nat) (r : results) : run :=
  let r := when (empty_name (type_name t))
             (issue ("Family type " ++ pretty index ++ " has empty name") 10) r in
  match type_parameters t with
  | Some entries => forEach_run (check_value sir t) entries r
  | None => Done r
  end.

(** The checks of the parameters and of the essential ones. Calling
    [forEach] on what [getEssentialParameters] returns throws when that is
    not an array. *)
Definition parameters_checks (sir : SIR) (r : results) : run :=
  match familyParameters (params sir) with
  | Some all =>
      let '(names, r) := List.fold_left (fun st p => check_parameter all p st) all ([], r) in
      match getEssentialParameters (category (metadata sir)) with
      | Some essentialParams => Done (forEach (check_essential names) essentialParams r)
      | None => Failed r "essentialParams.forEach is not a function"
      end
  | None => Done r
  end.

Definition parameters_body (sir : SIR) (r : results) : run :=
  let ps := familyParameters (params sir) in
  let r := when (absent_or_shorter 1 ps) (issue "No family parameters defined" 40) r in
  and_then (parameters_checks sir r)
    (fun r =>
       match familyTypes (params sir) with
       | Some types => forEach_run (check_type sir) types r
       | None => Done r
       end).

(** [validateParameters(sir)] *)
Definition validateParameters (sir : SIR) : results :=
  finish "Parameter validation error: " (parameters_body sir fresh).

(** *** Performance *)

Definition complexityIndicators : list string :=
  ["if "; "for "; "while "; "try:"; "except:"; "def "; "class "].

(** [analyzeCodeComplexity(code).complexityScore]: twice the number of
    occurrences of the indicators. *)
Definition complexityScore (code : string) : Z :=
  List.fold_left
    (fun acc indicator => acc + Z.of_nat (count_matches (str indicator) code) * 2)
    complexityIndicators 0.

Definition totalProfilePoints (exts : list extrusion) : Z :=
  List.fold_left
    (fun sum ext => sum + match profile ext with Some p => count p | None => 0 end)
    exts 0.

Definition performance_checks (sir : SIR) (code : string) (r : results) : results :=
  let r := when (50 <? complexityScore code)
             (warning "High code complexity detected - may impact performance" 10) r in
  let r := when (includes code "while " || includes code "for i in range(1000)")
             (issue "Performance anti-pattern detected: excessive loops" 20) r in
  let r :=
    match extrusions (geometry sir) with
    | Some exts =>
        when (100 <? totalProfilePoints exts)
          (warning "High geometry complexity - consider optimization" 15) r
    | None => r
    end in
  let r := when (longer_than 20 (familyParameters (params sir)))
             (warning "High parameter count - may impact family performance" 10) r in
  if le (lodLevel (metadata sir)) (Fin 200) then
    when (longer_than 2 (extrusions (geometry sir)))
      (warning "LOD 200 family should have minimal geometry for performance" 10) r
  else r.

(** The code is optional: without it, reading the code throws at once. *)
Definition performance_body (sir : SIR) (generatedCode : option string) (r : results) : run :=
  match generatedCode with
  | None => Failed r "Cannot read properties of undefined (reading 'split')"
  | Some code => Done (performance_checks sir code r)
  end.

(** [validatePerformance(sir, generatedCode)] *)
Definition validatePerformance (sir : SIR) (generatedCode : option string) : results :=
  finish "Performance validation error: " (performance_body sir generatedCode fresh).

(** *** Compliance *)

(** What a compliance check reports. *)
Record compliance := {
  c_pass : bool;
  c_issues : list string;
  scoreDeduction : Z
}.

Definition passing : compliance := {| c_pass := true; c_issues := []; scoreDeduction := 0 |}.

Definition validateBEPCompliance (sir : SIR) : compliance := passing.
Definition validateIndustryStandards (sir : SIR) : compliance := passing.
Definition validateCategoryCompliance (sir : SIR) : compliance := passing.
Definition validateConstraintDependencies (cs : list constraint) : compliance := passing.

(** [if (!c.pass) { issues.push(...c.issues); pass = false; score -= c.scoreDeduction }] *)
Definition apply_compliance (c : compliance) (r : results) : results :=
  if c_pass c then r
  else {| pass := false; issues := (issues r ++ c_issues c)%list; warnings := warnings r;
          score := score r - scoreDeduction c |}.

(** [validateCompliance(sir)] *)
Definition validateCompliance (sir : SIR) : results :=
  finish "Compliance validation error: "
    (Done (apply_compliance (validateCategoryCompliance sir)
             (apply_compliance (validateIndustryStandards sir)
                (apply_compliance (validateBEPCompliance sir) fresh)))).

(** *** Flexing *)

Record scenario := {
  parameter : string;
  testValues : list jsval;
  s_description : string
}.

(** [generateTestValues(param)] *)
Definition generateTestValues (param : familyParameter) : list jsval :=
  (match defaultValue param with Some v => [v] | None => [] end
   ++ if String.eqb (param_type param) "Length"
      then [VNum (Fin 0.1); VNum (Fin 1); VNum (Fin 10); VNum (Fin 100)]
      else if String.eqb (param_type param) "Number"
      then [VNum (Fin 0); VNum (Fin 1); VNum (Fin 10); VNum (Fin 100); VNum (Fin 1000)]
      else [])%list.

(** [generateFlexingScenarios(sir)] *)
Definition generateFlexingScenarios (sir : SIR) : list scenario :=
  List.map
    (fun param =>
       {| parameter := param_name param;
          testValues := generateTestValues param;
          s_description := "Test flexing for parameter " ++ param_name param |})
    (List.filter
       (fun param =>
          String.eqb (param_type param) "Length" || String.eqb (param_type param) "Number")
       (list_or_empty (familyParameters (params sir)))).

(** [p.formula && p.formula.includes(name)] *)
Definition references (name : string) (p : familyParameter) : bool :=
  match formula p with
  | Some f => JsString.truthy f && includes f name
  | None => false
  end.

(** [validateFlexingScenario(scenario, sir)]: [None] when the scenario
    passes, the error otherwise. *)
Definition validateFlexingScenario (sc : scenario) (sir : SIR) : option string :=
  if JsString.truthy (parameter sc) then
    let all := list_or_empty (familyParameters (params sir)) in
    match List.find (references (parameter sc)) all with
    | Some p =>
        match validateFormula (default EmptyString (formula p)) all with
        | Some err => Some ("Formula validation failed: " ++ err)
        | None => None
        end
    | None => None
    end
  else None.

Definition check_scenario (sir : SIR) (sc : scenario) (index : nat) (r : results) : results :=
  match validateFlexingScenario sc sir with
  | Some err => issue ("Flexing scenario failed: " ++ err) 15 r
  | None => r
  end.

Definition flexing_body (sir : SIR) (r : results) : results :=
  let r := forEach (check_scenario sir) (generateFlexingScenarios sir) r in
  match constraints (geometry sir) with
  | Some cs => apply_compliance (validateConstraintDependencies cs) r
  | None => r
  end.

(** [validateFlexing(sir)] *)
Definition validateFlexing (sir : SIR) : results :=
  finish "Flexing validation error: " (Done (flexing_body sir fresh)).

(** *** Metadata *)

Definition validCategories : list string :=
  ["Doors"; "Windows"; "Furniture"; "Structural Framing"; "Structural Columns";
   "Mechanical Equipment"; "Electrical Equipment"; "Plumbing Fixtures"].

Definition missing_metadata (field : string) : results -> results :=
  issue ("Missing required metadata field: " ++ field) 20.

Definition metadata_body (sir : SIR) (r : results) : results :=
  let m := metadata sir in
  let r := when (negb (JsString.truthy (familyName m))) (missing_metadata "familyName") r in
  let r := when (negb (JsString.truthy (category m))) (missing_metadata "category") r in
  let r := when (negb (JsNumber.truthy (lodLevel m))) (missing_metadata "lodLevel") r in
  let lod := lodLevel m in
  let r := when (lt lod (Fin 100) || gt lod (Fin 500) || rem100_nonzero lod)
             (issue ("Invalid LOD level: " ++ numberToString showFraction lod
                       ++ " (must be 100, 200, 300, 400, or 500)") 25) r in
  let r := when (negb (member (category m) validCategories))
             (warning ("Non-standard category: " ++ category m) 5) r in
  when (match description m with
        | Some d => negb (JsString.truthy d) || String.eqb (trim d) EmptyString
        | None => true
        end)
    (warning "Missing family description" 5) r.

(** [validateMetadata(sir)] *)
Definition validateMetadata (sir : SIR) : results :=
  finish "Metadata validation error: " (Done (metadata_body sir fresh)).

(** *** The aggregate *)

Record validations := {
  geometryValidation : results;
  parameterValidation : results;
  performanceValidation : results;
  complianceValidation : results;
  flexingValidation : results;
  metadataValidation : results
}.

(** [determineOverallPass(validations)] *)
Definition determineOverallPass (v : validations) : bool :=
  pass (geometryValidation v) && pass (parameterValidation v) && pass (metadataValidation v).

(** The six passes of [validateFamily(sir, generatedCode)]. *)
Definition validateFamily (sir : SIR) (generatedCode : option string) : validations :=
  {| geometryValidation := validateGeometry sir;
     parameterValidation := validateParameters sir;
     performanceValidation := validatePerformance sir generatedCode;
     complianceValidation := validateCompliance sir;
     flexingValidation := validateFlexing sir;
     metadataValidation := validateMetadata sir |}.

(** The six results, in the order in which they are computed. *)
Definition passes (v : validations) : list results :=
  [geometryValidation v; parameterValidation v; performanceValidation v;
   complianceValidation v; flexingValidation v; metadataValidation v].

End Passes.

(** *** Bounds of a score *)

(** The number of issues and warnings of a record. *)
Definition findings (r : results) : Z :=
  Z.of_nat (length (issues r)) + Z.of_nat (length (warnings r)).

(** Every finding has lowered the score by at least 5 and at most 40. *)
Definition within (r : results) : Prop :=
  100 - 40 * findings r <= score r <= 100 - 5 * findings r.

(** A pass that may throw keeps the bounds as long as it runs. *)
Definition within_run (o : run) : Prop :=
  match o with
  | Done r => within r
  | Failed _ _ => True
  end.

(** What a pass reports: a score within the bounds, or 0 with a failure when
    the pass threw. *)
Definition scored (r : results) : Prop :=
  within r \/ (score r = 0 /\ pass r = false /\ issues r <> []).

(** *** Invariants of a record *)

(** A record fails exactly when it lists an issue. *)
Definition coherent (r : results) : Prop := pass r = true <-> issues r = [].

Definition coherent_run (o : run) : Prop :=
  match o with
  | Done r => coherent r
  | Failed _ _ => True
  end.

(** The score of a record is at most [c]. *)
Definition capped (c : Z) (r : results) : Prop := score r <= c.

Definition capped_run (c : Z) (o : run) : Prop :=
  match o with
  | Done r => capped c r
  | Failed _ _ => True
  end.

(** *** Recommendations *)

(** An entry of [recommendations]: it carries the issues (priority high)
    or the warnings (priority medium) of one validation. *)
Inductive finding_kind := Issues | Warnings.

Record recommendation := {
  rec_type : string;
  rec_kind : finding_kind;
  rec_findings : list string;
  suggestions : list string
}.

Definition priority (r : recommendation) : string :=
  match rec_kind r with Issues => "high" | Warnings => "medium" end.

(** [getSuggestionsForIssues(validationType, issues)] *)
Definition getSuggestionsForIssues (validationType : string) (issues : list string)
  : list string :=
  List.concat
    (List.map
       (fun issue =>
          if String.eqb validationType "geometryValidation" then
            if includes issue "invalid profile"
            then ["Ensure extrusion profiles have at least 3 points forming a closed loop"]
            else []
          else if String.eqb validationType "parameterValidation" then
            if includes issue "Invalid parameter name"
            then ["Use alphanumeric names starting with a letter, avoid special characters"]
            else []
          else if String.eqb validationType "metadataValidation" then
            if includes issue "Invalid LOD level"
            then ["Use standard LOD levels: 100, 200, 300, 400, or 500"]
            else []
          else [])
       issues).

(** [getSuggestionsForWarnings(validationType, warnings)] *)
Definition getSuggestionsForWarnings (validationType : string) (warnings : list string)
  : list string :=
  List.concat
    (List.map
       (fun warning =>
          if String.eqb validationType "performanceValidation" then
            if includes warning "High complexity"
            then ["Consider simplifying geometry or reducing parameter count for better performance"]
            else []
          else if String.eqb validationType "geometryValidation" then
            if includes warning "complex geometry"
            then ["For LOD 200 families, use simple symbolic geometry instead of detailed 3D models"]
            else []
          else [])
       warnings).

(** The keys of [validations], in the order in which [validateFamily] sets
    them, with their values. *)
Definition entries (v : validations) : list (string * results) :=
  [("geometryValidation", geometryValidation v);
   ("parameterValidation", parameterValidation v);
   ("performanceValidation", performanceValidation v);
   ("complianceValidation", complianceValidation v);
   ("flexingValidation", flexingValidation v);
   ("metadataValidation", metadataValidation v)].

(** The recommendations for one validation. *)
Definition recommend (entry : string * results) : list recommendation :=
  let '(validationType, validation) := entry in
  ((match issues validation with
    | [] => []
    | _ => [{| rec_type := validationType; rec_kind := Issues;
               rec_findings := issues validation;
               suggestions := getSuggestionsForIssues validationType (issues validation) |}]
    end)
   ++
   (match warnings validation with
    | [] => []
    | _ => [{| rec_type := validationType; rec_kind := Warnings;
               rec_findings := warnings validation;
               suggestions :=
                 getSuggestionsForWarnings validationType (warnings validation) |}]
    end))%list.

(** [generateRecommendations(validations)] *)
Definition generateRecommendations (v : validations) : list recommendation :=
  List.concat (List.map recommend (entries v)).

(** *** The overall score ([calculateOverallScore] of the routes) *)

(** The mean of the scores; every validation of the gateway has one. *)
Definition calculateOverallScore (v : validations) : Q :=
  let scores := List.map score (passes v) in
  inject_Z (List.fold_left Z.add scores 0) / inject_Z (Z.of_nat (length scores)).

(** *** Levels of detail *)

(** The five levels of detail that the gateway accepts. *)
Definition standard_lod (n : number) : Prop :=
  exists (q : Q) (k : Z), n = Fin q /\ (q == inject_Z (100 * k))%Q /\ (1 <= k <= 5)%Z.

(** *** Samples *)

Definition bare_extrusion (name : string) : extrusion :=
  {| ext_name := name; profile := None;
     startPoint := {| x := Fin 0; y := Fin 0; z := Fin 0 |};
     endPoint := {| x := Fin 0; y := Fin 0; z := Fin 1 |};
     ext_material := None |}.

(** A SIR whose six extrusions have no profile. *)
Definition six_bare_extrusions : SIR :=
  {| metadata := {| familyName := "Frame"; category := "Windows";
                    description := Some "Six extrusions without a profile";
                    lodLevel := Fin 300; isHosted := false; hostingType := None |};
     geometry := {| extrusions := Some (List.map bare_extrusion ["A"; "B"; "C"; "D"; "E"; "F"]);
                    referencePlanes := None; constraints := None |};
     params := {| familyParameters := None; familyTypes := None |};
     top_constraints := [];
     materials := None;
     visibility := None;
     visibility_settings := None |}.

(** The three kinds of issue that concern the declaration of a parameter. *)
Definition declaration_issue (msg : string) : bool :=
  startsWith msg "Duplicate parameter name"
  || startsWith msg "Invalid parameter name format"
  || startsWith msg "Invalid parameter type".

End QAGateway.

(** ** The code emitter ([SIRToCodeInterpreter]) *)
Module SIRToCodeInterpreter.
Import JsString JsNumber Regex Sir.
Local Open Scope Z_scope.

(** A string between double quotes. *)
Definition quoted (s : string) : string := dq ++ s ++ dq.

(** An optional string inside a template literal. *)
Definition shown (o : option string) : string := default "undefined" o.

Section Emitter.
(** The digits of a number that is not an integer, see
    [JsNumber.numberToString]. *)
Variable showFraction : Q -> string.

Definition num (n : number) : string := numberToString showFraction n.

(** A value inside a template literal. *)
Definition valueToString (v : jsval) : string :=
  match v with
  | VNum n => num n
  | VStr s => s
  | VBool b => if b then "true" else "false"
  | VNull => "null"
  end.

(** [generateImports(sir)]; [generatedAt] is the clock reading. *)
Definition generateImports (sir : SIR) (generatedAt : Z) : string :=
  let cat := category (metadata sir) in
  join nl
    (List.concat [[ "import clr";
       "clr.AddReference(" ++ quoted "RevitAPI" ++ ")";
       "clr.AddReference(" ++ quoted "RevitServices" ++ ")";
       "clr.AddReference(" ++ quoted "RevitNodes" ++ ")";
       EmptyString;
       "from Autodesk.Revit.DB import *";
       "from Autodesk.Revit.DB.Structure import *";
       "from Autodesk.Revit.UI import *";
       "from RevitServices.Persistence import DocumentManager";
       "from RevitServices.Transactions import TransactionManager";
       EmptyString;
       "# BIM-LLM Generated Code";
       "# Generated at: " ++ Clock.toISOString generatedAt;
       "# Family: " ++ familyName (metadata sir);
       EmptyString ];
       (if String.eqb cat "Doors" then ["from Autodesk.Revit.DB.Architecture import *"]
        else if String.eqb cat "Windows" then ["from Autodesk.Revit.DB.Architecture import *"]
        else if includes cat "Structural" then ["from Autodesk.Revit.DB.Structure import *"]
        else [])]).

(** [generateFamilySetup(sir)] *)
Definition generateFamilySetup (sir : SIR) : string :=
  let m := metadata sir in
  join nl
    [ "# Family Setup";
      "doc = DocumentManager.Instance.CurrentDBDocument";
      "app = DocumentManager.Instance.CurrentUIApplication.Application";
      EmptyString;
      "# Transaction for family creation";
      "TransactionManager.Instance.EnsureInTransaction(doc)";
      EmptyString;
      "try:";
      "    # Family metadata";
      "    family_name = " ++ quoted (familyName m);
      "    family_category = " ++ quoted (category m);
      "    family_description = " ++ quoted (str_or (description m) EmptyString);
      "    lod_level = " ++ num (lodLevel m);
      EmptyString;
      "    # Validate family document";
      "    if not doc.IsFamilyDocument:";
      "        raise Exception(" ++ quoted "This script must run in a family document" ++ ")";
      EmptyString;
      "    # Get family category";
      "    categories = doc.Settings.Categories";
      "    target_category = None";
      "    for cat in categories:";
      "        if cat.Name == family_category:";
      "            target_category = cat";
      "            break";
      EmptyString;
      "    if target_category is None:";
      "        raise Exception(f" ++ quoted "Category {family_category} not found" ++ ")";
      EmptyString;
      "    # Set family category if not already set";
      "    if doc.OwnerFamily.FamilyCategory.Name != family_category:";
      "        doc.OwnerFamily.FamilyCategory = target_category";
      EmptyString ].

Definition xyz (p : point3) : string :=
  "XYZ(" ++ num (x p) ++ ", " ++ num (y p) ++ ", " ++ num (z p) ++ ")".

Definition plane_lines (plane : referencePlane) : list string :=
  [ "    # Reference Plane: " ++ plane_name plane;
    "    plane_origin = " ++ xyz (origin plane);
    "    plane_normal = " ++ xyz (normal plane);
    "    ref_plane = Plane.CreateByNormalAndOrigin(plane_normal, plane_origin)";
    "    reference_planes[" ++ quoted (plane_name plane) ++ "] = ref_plane";
    EmptyString ].

(** [generateReferencePlanes(sir)] *)
Definition generateReferencePlanes (sir : SIR) : string :=
  join nl
    (List.concat
       [[ "    # Reference Planes"; "    reference_planes = {}"; EmptyString ];
        List.concat (List.map plane_lines (list_or_empty (referencePlanes (geometry sir))))]).

(** [formatParameterValue(value, type)], as a template literal prints it. *)
Definition formatParameterValue (value : jsval) (type : string) : string :=
  if String.eqb type "Length" || String.eqb type "Number" then valueToString value
  else quoted (valueToString value).

Definition parameter_lines (param : familyParameter) : list string :=
  List.concat
  [[ "    # Parameter: " ++ param_name param;
     "    param_def = FamilyParameterDefinition.Create(" ++ quoted (param_name param)
       ++ ", ParameterType." ++ param_type param ++ ")";
     "    param_def.SetGroupTypeId(GroupTypeId." ++ str_or (param_group param) "Data" ++ ")";
     "    param_def.IsInstance = " ++ (if isInstance param then "True" else "False") ];
   match defaultValue param with
   | Some v =>
       [ "    param_def.DefaultValue = " ++ formatParameterValue v (param_type param) ]
   | None => []
   end;
   match formula param with
   | Some f =>
       if JsString.truthy f then [ "    param_def.Formula = " ++ quoted f ] else []
   | None => []
   end;
   [ "    created_parameters[" ++ quoted (param_name param) ++ "] = param_def";
     EmptyString ]].

(** [generateParameters(sir)] *)
Definition generateParameters (sir : SIR) : string :=
  join nl
    (List.concat
       [[ "    # Family Parameters"; "    created_parameters = {}"; EmptyString ];
        List.concat (List.map parameter_lines
                       (list_or_empty (familyParameters (params sir))))]).

(** The lines of the edge that starts at [point]; [nextPoint] is the next
    point of the profile, the first one after the last. *)
Definition edge_lines (point nextPoint : point2) : list string :=
  [ "    # Line from (" ++ num (p2_x point) ++ ", " ++ num (p2_y point) ++ ") to ("
      ++ num (p2_x nextPoint) ++ ", " ++ num (p2_y nextPoint) ++ ")";
    "    start_pt = XYZ(" ++ num (p2_x point) ++ ", " ++ num (p2_y point) ++ ", 0)";
    "    end_pt = XYZ(" ++ num (p2_x nextPoint) ++ ", " ++ num (p2_y nextPoint) ++ ", 0)";
    "    line = Line.CreateBound(start_pt, end_pt)";
    "    profile_curves.Append(line)" ].

(** [profile[(pointIndex + 1) % profile.length]] for every point. *)
Definition successors (p : list point2) : list point2 :=
  match p with
  | [] => []
  | first :: others => List.app others [first]
  end.

Definition profile_lines (p : list point2) : list string :=
  List.concat (List.map (fun pq => edge_lines (fst pq) (snd pq)) (List.combine p (successors p))).

Definition triple (p : point3) : string :=
  "(" ++ num (x p) ++ ", " ++ num (y p) ++ ", " ++ num (z p) ++ ")".

Definition extrusion_lines (e : extrusion) : list string :=
  List.concat
  [[ "    # Extrusion: " ++ ext_name e;
     "    # Start Point: " ++ triple (startPoint e);
     "    # End Point: " ++ triple (endPoint e);
     EmptyString;
     "    # Create sketch plane";
     "    sketch_plane = Plane.CreateByNormalAndOrigin(XYZ(0, 0, 1), XYZ(0, 0, 0))";
     "    sketch = SketchPlane.Create(doc, sketch_plane)";
     EmptyString;
     "    # Create profile curves";
     "    profile_curves = CurveArray()" ];
   profile_lines (list_or_empty (profile e));
   [ EmptyString;
        "    # Create extrusion";
        "    extrusion_height = " ++ num (sub (z (endPoint e)) (z (startPoint e)));
        "    extrusion_obj = doc.FamilyCreate.NewExtrusion(True, profile_curves, sketch, extrusion_height)";
        "    created_geometry[" ++ quoted (ext_name e) ++ "] = extrusion_obj";
        EmptyString ]].

(** [generateGeometry(sir)] *)
Definition generateGeometry (sir : SIR) : string :=
  join nl
    (List.concat
       [[ "    # Geometry Creation"; "    created_geometry = {}"; EmptyString ];
        List.concat (List.map extrusion_lines (list_or_empty (extrusions (geometry sir))))]).

Definition constraint_lines (c : constraint) : list string :=
  let kind := constraintType c in
  List.concat
  [[ "    # Constraint: " ++ shown (element1 c) ++ " -> " ++ shown (element2 c);
     "    # Type: " ++ shown kind;
     "    # Offset: " ++ match offset c with Some n => num n | None => "undefined" end;
     EmptyString ];
   (if bool_decide (kind = Some "align") then
         [ "    # Align constraint implementation";
           "    # TODO: Implement alignment constraint" ]
       else if bool_decide (kind = Some "lock") then
         [ "    # Lock constraint implementation";
           "    # TODO: Implement lock constraint" ]
       else if bool_decide (kind = Some "dimension") then
         [ "    # Dimension constraint implementation";
           "    # TODO: Implement dimension constraint" ]
       else []);
   [ EmptyString ]].

(** [generateConstraints(sir)] *)
Definition generateConstraints (sir : SIR) : string :=
  join nl
    (List.concat
       [[ "    # Constraints and Relationships"; EmptyString ];
        List.concat (List.map constraint_lines (list_or_empty (constraints (geometry sir))))]).

Definition material_lines (m : material) : list string :=
  let pname := shown (parameterName m) in
  [ "    # Material: " ++ mat_name m;
    "    # Parameter: " ++ pname;
    "    # Default: " ++ shown (mat_defaultValue m);
    EmptyString;
    "    if " ++ quoted pname ++ " not in created_parameters:";
    "        mat_param = FamilyParameterDefinition.Create(" ++ quoted pname
      ++ ", ParameterType.Material)";
    "        mat_param.SetGroupTypeId(GroupTypeId.Materials)";
    "        mat_param.IsInstance = True";
    "        created_parameters[" ++ quoted pname ++ "] = mat_param";
    EmptyString ].

(** [generateMaterials(sir)] *)
Definition generateMaterials (sir : SIR) : string :=
  join nl
    (List.concat
       [[ "    # Materials"; "    created_materials = {}"; EmptyString ];
        List.concat (List.map material_lines (list_or_empty (materials sir)))]).

Definition value_lines (entry : string * jsval) : list string :=
  [ "    # Set parameter " ++ fst entry ++ " = " ++ valueToString (snd entry);
    "    # TODO: Implement parameter value setting" ].

Definition type_lines (t : familyType) : list string :=
  List.concat
  [[ "    # Family Type: " ++ shown (type_name t);
     "    family_type = doc.FamilyCreate.NewType(" ++ quoted (shown (type_name t)) ++ ")";
     EmptyString ];
   List.concat (List.map value_lines (list_or_empty (type_parameters t)));
   [ "    created_types[" ++ quoted (shown (type_name t)) ++ "] = family_type";
     EmptyString ]].

(** [generateFamilyTypes(sir)] *)
Definition generateFamilyTypes (sir : SIR) : string :=
  join nl
    (List.concat
       [[ "    # Family Types"; "    created_types = {}"; EmptyString ];
        List.concat (List.map type_lines (list_or_empty (familyTypes (params sir))))]).

Definition element_lines (detailLevel elementName : string) : list string :=
  [ "    # Set " ++ elementName ++ " visibility for " ++ detailLevel;
    "    # TODO: Implement visibility setting for " ++ elementName ].

(** The lines of one detail level; [upper] is its name in capitals. *)
Definition level_lines (detailLevel upper : string) (elements : option (list string))
  : list string :=
  match elements with
  | Some names =>
      List.concat
        [[ "    # " ++ upper ++ " visibility" ];
         List.concat (List.map (element_lines detailLevel) names);
         [ EmptyString ]]
  | None => []
  end.

(** [generateVisibilitySettings(sir)] *)
Definition generateVisibilitySettings (sir : SIR) : string :=
  join nl
    (List.concat
       [[ "    # Visibility Settings"; EmptyString ];
        match visibility_settings sir with
        | Some v =>
            List.concat
              [level_lines "coarse" "COARSE" (coarse v);
               level_lines "medium" "MEDIUM" (medium v);
               level_lines "fine" "FINE" (fine v)]
        | None => []
        end]).

(** [generateValidationCode(sir)] *)
Definition generateValidationCode (sir : SIR) : string :=
  join nl
    [ "    # Validation and Quality Assurance";
      "    validation_results = {";
      "        " ++ quoted "geometry_created" ++ ": len(created_geometry) > 0,";
      "        " ++ quoted "parameters_created" ++ ": len(created_parameters) > 0,";
      "        " ++ quoted "family_types_created" ++ ": len(created_types) > 0,";
      "        " ++ quoted "lod_compliance" ++ ": True,  # TODO: Implement LOD validation";
      "        " ++ quoted "performance_optimized"
        ++ ": True  # TODO: Implement performance checks";
      "    }";
      EmptyString;
      "    # Log validation results";
      "    print(" ++ quoted "Family Creation Validation Results:" ++ ")";
      "    for key, value in validation_results.items():";
      "        print(f" ++ quoted "  {key}: {value}" ++ ")";
      EmptyString;
      "    # Commit transaction";
      "    TransactionManager.Instance.TransactionTaskDone()";
      EmptyString;
      "    print(f" ++ quoted "Successfully created family: {family_name}" ++ ")";
      "    print(f" ++ quoted "Category: {family_category}" ++ ")";
      "    print(f" ++ quoted "LOD Level: {lod_level}" ++ ")";
      EmptyString;
      "except Exception as e:";
      "    print(f" ++ quoted "Error creating family: {str(e)}" ++ ")";
      "    TransactionManager.Instance.TransactionTaskDone()";
      "    raise e";
      EmptyString ].

Record codeSections := {
  imports : string;
  familySetup : string;
  s_referencePlanes : string;
  s_parameters : string;
  s_geometry : string;
  s_constraints : string;
  s_materials : string;
  s_familyTypes : string;
  s_visibility : string;
  validation : string
}.

Definition generateSections (sir : SIR) (generatedAt : Z) : codeSections :=
  {| imports := generateImports sir generatedAt;
     familySetup := generateFamilySetup sir;
     s_referencePlanes := generateReferencePlanes sir;
     s_parameters := generateParameters sir;
     s_geometry := generateGeometry sir;
     s_constraints := generateConstraints sir;
     s_materials := generateMaterials sir;
     s_familyTypes := generateFamilyTypes sir;
     s_visibility := generateVisibilitySettings sir;
     validation := generateValidationCode sir |}.

(** [combineCodeSections(sections)] *)
Definition combineCodeSections (s : codeSections) : string :=
  join (nl ++ nl)
    [ imports s; familySetup s; s_referencePlanes s; s_parameters s; s_geometry s;
      s_constraints s; s_materials s; s_familyTypes s; s_visibility s; validation s ].

Definition lowLOD (sir : SIR) : bool := le (lodLevel (metadata sir)) (Fin 200).

(** The two rules of [initializePerformanceRules]. *)
Definition minimize_voids (code : string) (sir : SIR) : string :=
  if lowLOD sir then remove_all (line_from "NewVoid") code else code.
Definition optimize_arrays (code : string) (sir : SIR) : string :=
  remove_all (line_from "Array.Create") code.

(** [applyPerformanceOptimizations(code, sir)] *)
Definition applyPerformanceOptimizations (code : string) (sir : SIR) : string :=
  let optimizedCode := if lowLOD sir then remove_all (line_from "# ") code else code in
  let optimizedCode :=
    if lowLOD sir
    then remove_all (line_from "extrusion_obj = doc.FamilyCreate.NewExtrusion") optimizedCode
    else optimizedCode in
  optimize_arrays (minimize_voids optimizedCode sir) sir.

(** [estimateExecutionTime(sir)] *)
Definition estimateExecutionTime (sir : SIR) : Z :=
  let baseTime := 30 in
  let baseTime :=
    match extrusions (geometry sir) with
    | Some l => baseTime + Z.of_nat (length l) * 5
    | None => baseTime
    end in
  let baseTime :=
    match familyParameters (params sir) with
    | Some l => baseTime + Z.of_nat (length l) * 2
    | None => baseTime
    end in
  let baseTime :=
    match familyTypes (params sir) with
    | Some l => baseTime + Z.of_nat (length l) * 3
    | None => baseTime
    end in
  Z.min baseTime 300.

(** [calculateComplexityScore(sir)] *)
Definition calculateComplexityScore (sir : SIR) : Z :=
  let score := 0 in
  let score :=
    match extrusions (geometry sir) with
    | Some l => score + Z.of_nat (length l) * 2
    | None => score
    end in
  let score :=
    match familyParameters (params sir) with
    | Some l => score + Z.of_nat (length l)
    | None => score
    end in
  match familyTypes (params sir) with
  | Some l => score + Z.of_nat (length l) * 2
  | None => score
  end.

(** [getAppliedOptimizations(sir)] *)
Definition getAppliedOptimizations (sir : SIR) : list string :=
  List.concat
    [(if lowLOD sir then ["simplified_geometry"] else []);
     match extrusions (geometry sir) with
     | Some l => if (5 <? Z.of_nat (length l)) then ["geometry_consolidation"] else []
     | None => []
     end].

Record executionMetadata := {
  m_familyName : string;
  m_category : string;
  m_lodLevel : number;
  codeLength : nat;
  estimatedExecutionTime : Z;
  complexityScore : Z;
  performanceOptimizations : list string;
  generatedAt : string
}.

(** [generateExecutionMetadata(sir, code)], with the clock reading. *)
Definition generateExecutionMetadata (sir : SIR) (code : string) (now : Z) : executionMetadata :=
  {| m_familyName := familyName (metadata sir);
     m_category := category (metadata sir);
     m_lodLevel := lodLevel (metadata sir);
     codeLength := String.length code;
     estimatedExecutionTime := estimateExecutionTime sir;
     complexityScore := calculateComplexityScore sir;
     performanceOptimizations := getAppliedOptimizations sir;
     generatedAt := Clock.toISOString now |}.

(** [validateSIR(sir)] of the emitter: the error thrown, if any. The three
    sections it requires are always present in a SIR of this type. *)
Definition validateSIR (sir : SIR) : option string :=
  let lod := lodLevel (metadata sir) in
  if lt lod (Fin 100) || gt lod (Fin 500) then Some "Invalid LOD level" else None.

(** What [translateSIRToCode] resolves to. *)
Inductive translation :=
| Translated (code : string) (metadata : executionMetadata) (sections : codeSections)
| NotTranslated (error : string).

(** [translateSIRToCode(sir)]; [t1] is the clock reading of
    [generateImports], [t2] the one of [generateExecutionMetadata]. *)
Definition translateSIRToCode (sir : SIR) (t1 t2 : Z) : translation :=
  match validateSIR sir with
  | Some error => NotTranslated error
  | None =>
      let codeSections := generateSections sir t1 in
      let fullCode := combineCodeSections codeSections in
      let optimizedCode := applyPerformanceOptimizations fullCode sir in
      Translated optimizedCode (generateExecutionMetadata sir optimizedCode t2) codeSections
  end.

(** The code of a translation, when there is one. *)
Definition code_of (t : translation) : option string :=
  match t with Translated code _ _ => Some code | NotTranslated _ => None end.
Definition metadata_of (t : translation) : option executionMetadata :=
  match t with Translated _ m _ => Some m | NotTranslated _ => None end.

End Emitter.

(** *** Samples *)

(** A box at LOD 300, all of whose numbers are integers. *)
Definition box : SIR :=
  {| metadata := {| familyName := "Box"; category := "Furniture";
                    description := Some "A box";
                    lodLevel := Fin 300; isHosted := false; hostingType := None |};
     geometry :=
       {| extrusions :=
            Some [{| ext_name := "Body";
                     profile := Some [{| p2_x := Fin 0; p2_y := Fin 0 |};
                                      {| p2_x := Fin 2; p2_y := Fin 0 |};
                                      {| p2_x := Fin 2; p2_y := Fin 3 |}];
                     startPoint := {| x := Fin 0; y := Fin 0; z := Fin 0 |};
                     endPoint := {| x := Fin 2; y := Fin 3; z := Fin 1 |};
                     ext_material := None |}];
          referencePlanes := None; constraints := None |};
     params := {| familyParameters :=
                    Some [{| param_name := "Width"; param_type := "Length";
                             defaultValue := Some (VNum (Fin 2)); isInstance := true;
                             param_group := None; formula := None |}];
                  familyTypes := None |};
     top_constraints := [];
     materials := None;
     visibility := None;
     visibility_settings := None |}.

(** The same box at LOD 200. *)
Definition coarse_box : SIR :=
  {| metadata := {| familyName := "Box"; category := "Furniture";
                    description := Some "A box";
                    lodLevel := Fin 200; isHosted := false; hostingType := None |};
     geometry := geometry box; params := params box; top_constraints := [];
     materials := None; visibility := None; visibility_settings := None |}.

(** The printer of fractions for a SIR that has none. *)
Definition no_fraction (q : Q) : string := EmptyString.

(** *** The head of the generated code *)

(** The lines before the comments of [generateImports], with their line
    feeds. *)
Definition preamble : string :=
  join nl
    [ "import clr";
      "clr.AddReference(" ++ quoted "RevitAPI" ++ ")";
      "clr.AddReference(" ++ quoted "RevitServices" ++ ")";
      "clr.AddReference(" ++ quoted "RevitNodes" ++ ")";
      EmptyString;
      "from Autodesk.Revit.DB import *";
      "from Autodesk.Revit.DB.Structure import *";
      "from Autodesk.Revit.UI import *";
      "from RevitServices.Persistence import DocumentManager";
      "from RevitServices.Transactions import TransactionManager";
      EmptyString;
      EmptyString ].

(** The lines of [generateImports] after the time stamp. *)
Definition imports_tail (sir : SIR) : string :=
  let cat := category (metadata sir) in
  join nl
    (List.concat
       [[ "# Family: " ++ familyName (metadata sir); EmptyString ];
        (if String.eqb cat "Doors" then ["from Autodesk.Revit.DB.Architecture import *"]
         else if String.eqb cat "Windows" then ["from Autodesk.Revit.DB.Architecture import *"]
         else if includes cat "Structural" then ["from Autodesk.Revit.DB.Structure import *"]
         else [])]).

(** The sections after the imports, combined. *)
Definition combined_rest (s : codeSections) : string :=
  join (nl ++ nl)
    [ familySetup s; s_referencePlanes s; s_parameters s; s_geometry s;
      s_constraints s; s_materials s; s_familyTypes s; s_visibility s; validation s ].

(** The code from its beginning to the time stamp. *)
Definition stamp_prefix : string :=
  preamble ++ "# BIM-LLM Generated Code" ++ nl ++ "# Generated at: ".

(** The code from its beginning to the line feed of the comment that holds
    the time stamp [stamp], followed by [tail]. *)
Definition headed (stamp tail : string) : string :=
  preamble ++ "# " ++ "BIM-LLM Generated Code" ++ nl
    ++ "# " ++ ("Generated at: " ++ stamp) ++ nl ++ tail.

End SIRToCodeInterpreter.

(** ** The SIR-to-backend parameter mapping ([convertSIRToAPSParams]) *)
Module Backend.
Import JsString JsNumber Sir.

Record windowType := {
  TypeName : string;
  WindowWidth : jsval;
  WindowHeight : jsval;
  WindowInset : number;
  WindowSillHeight : number
}.

Record windowParams := {
  WindowStyle : string;
  GlassPaneMaterial : string;
  SashMaterial : string;
  WindowFamilyName : string;
  Types : list windowType
}.

Record apsParams := {
  FileName : string;
  FamilyType : Z;
  WindowParams : windowParams
}.

(** [v || d] on an optional value. *)
Definition value_or (o : option jsval) (d : jsval) : jsval :=
  match o with
  | Some v => if val_truthy v then v else d
  | None => d
  end.

(** The width and the height read from the profile of the main extrusion:
    [None] when reading [profile[1].x] or [profile[2].y] throws, that is
    when the profile has fewer than three points. *)
Definition main_extrusion_size (e : extrusion) : option (number * number) :=
  match profile e with
  | None => Some (Fin 200, Fin 1100)
  | Some (p0 :: p1 :: p2 :: _) =>
      Some (abs (sub (p2_x p1) (p2_x p0)), abs (sub (p2_y p2) (p2_y p0)))
  | Some _ => None
  end.

(** The window type number: [None] when computing it throws. *)
Definition detect_windowType (category : string) (sir : SIR) : option Z :=
  if includes (toLowerCase category) "door" then Some 1%Z
  else if includes (toLowerCase category) "window" then
    match list_or_empty (extrusions (geometry sir)) with
    | mainExtrusion :: _ =>
        match main_extrusion_size mainExtrusion with
        | Some _ => Some 1%Z
        | None => None
        end
    | [] => Some 1%Z
    end
  else Some 1%Z.

Definition windowStyleName (windowType : Z) : string :=
  if (windowType =? 1)%Z then "DoubleHungWindow"
  else if (windowType =? 2)%Z then "SlidingDoubleWindow"
  else if (windowType =? 3)%Z then "FixedWindow"
  else "DoubleHungWindow".

(** [materials.find(pred)?.name || 'Default'] *)
Definition material_named (pred : string -> bool) (ms : list material) : string :=
  match List.find (fun m => pred (toLowerCase (mat_name m))) ms with
  | Some m => if JsString.truthy (mat_name m) then mat_name m else "Default"
  | None => "Default"
  end.

(** [familyParameters.find(p => p.name.toLowerCase().includes(key))?.defaultValue || d] *)
Definition dimension (key : string) (d : jsval) (ps : list familyParameter) : jsval :=
  match List.find (fun p => includes (toLowerCase (param_name p)) key) ps with
  | Some p => value_or (defaultValue p) d
  | None => d
  end.

(** The parameters returned by the [catch] block. *)
Definition defaultParams : apsParams :=
  {| FileName := "Generated Family.rfa";
     FamilyType := 1;
     WindowParams :=
       {| WindowStyle := "DoubleHungWindow";
          GlassPaneMaterial := "Default";
          SashMaterial := "Default";
          WindowFamilyName := "Generated Family.rfa";
          Types := [{| TypeName := "Type 1";
                       WindowWidth := VNum (Fin 2);
                       WindowHeight := VNum (Fin 4);
                       WindowInset := Fin 0.05;
                       WindowSillHeight := Fin 3 |}] |} |}.

(** The [try] block: [None] when it throws. *)
Definition convert_body (sir : SIR) : option apsParams :=
  let familyName := if JsString.truthy (familyName (metadata sir))
                    then familyName (metadata sir) else "Generated Family" in
  let category := if JsString.truthy (category (metadata sir))
                  then category (metadata sir) else "Generic" in
  match detect_windowType category sir with
  | None => None
  | Some windowType =>
      let materials := list_or_empty (materials sir) in
      let glassPaneMaterial := material_named (fun n => includes n "glass") materials in
      let sashMaterial :=
        material_named (fun n => includes n "sash" || includes n "frame") materials in
      let familyParameters := list_or_empty (familyParameters (params sir)) in
      let widthParam := dimension "width" (VNum (Fin 200)) familyParameters in
      let heightParam := dimension "height" (VNum (Fin 1100)) familyParameters in
      Some {| FileName := familyName ++ ".rfa";
              FamilyType := 1;
              WindowParams :=
                {| WindowStyle := windowStyleName windowType;
                   GlassPaneMaterial := glassPaneMaterial;
                   SashMaterial := sashMaterial;
                   WindowFamilyName := familyName ++ ".rfa";
                   Types := [{| TypeName := "Type 1";
                                WindowWidth := widthParam;
                                WindowHeight := heightParam;
                                WindowInset := Fin 0.05;
                                WindowSillHeight := Fin 3 |}] |} |}
  end.

(** [convertSIRToAPSParams(sir)] *)
Definition convertSIRToAPSParams (sir : SIR) : apsParams :=
  default defaultParams (convert_body sir).

(** The width and the height submitted, those of the only entry of
    [Types]. *)
Definition submitted_width (p : apsParams) : option jsval :=
  WindowWidth <$> head (Types (WindowParams p)).
Definition submitted_height (p : apsParams) : option jsval :=
  WindowHeight <$> head (Types (WindowParams p)).

(** [n || d] on a number: [0] and [NaN] give way to [d]. *)
Definition number_or (n : number) (d : Q) : number :=
  if JsNumber.truthy n then n else Fin d.

(** *** Samples *)

(** A SIR whose only family parameter is a depth: no name contains width or
    height. *)
Definition shelf : SIR :=
  {| metadata := {| familyName := "Shelf"; category := "Furniture";
                    description := Some "A wall shelf";
                    lodLevel := Fin 200; isHosted := false; hostingType := None |};
     geometry := {| extrusions := None; referencePlanes := None; constraints := None |};
     params := {| familyParameters :=
                    Some [{| param_name := "Depth"; param_type := "Length";
                             defaultValue := Some (VNum (Fin 1)); isInstance := true;
                             param_group := None; formula := None |}];
                  familyTypes := None |};
     top_constraints := [];
     materials := None;
     visibility := None;
     visibility_settings := None |}.

End Backend.

(** ** The job tracker (routes of the API) *)
Module Tracker.
Import JsString JsNumber.
Local Open Scope Q_scope.

(** A record of [workitemQueue]. [lastChecked] and [apsStatusData] are
    absent until a poll writes them. *)
Record workitem := {
  id : string;
  status : string;
  createdAt : Z;
  params : Backend.apsParams;
  apsParams : Backend.apsParams;
  progress : Q;
  message : string;
  estimatedTime : string;
  isRealAPS : bool;
  bucketKey : string;
  outputObjectKey : string;
  lastChecked : option Z;
  apsStatusData : option (option string)
}.

(** [s.split(sep)] for a separator of one character. *)
Fixpoint split_on (sep : ascii) (cur : string) (s : string) : list string :=
  match s with
  | EmptyString => [Regex.rev_string EmptyString cur]
  | String ch rest =>
      if Ascii.eqb ch sep then Regex.rev_string EmptyString cur :: split_on sep EmptyString rest
      else split_on sep (String ch cur) rest
  end.

(** *** Submission: [createFamilyWithAPS] *)

(** [targetFolder] as the route hands it over: a string, or another truthy
    value of the request body (a number, [true], an array, an object),
    which has no [split]. *)
Inductive target :=
| TargetString (s : string)
| TargetOther.

(** A thrown value, an object or a primitive other than [null] and
    [undefined]: [statusCode] and [message] may be absent. *)
Record js_error := {
  statusCode : option Z;
  err_message : option string
}.

(** [familyCreatedRes] of the real backend. *)
Record created_body := {
  body_id : string;
  body_status : string;
  body_bucketKey : string;
  body_outputObjectKey : string
}.
Record created_response := {
  res_statusCode : Z;
  res_body : created_body
}.

(** What the [try] block around the real submission observes: the call of
    the backend returns (possibly nothing), or something in the block throws
    (obtaining the token, the call itself, or reading the identifier of an
    answer 200 that has no body). *)
Inductive submit_outcome :=
| Returned (res : option created_response)
| Raised (e : js_error).

(** What the branch for a folder of BIM 360 observes, in the order of its
    calls: obtaining the token or creating the storage throws (a storage
    that is not an object throws when its [StorageId] is read), or the
    storage is there and the submission, when it is made, has the given
    outcome. *)
Inductive folder_calls :=
| SetupRaised (e : js_error)
| SetupDone (submission : submit_outcome).

(** The value [createFamilyWithAPS] resolves to; the [error] of a failure
    is the [message] of what was thrown, which may be absent. *)
Inductive create_result :=
| Created (workItemId : string) (workItemStatus : string)
| NotCreated (error : option string).

Definition not_configured_message : string :=
  "AppBundle and Activity not configured. Please go to the main page and click "
    ++ dq ++ "Configure" ++ dq ++ " to set up the AppBundle and Activity first.".

(** How the inner [catch] reads an error:
    [error.statusCode === 400 || error.message.includes('400')].
    Reading [includes] of an absent message throws in turn. *)
Inductive error_class :=
| ConfigurationError
| OtherError
| UnreadableError.

Definition classify (e : js_error) : error_class :=
  if bool_decide (statusCode e = Some 400%Z) then ConfigurationError
  else match err_message e with
       | Some m => if includes m "400" then ConfigurationError else OtherError
       | None => UnreadableError
       end.

(** The record of a job of the real backend. *)
Definition real_workitem (p : Backend.apsParams) (body : created_body) (now : Z) : workitem :=
  {| id := body_id body; status := "submitted"; createdAt := now;
     params := p; apsParams := p; progress := 0;
     message := "Workitem submitted to APS Design Automation";
     estimatedTime := "2-3 minutes"; isRealAPS := true;
     bucketKey := body_bucketKey body; outputObjectKey := body_outputObjectKey body;
     lastChecked := None; apsStatusData := None |}.

(** The identifier and the record of a simulated job. *)
Definition simulated_id (t_id : Z) (random : string) : string :=
  "aps_" ++ pretty t_id ++ "_" ++ random.

Definition simulated_workitem (p : Backend.apsParams) (workitemId : string) (now : Z) : workitem :=
  {| id := workitemId; status := "submitted"; createdAt := now;
     params := p; apsParams := p; progress := 0;
     message := "Workitem submitted to APS Design Automation";
     estimatedTime := "15 seconds"; isRealAPS := true;
     bucketKey := "temp-bucket-" ++ workitemId;
     outputObjectKey := "temp-object-" ++ workitemId;
     lastChecked := None; apsStatusData := None |}.

(** The inner [catch]: a configuration error is thrown again with an
    explanation, any other error starts a simulated job. *)
Definition recover (p : Backend.apsParams) (t_id t_created : Z) (random : string) (e : js_error)
           (queue : gmap string workitem) : create_result * gmap string workitem :=
  match classify e with
  | ConfigurationError => (NotCreated (Some not_configured_message), queue)
  | UnreadableError =>
      (NotCreated (Some "Cannot read properties of undefined (reading 'includes')"), queue)
  | OtherError =>
      let workitemId := simulated_id t_id random in
      (Created workitemId "submitted",
       <[workitemId := simulated_workitem p workitemId t_created]> queue)
  end.

(** The branch [targetFolder === 'local']. [t_id] is the reading of
    [Date.now()] and [t_created] the one of [new Date()]; [random] is the
    suffix drawn with [Math.random()]. *)
Definition createFamilyLocal (p : Backend.apsParams) (t_id t_created : Z) (random : string)
           (backend : submit_outcome) (queue : gmap string workitem)
  : create_result * gmap string workitem :=
  match backend with
  | Returned (Some res) =>
      if (res_statusCode res =? 200)%Z then
        (Created (body_id (res_body res)) (body_status (res_body res)),
         <[body_id (res_body res) := real_workitem p (res_body res) t_created]> queue)
      else
        recover p t_id t_created random
          {| statusCode := None; err_message := Some "Failed to create Revit family file" |}
          queue
  | Returned None =>
      recover p t_id t_created random
        {| statusCode := None; err_message := Some "Failed to create Revit family file" |}
        queue
  | Raised e => recover p t_id t_created random e queue
  end.

(** The branch of the other targets: a folder of BIM 360, given by its
    URL. Nothing is written to the queue, and whatever is thrown reaches the
    outer [catch]. *)
Definition createFamilyInFolder (p : Backend.apsParams) (targetFolder : string)
           (folder : folder_calls) : create_result :=
  let destinateFolderParams := split_on "/" EmptyString targetFolder in
  let n := length destinateFolderParams in
  if (n <? 3)%nat then NotCreated (Some "Invalid target folder URL format")
  else if negb (String.eqb (nth (n - 2) destinateFolderParams EmptyString) "folders")
  then NotCreated (Some "Target must be a folder")
  else
    match folder with
    | SetupRaised e => NotCreated (err_message e)
    | SetupDone submission =>
        if (Backend.FamilyType p =? 1)%Z then
          match Backend.Types (Backend.WindowParams p) with
          | [] => NotCreated (Some "Invalid window parameters")
          | _ :: _ =>
              match submission with
              | Raised e => NotCreated (err_message e)
              | Returned None => NotCreated (Some "Failed to create Revit family file")
              | Returned (Some res) =>
                  if (res_statusCode res =? 200)%Z
                  then Created (body_id (res_body res)) (body_status (res_body res))
                  else NotCreated (Some "Failed to create Revit family file")
              end
          end
        else NotCreated (Some "Unsupported family type")
    end.

(** [createFamilyWithAPS(params, targetFolder, oauthToken)]. [backend] is
    what the local branch observes and [folder] what the other one does. *)
Definition createFamilyWithAPS (p : Backend.apsParams) (targetFolder : target)
           (t_id t_created : Z) (random : string)
           (backend : submit_outcome) (folder : folder_calls) (queue : gmap string workitem)
  : create_result * gmap string workitem :=
  match targetFolder with
  | TargetString s =>
      if String.eqb s "local" then createFamilyLocal p t_id t_created random backend queue
      else (createFamilyInFolder p s folder, queue)
  | TargetOther => (NotCreated (Some "targetFolder.split is not a function"), queue)
  end.

(** *** Progress *)

(** [getProgressFromStatus(status)]; [None] is [undefined]. *)
Definition getProgressFromStatus (status : option string) : Q :=
  match status with
  | Some s =>
      if String.eqb s "pending" then 10
      else if String.eqb s "inprogress" then 50
      else if String.eqb s "success" then 100
      else if String.eqb s "failed" then 0
      else if String.eqb s "cancelled" then 0
      else 25
  | None => 25
  end.

(** [getProgressFromAPSStatus(status)] *)
Definition getProgressFromAPSStatus (status : option string) : Q :=
  match status with
  | Some s =>
      if String.eqb s "pending" then 10
      else if String.eqb s "inprogress" then 50
      else if String.eqb s "success" then 100
      else if String.eqb s "failed" then 0
      else if String.eqb s "cancelled" then 0
      else 25
  | None => 25
  end.

Definition getMessageFromStatus (status : option string) : string :=
  match status with
  | Some s =>
      if String.eqb s "pending" then "Workitem is queued for processing..."
      else if String.eqb s "inprogress" then "Family is being created in Revit..."
      else if String.eqb s "success" then "Family creation completed successfully!"
      else if String.eqb s "failed" then "Family creation failed. Please try again."
      else if String.eqb s "cancelled" then "Family creation was cancelled."
      else "Processing..."
  | None => "Processing..."
  end.

Definition getMessageFromAPSStatus : option string -> string := getMessageFromStatus.

(** [getEstimatedTime(status)] and [getEstimatedTimeFromAPSStatus(status)] *)
Definition getEstimatedTime (status : option string) : string :=
  match status with
  | Some s =>
      if String.eqb s "pending" then "3-5 minutes"
      else if String.eqb s "inprogress" then "1-2 minutes"
      else if String.eqb s "success" then "Complete"
      else if String.eqb s "failed" then "N/A"
      else if String.eqb s "cancelled" then "N/A"
      else "2-3 minutes"
  | None => "2-3 minutes"
  end.

Definition getEstimatedTimeFromAPSStatus : option string -> string := getEstimatedTime.

(** The state of a simulated job. *)
Record simulated := {
  sim_status : string;
  sim_progress : Q;
  sim_message : string;
  sim_estimatedTimeRemaining : string
}.

Definition totalSimulatedTime : Q := 15.

(** [`${Math.max(1, Math.ceil(totalSimulatedTime - elapsedTime))} seconds`] *)
Definition remaining (elapsedTime : Q) : string :=
  pretty (Z.max 1 (Qceiling (totalSimulatedTime - elapsedTime))) ++ " seconds".

(** The state of a simulated job [elapsedTime] seconds after its creation
    (the branch of the status routes for identifiers that start with
    [aps_]). The expressions are evaluated on the rationals. The code
    evaluates them in binary64: the status is the same, since a number of
    whole milliseconds divided by 1000 is never rounded across 3, 8 or 15,
    and the progress differs by the rounding of the operations
    (13.499999999999998 where this definition has 13.5, at 2.025 s):
    [simulated_status64] below is that evaluation. The statements that give
    a value of a ramp therefore give it within [close]. *)
Definition simulated_status (elapsedTime : Q) : simulated :=
  if Qltb elapsedTime 3 then
    {| sim_status := "submitted";
       sim_progress := Qmin 25 ((elapsedTime / totalSimulatedTime) * 100);
       sim_message := "Workitem submitted to APS Design Automation";
       sim_estimatedTimeRemaining := remaining elapsedTime |}
  else if Qltb elapsedTime 8 then
    {| sim_status := "inprogress";
       sim_progress := Qmin 75 (25 + ((elapsedTime - 3) / (totalSimulatedTime - 3)) * 50);
       sim_message := "Creating Revit family file...";
       sim_estimatedTimeRemaining := remaining elapsedTime |}
  else if Qltb elapsedTime totalSimulatedTime then
    {| sim_status := "inprogress";
       sim_progress := Qmin 95 (75 + ((elapsedTime - 8) / (totalSimulatedTime - 8)) * 20);
       sim_message := "Finalizing family file...";
       sim_estimatedTimeRemaining := remaining elapsedTime |}
  else
    {| sim_status := "success";
       sim_progress := 100;
       sim_message := "Family creation completed successfully";
       sim_estimatedTimeRemaining := "0 seconds" |}.

(** [(new Date() - createdAt) / 1000]: seconds, from two clock readings. *)
Definition elapsed_seconds (now created : Z) : Q := inject_Z (now - created) / 1000.

(** The status and the progress of [simulated_status] as the code computes
    them from two clock readings: the same expressions, with the result of
    every operation rounded to binary64. *)
Definition simulated_status64 (now created : Z) : string * number :=
  let elapsedTime :=
    rounded (div_const (rounded (Fin (inject_Z (now - created)))) 1000) in
  if lt elapsedTime (Fin 3) then
    ("submitted",
     math_min (Fin 25) (rounded (mul (rounded (div_const elapsedTime 15)) (Fin 100))))
  else if lt elapsedTime (Fin 8) then
    ("inprogress",
     math_min (Fin 75)
       (rounded (add (Fin 25)
          (rounded (mul (rounded (div_const (rounded (sub elapsedTime (Fin 3))) 12))
                      (Fin 50))))))
  else if lt elapsedTime (Fin 15) then
    ("inprogress",
     math_min (Fin 95)
       (rounded (add (Fin 75)
          (rounded (mul (rounded (div_const (rounded (sub elapsedTime (Fin 8))) 7))
                      (Fin 20))))))
  else ("success", Fin 100).

(** The mutation of the record by a poll of a simulated job. *)
Definition checked (w : workitem) (s : simulated) (now : Z) : workitem :=
  {| id := id w; status := sim_status s; createdAt := createdAt w;
     params := params w; apsParams := apsParams w; progress := sim_progress s;
     message := sim_message s; estimatedTime := estimatedTime w;
     isRealAPS := isRealAPS w; bucketKey := bucketKey w;
     outputObjectKey := outputObjectKey w; lastChecked := Some now;
     apsStatusData := apsStatusData w |}.

(** The body of a status response. *)
Record status_response := {
  r_workitemId : string;
  r_status : option string;
  r_progress : Q;
  r_message : string;
  r_estimatedTimeRemaining : string;
  r_timestamp : string;
  r_isSimulated : bool;
  r_isRealAPS : bool;
  r_downloadUrl : option string
}.

Inductive http :=
| Json200 (body : status_response)
| Json404 (error : string)
| Json500 (error : string).

(** Three readings of the clock in one request: for the elapsed time, for
    [lastChecked] and for the time stamp of the response. *)
Record clock := { t_elapsed : Z; t_checked : Z; t_stamp : Z }.

(** The branch [workitemId.startsWith('aps_')] of
    [GET /status/:workitemId]. *)
Definition poll_simulated (c : clock) (workitemId : string) (queue : gmap string workitem)
  : http * gmap string workitem :=
  match queue !! workitemId with
  | None => (Json404 "Workitem not found", queue)
  | Some workitemData =>
      let s := simulated_status (elapsed_seconds (t_elapsed c) (createdAt workitemData)) in
      (Json200 {| r_workitemId := workitemId; r_status := Some (sim_status s);
                  r_progress := sim_progress s; r_message := sim_message s;
                  r_estimatedTimeRemaining := sim_estimatedTimeRemaining s;
                  r_timestamp := Clock.toISOString (t_stamp c);
                  r_isSimulated := true; r_isRealAPS := false; r_downloadUrl := None |},
       <[workitemId := checked workitemData s (t_checked c)]> queue)
  end.

(** The same branch of [GET /v1/status/:workitemId]; its response has no
    time stamp. *)
Record v1_response := {
  v1_status : string;
  v1_progress : Q;
  v1_message : string;
  v1_estimatedTimeRemaining : string;
  v1_workitemId : string
}.

Inductive v1_http :=
| V1Json200 (body : v1_response)
| V1Json404 (error : string).

Definition poll_simulated_v1 (c : clock) (workitemId : string) (queue : gmap string workitem)
  : v1_http * gmap string workitem :=
  match queue !! workitemId with
  | None => (V1Json404 "Workitem not found", queue)
  | Some workitemData =>
      let s := simulated_status (elapsed_seconds (t_elapsed c) (createdAt workitemData)) in
      (V1Json200 {| v1_status := sim_status s; v1_progress := sim_progress s;
                    v1_message := sim_message s;
                    v1_estimatedTimeRemaining := sim_estimatedTimeRemaining s;
                    v1_workitemId := workitemId |},
       <[workitemId := checked workitemData s (t_checked c)]> queue)
  end.

(** *** The other branches of [GET /status/:workitemId] *)

(** The creation time that the identifier [workitem_<time>_<suffix>] of a
    job of the first simulation carries: [parseInt(workitemId.split('_')[1])]. *)
Definition workitemTime (workitemId : string) : number :=
  match split_on "_" EmptyString workitemId with
  | _ :: piece :: _ => parseInt piece
  | _ => NaN
  end.

(** [(Date.now() - workitemTime) / (1000 * 60)]. Both times are whole
    numbers of milliseconds, so rounding the difference and the quotient
    does not change the comparisons of the quotient with 0.5, 1.5 and 3. *)
Definition elapsedMinutes (now : Z) (workitemId : string) : number :=
  div_const (sub (Fin (inject_Z now)) (workitemTime workitemId)) (1000 * 60).

(** The state of a job of the first simulation. *)
Definition legacy_status (now : Z) (workitemId : string) : simulated :=
  let elapsedMinutes := elapsedMinutes now workitemId in
  let s :=
    {| sim_status := "pending"; sim_progress := 25;
       sim_message := "Family creation queued...";
       sim_estimatedTimeRemaining := "3-4 minutes" |} in
  let s :=
    if gt elapsedMinutes (Fin 0.5) then
      {| sim_status := "inprogress"; sim_progress := 50;
         sim_message := "Family is being created in the cloud...";
         sim_estimatedTimeRemaining := "2-3 minutes" |}
    else s in
  let s :=
    if gt elapsedMinutes (Fin 1.5) then
      {| sim_status := "inprogress"; sim_progress := 75;
         sim_message := "Finalizing family parameters...";
         sim_estimatedTimeRemaining := "1-2 minutes" |}
    else s in
  if gt elapsedMinutes (Fin 3) then
    {| sim_status := "success"; sim_progress := 100;
       sim_message := "Family creation completed!";
       sim_estimatedTimeRemaining := "0 minutes" |}
  else s.

(** The answer of [getWorkitemStatus] of the real backend: its [body]
    ([None] when falsy) with the [status] of the body ([None] when
    undefined), or an error. *)
Inductive status_call :=
| StatusReturned (body : option (option string))
| StatusRejected.

(** The answer of the request for a job that the queue does not know as a
    job of the real backend. *)
Record fetched := {
  ok : bool;
  http_status : Z;
  statusText : string;
  result_status : option string;
  reportUrl : option string
}.
Inductive fetch_call :=
| Fetched (response : fetched)
| FetchRejected (message : string).

(** [s || 'unknown'] *)
Definition or_unknown (o : option string) : string :=
  match o with
  | Some s => if JsString.truthy s then s else "unknown"
  | None => "unknown"
  end.

Definition status_body (workitemId : string) (st : option string) (p : Q) (m e : string)
           (stamp : Z) (sim real : bool) (url : option string) : status_response :=
  {| r_workitemId := workitemId; r_status := st; r_progress := p; r_message := m;
     r_estimatedTimeRemaining := e; r_timestamp := Clock.toISOString stamp;
     r_isSimulated := sim; r_isRealAPS := real; r_downloadUrl := url |}.

(** The branch of a job that the queue knows as a job of the real
    backend. *)
Definition poll_real (c : clock) (call : status_call) (workitemId : string) (w : workitem)
           (queue : gmap string workitem) : http * gmap string workitem :=
  match call with
  | StatusReturned (Some st) =>
      (Json200 (status_body workitemId st (getProgressFromAPSStatus st)
                  (getMessageFromAPSStatus st) (getEstimatedTimeFromAPSStatus st)
                  (t_stamp c) false true None),
       <[workitemId :=
           {| id := id w; status := or_unknown st; createdAt := createdAt w;
              params := params w; apsParams := apsParams w; progress := progress w;
              message := message w; estimatedTime := estimatedTime w;
              isRealAPS := isRealAPS w; bucketKey := bucketKey w;
              outputObjectKey := outputObjectKey w; lastChecked := Some (t_checked c);
              apsStatusData := Some st |}]> queue)
  | StatusReturned None =>
      (Json200 (status_body workitemId (Some "unknown")
                  (getProgressFromAPSStatus (Some "unknown"))
                  (getMessageFromAPSStatus (Some "unknown"))
                  (getEstimatedTimeFromAPSStatus (Some "unknown"))
                  (t_stamp c) false true None),
       queue)
  | StatusRejected =>
      (Json200 (status_body workitemId (Some "unknown") 50 "Checking status..."
                  "2-3 minutes" (t_stamp c) false true None),
       queue)
  end.

(** The last branch: the status is asked of the backend directly. *)
Definition poll_unknown (c : clock) (call : fetch_call) (workitemId : string) : http :=
  match call with
  | FetchRejected m => Json500 m
  | Fetched r =>
      if ok r then
        Json200 (status_body workitemId (Some (or_unknown (result_status r)))
                   (getProgressFromStatus (result_status r))
                   (getMessageFromStatus (result_status r))
                   (getEstimatedTime (result_status r))
                   (t_stamp c) false false
                   (if bool_decide (result_status r = Some "success")
                    then match reportUrl r with
                         | Some u => if JsString.truthy u then Some u else None
                         | None => None
                         end
                    else None))
      else Json500 ("APS API error: " ++ pretty (http_status r) ++ " " ++ statusText r)
  end.

(** [GET /status/:workitemId] *)
Definition status_route (c : clock) (real : status_call) (direct : fetch_call)
           (workitemId : string) (queue : gmap string workitem)
  : http * gmap string workitem :=
  if startsWith workitemId "workitem_" then
    let s := legacy_status (t_elapsed c) workitemId in
    (Json200 (status_body workitemId (Some (sim_status s)) (sim_progress s) (sim_message s)
                (sim_estimatedTimeRemaining s) (t_stamp c) true false None),
     queue)
  else if startsWith workitemId "aps_" then poll_simulated c workitemId queue
  else
    match queue !! workitemId with
    | Some w =>
        if isRealAPS w then poll_real c real workitemId w queue
        else (poll_unknown c direct workitemId, queue)
    | None => (poll_unknown c direct workitemId, queue)
    end.

(** The queue after a poll, and after a sequence of polls of one job; a
    request is the clock readings and the answers of the backend. *)
Definition poll (request : clock * status_call * fetch_call) (workitemId : string)
           (queue : gmap string workitem) : gmap string workitem :=
  let '(c, real, direct) := request in
  snd (status_route c real direct workitemId queue).

Definition polled (requests : list (clock * status_call * fetch_call)) (workitemId : string)
           (queue : gmap string workitem) : gmap string workitem :=
  List.fold_left (fun q request => poll request workitemId q) requests queue.

(** The fields of a record that no poll of a simulated job writes. *)
Definition unchanged (w w' : workitem) : Prop :=
  id w' = id w /\ createdAt w' = createdAt w /\ params w' = params w
  /\ apsParams w' = apsParams w /\ estimatedTime w' = estimatedTime w
  /\ isRealAPS w' = isRealAPS w /\ bucketKey w' = bucketKey w
  /\ outputObjectKey w' = outputObjectKey w /\ apsStatusData w' = apsStatusData w.

(** The progress reported by a response. *)
Definition reported (r : http) : option (option string * Q) :=
  match r with
  | Json200 b => Some (r_status b, r_progress b)
  | _ => None
  end.

(** *** Downloads *)

(** The text served for a job of the first simulation. *)
Definition demoRfaContent (workitemId : string) : string :=
  join nl
    ["# Demo RFA File Content";
     "# This is a simulated Revit Family file";
     "# Generated by BIM-LLM Blueprint System";
     "# Workitem ID: " ++ workitemId;
     "# ";
     "# In a real implementation, this would be an actual .rfa file";
     "# generated by the Revit API through APS Design Automation";
     "#";
     "# Family: Demo Family";
     "# Category: Generic";
     "# Parameters: Width, Height, Material";
     "# LOD Level: 200";
     "#";
     "# This file demonstrates the BIM-LLM Blueprint's capability";
     "# to generate parametric Revit families from natural language."].

Section Download.
(** [generateRFAFile(params)] and the length of the buffer it returns. *)
Variable buffer : Type.
Variable generateRFAFile : Backend.apsParams -> buffer.
Variable byteLength : buffer -> nat.

(** What a download route answers: a file as an attachment, an error, or
    what the real backend provides (the branches that ask it are not
    modelled further). *)
Inductive download :=
| SendText (filename content : string)
| SendFile (filename : string) (contentLength : nat) (content : buffer)
| Refused (code : Z) (error : string) (status : option string)
| FromBackend.

(** [params.FileName || 'Generated Window.rfa'] *)
Definition attachment_name (p : Backend.apsParams) : string :=
  if JsString.truthy (Backend.FileName p) then Backend.FileName p
  else "Generated Window.rfa".

(** The file of a simulated job. A record always has its [params]. *)
Definition simulated_file (w : workitem) : download :=
  let content := generateRFAFile (params w) in
  SendFile (attachment_name (params w)) (byteLength content) content.

(** [GET /download/:workitemId] *)
Definition download_route (workitemId : string) (queue : gmap string workitem) : download :=
  if startsWith workitemId "workitem_" then
    SendText ("demo_family_" ++ workitemId ++ ".rfa") (demoRfaContent workitemId)
  else if startsWith workitemId "aps_" then
    match queue !! workitemId with
    | None => Refused 404 "Workitem not found" None
    | Some workitemData => simulated_file workitemData
    end
  else FromBackend.

(** [GET /v1/download/:workitemId] *)
Definition download_route_v1 (workitemId : string) (queue : gmap string workitem) : download :=
  match queue !! workitemId with
  | None => Refused 404 "Workitem not found" None
  | Some workitemData =>
      if negb (String.eqb (status workitemData) "success") then
        Refused 400 "Workitem not completed successfully" (Some (status workitemData))
      else if startsWith workitemId "aps_" then simulated_file workitemData
      else FromBackend
  end.

End Download.

(** *** Samples *)

(** A queue with one simulated job, created at time 1000. *)
Definition sample_job : workitem :=
  simulated_workitem Backend.defaultParams "aps_1000_k3x9" 1000.
Definition sample_queue : gmap string workitem := {[ "aps_1000_k3x9" := sample_job ]}.
Definition at_time (t : Z) : clock := {| t_elapsed := t; t_checked := t; t_stamp := t |}.

(** *** The progress rules, in words *)

(** The table of the progress by status: pending 10, inprogress 50, success
    100, failed 0, cancelled 0, and 25 for anything else, an absent status
    included. *)
Definition follows_table (status : option string) (progress : Q) : Prop :=
  (status = Some "pending" -> progress == 10)
  /\ (status = Some "inprogress" -> progress == 50)
  /\ (status = Some "success" -> progress == 100)
  /\ (status = Some "failed" -> progress == 0)
  /\ (status = Some "cancelled" -> progress == 0)
  /\ (~ In status [Some "pending"; Some "inprogress"; Some "success"; Some "failed";
                   Some "cancelled"] -> progress == 25).

(** Equal up to the rounding of binary64 arithmetic: the simulation
    computes on values below 100, where three rounded operations stay far
    within this distance of the exact result. *)
Definition close (a b : Q) : Prop := Qabs (a - b) <= 1 # 1000000000.


(** The progress that the specification of the tracker gives for a status
    and the seconds elapsed: from 5 to 20 over the first 30 seconds while
    submitted, from 20 to 90 over the next 120 seconds while in progress, 100
    on success. It says nothing for another status. *)
Definition claimed_progress (status : string) (elapsedSeconds : Q) : option Q :=
  if String.eqb status "submitted" then Some (Qmin 20 (5 + (elapsedSeconds / 30) * 15))
  else if String.eqb status "inprogress"
  then Some (Qmin 90 (20 + ((elapsedSeconds - 30) / 120) * 70))
  else if String.eqb status "success" then Some 100
  else None.

End Tracker.

(** ** The tracker of the browser ([trackWorkitem] of [public/js/famai.js]) *)
Module Client.
Import JsString JsNumber Tracker.
Local Open Scope Q_scope.

(** The two messages that the tracker adds to the chat: the one with the
    links to download and to view the family of a job, and the one that
    reports a failed creation. *)
Inductive chat_message :=
| CreationCompleted (workitemId : string)
| CreationFailed.

(** What the page shows: the class of the status indicator, the status
    text, whether the progress bar is displayed, its width in percent, the
    percentage written next to it, and the messages added to the chat. The
    elements of the page that hold them are assumed to exist. *)
Record ui := {
  indicator : string;
  statusText : string;
  progressDisplayed : bool;
  progressWidth : Q;
  progressText : Z;
  chat : list chat_message
}.

(** [Math.round(x)] *)
Definition round (x : Q) : Z := Qfloor (x + (1 # 2)).

(** [updateProgress(percentage)] *)
Definition updateProgress (percentage : Q) (u : ui) : ui :=
  {| indicator := indicator u; statusText := statusText u;
     progressDisplayed := true; progressWidth := percentage;
     progressText := round percentage; chat := chat u |}.

(** [updateStatus(status, message)] *)
Definition updateStatus (status message : string) (u : ui) : ui :=
  {| indicator := status; statusText := message;
     progressDisplayed := progressDisplayed u; progressWidth := progressWidth u;
     progressText := progressText u; chat := chat u |}.

(** [hideProgress()] *)
Definition hideProgress (u : ui) : ui :=
  {| indicator := indicator u; statusText := statusText u;
     progressDisplayed := false; progressWidth := progressWidth u;
     progressText := progressText u; chat := chat u |}.

(** [addMessageToChat('assistant', content)] *)
Definition addMessageToChat (m : chat_message) (u : ui) : ui :=
  {| indicator := indicator u; statusText := statusText u;
     progressDisplayed := progressDisplayed u; progressWidth := progressWidth u;
     progressText := progressText u; chat := (chat u ++ [m])%list |}.

(** The body of a response as the tracker reads it: [status], [progress]
    and [message]. The body of an error response has none of them. *)
Record body := {
  b_status : option string;
  b_progress : option Q;
  b_message : option string
}.

Definition body_of (r : http) : body :=
  match r with
  | Json200 b =>
      {| b_status := r_status b; b_progress := Some (r_progress b);
         b_message := Some (r_message b) |}
  | Json404 _ | Json500 _ =>
      {| b_status := None; b_progress := None; b_message := None |}
  end.

(** What [fetch] and [response.json()] give: a body, or an error. *)
Inductive reply :=
| Replied (b : body)
| NoReply.

(** [status.progress || 0] and [status.message || '...'] *)
Definition progress_or_zero (o : option Q) : Q :=
  match o with Some p => p | None => 0 end.
Definition message_or_default (o : option string) : string :=
  match o with
  | Some m => if JsString.truthy m then m else "Family creation in progress..."
  | None => "Family creation in progress..."
  end.

(** One run of [checkStatus]: the page after it, and whether another run
    is scheduled. *)
Definition checkStatus (workitemId : string) (r : reply) (u : ui) : ui * bool :=
  match r with
  | NoReply => (hideProgress (updateStatus "error" "Failed to check status" u), false)
  | Replied b =>
      let u := updateProgress (progress_or_zero (b_progress b)) u in
      let u := updateStatus "processing" (message_or_default (b_message b)) u in
      match b_status b with
      | Some st =>
          if String.eqb st "success" then
            (hideProgress
               (addMessageToChat (CreationCompleted workitemId)
                  (updateStatus "ready" "Family created successfully!" u)),
             false)
          else if String.eqb st "failed" then
            (hideProgress
               (addMessageToChat CreationFailed
                  (updateStatus "error" "Family creation failed" u)),
             false)
          else if String.eqb st "inprogress" || String.eqb st "pending"
                  || String.eqb st "submitted" then (u, true)
          else (u, false)
      | None => (u, false)
      end
  end.

(** [trackWorkitem(workitemId)] against the status route: one run of
    [checkStatus] for each request, as long as another run is scheduled.
    The result is the page, the queue of the server and whether the tracker
    is still polling when the requests are used up. *)
Fixpoint trackWorkitem (requests : list (clock * status_call * fetch_call))
         (workitemId : string) (queue : gmap string workitem) (u : ui)
  : ui * gmap string workitem * bool :=
  match requests with
  | [] => (u, queue, true)
  | (c, real, direct) :: rest =>
      let '(response, queue') := status_route c real direct workitemId queue in
      let '(u', again) := checkStatus workitemId (Replied (body_of response)) u in
      if again then trackWorkitem rest workitemId queue' u' else (u', queue', false)
  end.

(** The page when the tracking starts, with no message in the chat. *)
Definition idle : ui :=
  {| indicator := "processing"; statusText := "Family creation in progress...";
     progressDisplayed := false;
     progressWidth := 0; progressText := 0; chat := [] |}.

(** A queue with one job of the real backend. *)
Definition real_job : workitem :=
  real_workitem Backend.defaultParams
    {| body_id := "4f8a2c"; body_status := "pending"; body_bucketKey := "bucket";
       body_outputObjectKey := "family.rfa" |} 1000.
Definition real_queue : gmap string workitem := {[ "4f8a2c" := real_job ]}.

End Client.

(** * Properties *)

(** ** Strings *)
Module StringProperties.
Import JsString Regex.

Lemma prefix_cons (a b : ascii) (p s : string) :
  String.prefix (String a p) (String b s)
  = if Ascii.eqb a b then String.prefix p s else false.
Proof.
  change (String.prefix (String a p) (String b s))
    with (if Ascii.ascii_dec a b then String.prefix p s else false).
  destruct (Ascii.ascii_dec a b) as [->|H].
  - rewrite Ascii.eqb_refl. reflexivity.
  - apply Ascii.eqb_neq in H. rewrite H. reflexivity.
Qed.

Lemma prefix_append (p s : string) : String.prefix p (String.append p s) = true.
Proof.
  induction p as [|a p IH].
  - destruct s; reflexivity.
  - change (String.append (String a p) s) with (String a (String.append p s)).
    rewrite prefix_cons, Ascii.eqb_refl. exact IH.
Qed.

Lemma append_cons (ch : ascii) (a b : string) :
  String.append (String ch a) b = String ch (String.append a b).
Proof. reflexivity. Qed.

Lemma append_nil (b : string) : String.append EmptyString b = b.
Proof. reflexivity. Qed.

Lemma append_assoc (a b c : string) :
  String.append (String.append a b) c = String.append a (String.append b c).
Proof.
  induction a as [|ch a IH]; [reflexivity|]. rewrite !append_cons, IH. reflexivity.
Qed.

Lemma length_append (a b : string) :
  String.length (String.append a b) = (String.length a + String.length b)%nat.
Proof.
  induction a as [|ch a IH]; [reflexivity|]. rewrite append_cons. simpl. rewrite IH.
  reflexivity.
Qed.

Lemma drop_append (a s : string) : drop (String.length a) (String.append a s) = s.
Proof.
  induction a as [|ch a IH]; [reflexivity|]. exact IH.
Qed.

Lemma drop_drop (n m : nat) (s : string) : drop m (drop n s) = drop (n + m) s.
Proof.
  revert s. induction n as [|n IH]; intros s; [reflexivity|].
  destruct s as [|ch s]; simpl; [destruct m; reflexivity | apply IH].
Qed.

Lemma no_terminator_append (a b : string) :
  no_terminator (String.append a b) = no_terminator a && no_terminator b.
Proof.
  induction a as [|ch a IH]; [reflexivity|]. rewrite append_cons. simpl. rewrite IH.
  destruct (is_line_terminator ch); reflexivity.
Qed.

Lemma without_append (ch : ascii) (a b : string) :
  without ch (String.append a b) = without ch a && without ch b.
Proof.
  induction a as [|c a IH]; [reflexivity|]. rewrite append_cons. simpl. rewrite IH.
  destruct (Ascii.eqb ch c); reflexivity.
Qed.

End StringProperties.

(** ** The matcher on the patterns [/LITERAL.*\n/] *)
Module RegexProperties.
Import JsString Regex StringProperties.

Lemma clear_nil (cs : captures) : clear [] cs = cs.
Proof.
  induction cs as [|e cs IH]; [reflexivity|].
  unfold clear in *. simpl. f_equal. exact IH.
Qed.

(** A literal matches exactly when it is a prefix of what is left. *)
Lemma run_str (literal : string) :
  literal <> EmptyString ->
  forall c cs k,
    run (str literal) c cs k
    = if String.prefix literal (rest c)
      then k {| pos := String.length literal + pos c;
                rest := drop (String.length literal) (rest c) |} cs
      else None.
Proof.
  induction literal as [|a literal IH]; [congruence|]. intros _ c cs k.
  destruct literal as [|a' literal'].
  - simpl str. simpl run. destruct (rest c) as [|b s']; [reflexivity|].
    rewrite prefix_cons. destruct (Ascii.eqb a b); [|reflexivity].
    destruct s'; reflexivity.
  - change (str (String a (String a' literal')))
      with (Seq (Lit a) (str (String a' literal'))).
    simpl run. destruct (rest c) as [|b s'] eqn:E; [reflexivity|].
    rewrite prefix_cons. destruct (Ascii.eqb a b); [|reflexivity].
    rewrite IH by discriminate. simpl rest. simpl pos.
    destruct (String.prefix (String a' literal') s'); [|reflexivity].
    simpl String.length. rewrite Nat.add_succ_r. reflexivity.
Qed.

(** The rest of a line and its line feed: the greedy [.*] runs to the first
    line terminator, which must be a line feed; giving characters back never
    helps, since none of them is a line feed. *)
Lemma iterate_step (m : matcher) inner min max k fuel count c cs :
  iterate m inner min max k (S fuel) count c cs
  = match (if below count max then
             m c (clear inner cs)
               (fun c' cs' =>
                  if Nat.leb min count && Nat.eqb (pos c') (pos c) then None
                  else iterate m inner min max k fuel (S count) c' cs')
           else None) with
    | Some res => Some res
    | None => if Nat.leb min count then k c cs else None
    end.
Proof. reflexivity. Qed.

Lemma run_class p c cs k :
  run (Class p) c cs k
  = match rest c with
    | String b s' => if p b then k (step c s') cs else None
    | EmptyString => None
    end.
Proof. reflexivity. Qed.

Lemma run_lit a c cs k :
  run (Lit a) c cs k
  = match rest c with
    | String b s' => if Ascii.eqb a b then k (step c s') cs else None
    | EmptyString => None
    end.
Proof. reflexivity. Qed.

Lemma run_seq r1 r2 c cs k :
  run (Seq r1 r2) c cs k = run r1 c cs (fun c' cs' => run r2 c' cs' k).
Proof. reflexivity. Qed.

Lemma run_repeat r min max c cs k :
  run (Repeat r min max) c cs k
  = iterate (run r) (groups_of r) min max k (min + String.length (rest c) + 1) 0 c cs.
Proof. reflexivity. Qed.

Lemma run_rest_of_line (k : cursor -> captures -> option result) :
  forall s fuel count i cs,
    String.length s < fuel ->
    iterate (run any) [] 0 None (fun c' cs' => run (Lit "010") c' cs' k)
            fuel count {| pos := i; rest := s |} cs
    = match line_rest s with
      | Some n => k {| pos := n + i; rest := drop n s |} cs
      | None => None
      end.
Proof.
  induction s as [|ch s IH]; intros fuel count i cs Hfuel.
  - destruct fuel as [|fuel]; [inversion Hfuel|]. reflexivity.
  - destruct fuel as [|fuel]; [inversion Hfuel|].
    simpl in Hfuel. apply Nat.succ_lt_mono in Hfuel.
    rewrite iterate_step. unfold any at 1. rewrite run_class, run_lit, clear_nil.
    cbn [rest pos step below Nat.leb andb line_rest].
    destruct (is_line_terminator ch) eqn:T; cbn [negb].
    + destruct (Ascii.eqb "010" ch); reflexivity.
    + replace (Nat.eqb (S i) i) with false by (symmetry; apply Nat.eqb_neq; lia).
      fold any. unfold step. cbn [pos rest].
      rewrite (IH fuel (S count) (S i) cs Hfuel).
      assert (Hnl : Ascii.eqb "010" ch = false).
      { apply Ascii.eqb_neq. intros <-. discriminate T. }
      rewrite Hnl.
      destruct (line_rest s) as [n|]; cbn [fmap option_fmap option_map drop].
      * rewrite Nat.add_succ_r. destruct (k _ cs); reflexivity.
      * reflexivity.
Qed.

(** The match of [/LITERAL.*\n/] at a position, read off the string. *)
Lemma match_at_line (literal : string) (i : nat) (s : string) :
  literal <> EmptyString ->
  match_at (line_from literal) {| pos := i; rest := s |}
  = (fun n => ({| pos := n + i; rest := drop n s |}, [])) <$> line_match literal s.
Proof.
  intros Hne. unfold match_at, line_from, line_match.
  change (seq [str literal; star any; Lit "010"])
    with (Seq (str literal) (Seq (star any) (Lit "010"))).
  rewrite run_seq, (run_str literal Hne). cbn [rest pos].
  destruct (String.prefix literal s); [|reflexivity].
  rewrite run_seq. unfold star. rewrite run_repeat.
  change (groups_of any) with (@nil nat). cbn [rest].
  rewrite run_rest_of_line by lia.
  destruct (line_rest (drop (String.length literal) s)) as [n|]; [|reflexivity].
  cbn [fmap option_fmap option_map]. rewrite drop_drop. do 3 f_equal. lia.
Qed.

(** The unfolding of the global deletion, with the match read off the
    string. *)
Lemma remove_from_line (literal : string) :
  literal <> EmptyString ->
  forall s i skip,
    remove_from (line_from literal) i skip s
    = match s with
      | EmptyString => EmptyString
      | String ch s' =>
          match skip with
          | S skip' => remove_from (line_from literal) (S i) skip' s'
          | O =>
              match line_match literal s with
              | Some (S len) => remove_from (line_from literal) (S i) len s'
              | _ => String ch (remove_from (line_from literal) (S i) 0 s')
              end
          end
      end.
Proof.
  intros Hne s i skip. destruct s as [|ch s']; [reflexivity|].
  destruct skip as [|skip']; [|reflexivity].
  simpl remove_from. rewrite (match_at_line literal i _ Hne).
  destruct (line_match literal (String ch s')) as [n|];
    cbn [fmap option_fmap option_map pos]; [|reflexivity].
  replace (n + i - i) with n by lia. destruct n; reflexivity.
Qed.

(** The position at which a deletion starts does not matter. *)
Lemma remove_from_index (literal : string) :
  literal <> EmptyString ->
  forall s i j skip,
    remove_from (line_from literal) i skip s = remove_from (line_from literal) j skip s.
Proof.
  intros Hne. induction s as [|ch s IH]; intros i j skip; [reflexivity|].
  rewrite (remove_from_line literal Hne (String ch s) i),
          (remove_from_line literal Hne (String ch s) j).
  destruct skip as [|skip']; [|apply IH].
  destruct (line_match literal (String ch s)) as [[|len]|];
    [f_equal; apply IH | apply IH | f_equal; apply IH].
Qed.

Lemma remove_from_skip (r : regex) (x s : string) (i : nat) :
  remove_from r i (String.length x) (String.append x s)
  = remove_from r (String.length x + i) 0 s.
Proof.
  revert i. induction x as [|ch x IH]; intros i; [reflexivity|].
  rewrite append_cons. simpl. rewrite IH. f_equal. lia.
Qed.

Lemma line_rest_body (body s : string) :
  no_terminator body = true ->
  line_rest (String.append body (String "010" s)) = Some (S (String.length body)).
Proof.
  induction body as [|ch body IH]; intros H; [reflexivity|].
  simpl in H. apply andb_true_iff in H as [Hch Hb]. rewrite append_cons. simpl.
  apply negb_true_iff in Hch. rewrite Hch, (IH Hb). reflexivity.
Qed.

(** A whole line that starts with the literal is deleted with its line
    feed. *)
Lemma remove_line (literal body s : string) :
  literal <> EmptyString ->
  no_terminator body = true ->
  remove_all (line_from literal)
    (String.append literal (String.append body (String "010" s)))
  = remove_all (line_from literal) s.
Proof.
  intros Hne Hbody. unfold remove_all.
  destruct literal as [|a literal]; [congruence|].
  rewrite (remove_from_line (String a literal) Hne).
  change (String.append (String a literal) (String.append body (String "010" s)))
    with (String a (String.append literal (String.append body (String "010" s)))).
  cbv iota.
  change (String a (String.append literal (String.append body (String "010" s))))
    with (String.append (String a literal) (String.append body (String "010" s))).
  unfold line_match. rewrite prefix_append, drop_append, (line_rest_body body s Hbody).
  simpl.
  replace (String.append literal (String.append body (String "010" s)))
    with (String.append (String.append literal (String.append body (String "010" EmptyString))) s).
  2:{ rewrite !append_assoc. reflexivity. }
  replace (String.length literal + S (String.length body))
    with (String.length (String.append literal (String.append body (String "010" EmptyString)))).
  2:{ rewrite !length_append. simpl. lia. }
  rewrite remove_from_skip. apply remove_from_index. exact Hne.
Qed.

(** Characters that cannot start the literal are kept. *)
Lemma remove_prefix_without (literal a s : string) (first : ascii) (rest_ : string) :
  literal = String first rest_ ->
  without first a = true ->
  remove_all (line_from literal) (String.append a s)
  = String.append a (remove_all (line_from literal) s).
Proof.
  intros Hl Ha. assert (Hne : literal <> EmptyString) by (subst; discriminate).
  unfold remove_all. generalize 0 at 1. induction a as [|ch a IH]; intros i.
  - apply remove_from_index. exact Hne.
  - simpl in Ha. apply andb_true_iff in Ha as [Hch Ha]. apply negb_true_iff in Hch.
    change (String.append (String ch a) s) with (String ch (String.append a s)).
    rewrite (remove_from_line literal Hne). cbv iota.
    unfold line_match. rewrite Hl, prefix_cons, Hch. rewrite <- Hl.
    simpl. rewrite (IH Ha). reflexivity.
Qed.

Lemma mismatch_prefix (literal a s : string) :
  mismatch literal a = true -> String.prefix literal (String.append a s) = false.
Proof.
  revert a. induction literal as [|x literal IH]; intros a H; [discriminate H|].
  destruct a as [|b a]; [discriminate H|].
  rewrite append_cons, prefix_cons. simpl in H.
  destruct (Ascii.eqb x b); [apply IH, H | reflexivity].
Qed.

(** A text in which the literal starts nowhere is kept as it is. *)
Lemma remove_prefix_nowhere (literal a s : string) :
  literal <> EmptyString ->
  starts_nowhere literal a = true ->
  remove_all (line_from literal) (String.append a s)
  = String.append a (remove_all (line_from literal) s).
Proof.
  intros Hne Ha. unfold remove_all. generalize 0 at 1.
  induction a as [|ch a IH]; intros i.
  - apply remove_from_index. exact Hne.
  - simpl in Ha. apply andb_true_iff in Ha as [Hch Ha].
    pose proof (mismatch_prefix literal (String ch a) s Hch) as Hp.
    rewrite append_cons in *.
    rewrite (remove_from_line literal Hne). cbv iota.
    unfold line_match. rewrite Hp. cbv iota. rewrite (IH Ha). reflexivity.
Qed.

End RegexProperties.

(** ** Rounding to binary64 *)
Module RoundingProperties.
Import JsString JsNumber.
Local Open Scope Q_scope.

Lemma Qltb_lt (a b : Q) : Qltb a b = true <-> a < b.
Proof.
  unfold Qltb. rewrite negb_true_iff. split.
  - intros H. apply Qnot_le_lt. intros Hle. apply Qle_bool_iff in Hle. congruence.
  - intros H. destruct (Qle_bool b a) eqn:E; [|reflexivity].
    apply Qle_bool_iff in E. exfalso. exact (Qlt_not_le _ _ H E).
Qed.

Lemma Qltb_ge (a b : Q) : Qltb a b = false <-> b <= a.
Proof.
  unfold Qltb. rewrite negb_false_iff. apply Qle_bool_iff.
Qed.

(** Rounding keeps the sign: the binary64 value of a rational that is not
    negative is not negative (it may be an infinity). *)
Lemma nearest_even_nonneg (p d : Z) : (0 <= p)%Z -> (0 < d)%Z -> (0 <= nearest_even p d)%Z.
Proof.
  intros Hp Hd. unfold nearest_even.
  pose proof (Z.div_pos p d Hp Hd) as Hq.
  destruct (2 * (p mod d) ?= d)%Z; [destruct (Z.even (p / d))| |]; lia.
Qed.

Lemma significand_nonneg (a : Q) (k : Z) : (0 <= a)%Q -> (0 <= significand a k)%Z.
Proof.
  intros Ha. assert (Hn : (0 <= Qnum a)%Z).
  { unfold Qle in Ha. simpl in Ha. lia. }
  unfold significand. destruct (0 <=? k)%Z eqn:K.
  - apply nearest_even_nonneg; [exact Hn|]. apply Z.leb_le in K.
    pose proof (Z.pow_pos_nonneg 2 k ltac:(lia) K). lia.
  - apply nearest_even_nonneg; [|lia]. apply Z.leb_gt in K.
    pose proof (Z.pow_pos_nonneg 2 (- k) ltac:(lia) ltac:(lia)). nia.
Qed.

Lemma scaled_nonneg (m k : Z) : (0 <= m)%Z -> (0 <= scaled m k)%Q.
Proof.
  intros Hm. unfold scaled. destruct (0 <=? k)%Z eqn:K.
  - apply Z.leb_le in K. pose proof (Z.pow_pos_nonneg 2 k ltac:(lia) K).
    change 0%Q with (inject_Z 0). rewrite <- Zle_Qle. nia.
  - unfold Qle. simpl. lia.
Qed.

Lemma round64_nonneg (q : Q) : (0 <= q)%Q -> nonnegative (round64 q).
Proof.
  intros Hq. unfold round64.
  assert (N : negative q = false) by (apply Qltb_ge, Hq).
  rewrite N. destruct (Qeqb q 0); [simpl; lra|].
  destruct (_ && _); [reflexivity|].
  destruct (_ =? 0)%Z; [simpl; lra|].
  destruct (Qeqb _ q); simpl; [exact Hq|].
  apply scaled_nonneg, significand_nonneg, Qabs_nonneg.
Qed.

(** The nearest integer is not below the quotient, and it is within a half
    of the fraction. *)
Lemma nearest_even_floor (p d : Z) : (0 < d)%Z -> (p / d <= nearest_even p d)%Z.
Proof.
  intros Hd. unfold nearest_even.
  destruct (2 * (p mod d) ?= d)%Z; [destruct (Z.even (p / d))| |]; lia.
Qed.

Lemma nearest_even_near (p d : Z) :
  (0 < d)%Z -> (Z.abs (2 * (nearest_even p d * d - p)) <= d)%Z.
Proof.
  intros Hd. unfold nearest_even. cbv zeta.
  pose proof (Z.div_mod p d ltac:(lia)) as E.
  pose proof (Z.mod_pos_bound p d Hd) as B.
  set (x := (p / d)%Z) in *. set (r := (p mod d)%Z) in *. clearbody x r.
  apply Z.abs_le. subst p.
  destruct (2 * r ?= d)%Z eqn:C.
  - apply Z.compare_eq in C. destruct (Z.even x); lia.
  - rewrite Z.compare_lt_iff in C. lia.
  - rewrite Z.compare_gt_iff in C. lia.
Qed.

(** The exponent of a rational from 1 on: [2^e <= a]. *)
Lemma exponent_le (a : Q) :
  (0 < Qnum a)%Z -> (0 <= exponent a)%Z ->
  (Zpos (Qden a) * 2 ^ exponent a <= Qnum a)%Z.
Proof.
  intros Hn. unfold exponent.
  set (n := Qnum a) in *. set (d := Zpos (Qden a)).
  set (t := (Z.log2 n - Z.log2 d)%Z).
  destruct (0 <=? t)%Z eqn:T.
  - apply Z.leb_le in T. destruct (d * 2 ^ t <=? n)%Z eqn:C.
    + intros _. apply Z.leb_le, C.
    + intros He.
      destruct (Z.log2_spec n Hn) as [Ln _].
      destruct (Z.log2_spec d ltac:(unfold d; lia)) as [_ Ld].
      pose proof (Z.log2_nonneg d) as Nd.
      assert (E : (2 ^ Z.log2 n = 2 ^ (Z.log2 d + 1) * 2 ^ (t - 1))%Z).
      { rewrite <- Z.pow_add_r by lia. f_equal. unfold t. lia. }
      pose proof (Z.pow_pos_nonneg 2 (t - 1) ltac:(lia) He). nia.
  - apply Z.leb_gt in T. destruct (d <=? n * 2 ^ (- t))%Z; lia.
Qed.

(** A rational below [2^14] has its binary64 neighbours at most [2^-39]
    apart. *)
Lemma spacing_small (a : Q) :
  0 < a -> a < 16384 -> (-1074 <= spacing a <= -39)%Z.
Proof.
  intros Hpos Hlt. unfold spacing.
  assert (Hn : (0 < Qnum a)%Z) by (unfold Qlt in Hpos; simpl in Hpos; lia).
  destruct (Z_lt_le_dec (exponent a) 14) as [L|G]; [lia|].
  exfalso. pose proof (exponent_le a Hn ltac:(lia)) as E.
  pose proof (Z.pow_le_mono_r 2 14 (exponent a) ltac:(lia) G) as P.
  unfold Qlt in Hlt. simpl in Hlt. change (2 ^ 14)%Z with 16384%Z in P. nia.
Qed.

(** Rounding moves a value below [2^14] by [2^-40] at most. *)
Lemma scaled_near (a : Q) :
  0 < a -> a < 16384 ->
  let v := scaled (significand a (spacing a)) (spacing a) in
  a - ulp14 <= v /\ v <= a + ulp14.
Proof.
  intros Hpos Hlt. cbv zeta.
  pose proof (spacing_small a Hpos Hlt) as [K1 K2].
  set (k := spacing a) in *.
  unfold significand, scaled.
  assert (K : (0 <=? k)%Z = false) by (apply Z.leb_gt; lia). rewrite K.
  destruct a as [n d]. cbn [Qnum Qden].
  set (P := (2 ^ (- k))%Z).
  assert (HP : (2 ^ 39 <= P)%Z) by (apply Z.pow_le_mono_r; lia).
  pose proof (nearest_even_near (n * P) (Zpos d) ltac:(lia)) as N.
  set (m := nearest_even (n * P) (Zpos d)) in *.
  change (2 ^ 39)%Z with 549755813888%Z in HP.
  unfold ulp14, Qle, Qminus, Qplus, Qopp. cbn [Qnum Qden].
  rewrite !Pos2Z.inj_mul, !Z2Pos.id by lia.
  split; nia.
Qed.

Lemma round64_near (q : Q) :
  - (16384) < q -> q < 16384 ->
  exists v, round64 q = Fin v /\ q - ulp14 <= v /\ v <= q + ulp14.
Proof.
  intros Hlo Hhi. unfold round64.
  destruct (Qeqb q 0) eqn:Z0.
  { apply Qeq_bool_iff in Z0. exists 0. split; [reflexivity|]. unfold ulp14. lra. }
  assert (Hq : ~ q == 0).
  { intros E. apply Qeq_bool_iff in E. unfold Qeqb in Z0. congruence. }
  assert (Ha : 0 < Qabs q).
  { pose proof (Qabs_nonneg q). destruct (Qeq_dec (Qabs q) 0) as [E|E]; [|lra].
    exfalso. apply Hq.
    destruct (Qlt_le_dec q 0) as [N|N].
    - rewrite (Qabs_neg q) in E by lra. lra.
    - rewrite (Qabs_pos q N) in E. exact E. }
  assert (Hb : Qabs q < 16384).
  { apply Qabs_case; intros; lra. }
  pose proof (spacing_small _ Ha Hb) as [K1 K2].
  pose proof (scaled_near _ Ha Hb) as [S1 S2]. cbv zeta in S1, S2.
  set (k := spacing (Qabs q)) in *. set (m := significand (Qabs q) k) in *.
  assert (K : (971 <=? k)%Z = false) by (apply Z.leb_gt; lia). rewrite K. cbn [andb].
  destruct (m =? 0)%Z eqn:M.
  { apply Z.eqb_eq in M. rewrite M in S1, S2.
    assert (E0 : scaled 0 k == 0).
    { unfold scaled. destruct (0 <=? k)%Z; reflexivity. }
    rewrite E0 in S1, S2. exists 0. split; [reflexivity|].
    revert S1 S2. apply Qabs_case; intros; lra. }
  destruct (negative q) eqn:N.
  - apply Qltb_lt in N. rewrite (Qabs_neg q) in S1, S2 by lra.
    destruct (Qeqb _ q); eexists; (split; [reflexivity|]); unfold ulp14 in *; lra.
  - apply Qltb_ge in N. rewrite (Qabs_pos q N) in S1, S2.
    destruct (Qeqb _ q); eexists; (split; [reflexivity|]); unfold ulp14 in *; lra.
Qed.

(** Rounding does not cross a positive integer up to [2^52], nor zero. *)
Lemma round64_at_least (z : Z) (q : Q) :
  (0 < z <= 2 ^ 52)%Z -> inject_Z z <= q -> at_least (inject_Z z) (round64 q).
Proof.
  intros [Hz1 Hz2] Hq. destruct q as [n d].
  assert (Hzn : (z * Zpos d <= n)%Z).
  { unfold Qle in Hq. simpl in Hq. lia. }
  assert (Hn : (0 < n)%Z) by nia.
  unfold round64.
  assert (Z0 : Qeqb (n # d) 0 = false).
  { unfold Qeqb, Qeq_bool. simpl. apply Z.eqb_neq. lia. }
  assert (N : negative (n # d) = false).
  { apply Qltb_ge. unfold Qle. simpl. lia. }
  rewrite Z0, N.
  assert (A : Qabs (n # d) = n # d).
  { unfold Qabs. rewrite Z.abs_eq by lia. reflexivity. }
  rewrite A.
  set (k := spacing (n # d)). set (m := significand (n # d) k).
  assert (V : (0 < m)%Z /\ inject_Z z <= scaled m k).
  { unfold m, significand, scaled. cbn [Qnum Qden].
    destruct (0 <=? k)%Z eqn:K.
    - apply Z.leb_le in K.
      assert (He : (exponent (n # d) - 52 = k)%Z) by (unfold k, spacing in *; lia).
      pose proof (exponent_le (n # d) Hn ltac:(lia)) as E. cbn [Qnum Qden] in E.
      assert (P : (2 ^ exponent (n # d) = 2 ^ k * 2 ^ 52)%Z).
      { rewrite <- Z.pow_add_r by lia. f_equal. lia. }
      pose proof (Z.pow_pos_nonneg 2 k ltac:(lia) K) as Pk.
      pose proof (nearest_even_floor n (Zpos d * 2 ^ k) ltac:(nia)) as F.
      assert (L : (2 ^ 52 <= n / (Zpos d * 2 ^ k))%Z).
      { apply Z.div_le_lower_bound; [nia|]. rewrite P in E. nia. }
      set (x := nearest_even n (Zpos d * 2 ^ k)) in *.
      split; [lia|]. rewrite <- Zle_Qle. nia.
    - apply Z.leb_gt in K.
      pose proof (Z.pow_pos_nonneg 2 (- k) ltac:(lia) ltac:(lia)) as Pk.
      pose proof (nearest_even_floor (n * 2 ^ (- k)) (Zpos d) ltac:(lia)) as F.
      assert (L : (z * 2 ^ (- k) <= n * 2 ^ (- k) / Zpos d)%Z).
      { apply Z.div_le_lower_bound; [lia|]. nia. }
      set (x := nearest_even (n * 2 ^ (- k)) (Zpos d)) in *.
      split; [nia|]. unfold Qle. cbn [Qnum Qden inject_Z]. rewrite Z2Pos.id by lia. lia. }
  destruct V as [Vm Vs].
  destruct (_ && _); [reflexivity|].
  assert (M : (m =? 0)%Z = false) by (apply Z.eqb_neq; lia). rewrite M.
  destruct (Qeqb (scaled m k) (n # d)); cbn [at_least]; assumption.
Qed.

Lemma round64_at_most_0 (q : Q) : q <= 0 -> at_most 0 (round64 q).
Proof.
  intros Hq. unfold round64.
  destruct (Qeqb q 0) eqn:Z0; [simpl; lra|].
  assert (N : negative q = true).
  { apply Qltb_lt. destruct (Qeq_dec q 0) as [E|E]; [|lra].
    apply Qeq_bool_iff in E. unfold Qeqb in Z0. congruence. }
  rewrite N. destruct (_ && _); [reflexivity|].
  destruct (_ =? 0)%Z; [simpl; lra|].
  pose proof (scaled_nonneg _ (spacing (Qabs q))
                (significand_nonneg (Qabs q) (spacing (Qabs q))
                   (Qabs_nonneg q))) as S.
  destruct (Qeqb _ q); simpl; lra.
Qed.

End RoundingProperties.

(** ** The job tracker *)
Module TrackerProperties.
Import JsString JsNumber Tracker StringProperties.
Export RoundingProperties.
Local Open Scope Q_scope.

(** The caps of the simulation never bind: in each phase the progress is
    the linear ramp itself. *)
Lemma progress_submitted (e : Q) :
  e < 3 ->
  sim_status (simulated_status e) = "submitted" /\
  sim_progress (simulated_status e) == e * (20 # 3).
Proof.
  intros H. unfold simulated_status. apply Qltb_lt in H as Hb. rewrite Hb. simpl.
  split; [reflexivity|].
  assert (E : e / totalSimulatedTime * 100 == e * (20 # 3)) by (unfold totalSimulatedTime; field).
  rewrite E. apply Q.min_r. clear E. lra.
Qed.

Lemma progress_creating (e : Q) :
  3 <= e -> e < 8 ->
  sim_status (simulated_status e) = "inprogress" /\
  sim_progress (simulated_status e) == 25 + (e - 3) * (25 # 6).
Proof.
  intros H1 H2. unfold simulated_status.
  apply Qltb_ge in H1 as Hb1. apply Qltb_lt in H2 as Hb2. rewrite Hb1, Hb2. simpl.
  split; [reflexivity|].
  assert (E : 25 + (e - 3) / (totalSimulatedTime - 3) * 50 == 25 + (e - 3) * (25 # 6))
    by (unfold totalSimulatedTime; field).
  rewrite E. apply Q.min_r. clear E. lra.
Qed.

Lemma progress_finalizing (e : Q) :
  8 <= e -> e < 15 ->
  sim_status (simulated_status e) = "inprogress" /\
  sim_progress (simulated_status e) == 75 + (e - 8) * (20 # 7).
Proof.
  intros H1 H2. unfold simulated_status.
  assert (H0 : 3 <= e) by lra.
  apply Qltb_ge in H0 as Hb0. apply Qltb_ge in H1 as Hb1.
  assert (Hb2 : Qltb e totalSimulatedTime = true) by (apply Qltb_lt; unfold totalSimulatedTime; lra).
  rewrite Hb0, Hb1, Hb2. simpl.
  split; [reflexivity|].
  assert (E : 75 + (e - 8) / (totalSimulatedTime - 8) * 20 == 75 + (e - 8) * (20 # 7))
    by (unfold totalSimulatedTime; field).
  rewrite E. apply Q.min_r. clear E. lra.
Qed.

Lemma progress_completed (e : Q) :
  15 <= e ->
  sim_status (simulated_status e) = "success" /\
  sim_progress (simulated_status e) == 100.
Proof.
  intros H. unfold simulated_status.
  assert (H0 : 3 <= e) by lra. assert (H1 : 8 <= e) by lra.
  apply Qltb_ge in H0 as Hb0. apply Qltb_ge in H1 as Hb1.
  assert (Hb2 : Qltb e totalSimulatedTime = false) by (apply Qltb_ge; unfold totalSimulatedTime; lra).
  rewrite Hb0, Hb1, Hb2. simpl. split; reflexivity.
Qed.

(** The four phases cover every elapsed time. *)
Lemma phase_cases (e : Q) :
  e < 3 \/ (3 <= e /\ e < 8) \/ (8 <= e /\ e < 15) \/ 15 <= e.
Proof.
  destruct (Qlt_le_dec e 3); [lra|].
  destruct (Qlt_le_dec e 8); [lra|].
  destruct (Qlt_le_dec e 15); lra.
Qed.

(** The phase of an elapsed time, with the status and the progress there. *)
Lemma phase_of (e : Q) :
  (e < 3 /\ sim_status (simulated_status e) = "submitted"
     /\ sim_progress (simulated_status e) == e * (20 # 3)) \/
  (3 <= e /\ e < 8 /\ sim_status (simulated_status e) = "inprogress"
     /\ sim_progress (simulated_status e) == 25 + (e - 3) * (25 # 6)) \/
  (8 <= e /\ e < 15 /\ sim_status (simulated_status e) = "inprogress"
     /\ sim_progress (simulated_status e) == 75 + (e - 8) * (20 # 7)) \/
  (15 <= e /\ sim_status (simulated_status e) = "success"
     /\ sim_progress (simulated_status e) == 100).
Proof.
  destruct (phase_cases e) as [A|[[A A']|[[A A']|A]]].
  - left. split; [exact A|]. exact (progress_submitted e A).
  - right; left. repeat (split; [assumption|]). exact (progress_creating e A A').
  - right; right; left. repeat (split; [assumption|]). exact (progress_finalizing e A A').
  - right; right; right. split; [exact A|]. exact (progress_completed e A).
Qed.

Lemma simulated_progress_monotone (e1 e2 : Q) :
  e1 <= e2 -> sim_progress (simulated_status e1) <= sim_progress (simulated_status e2).
Proof.
  intros H.
  destruct (phase_of e1) as [(A & _ & E1)|[(A & A' & _ & E1)|[(A & A' & _ & E1)|(A & _ & E1)]]];
    destruct (phase_of e2) as [(B & _ & E2)|[(B & B' & _ & E2)|[(B & B' & _ & E2)|(B & _ & E2)]]];
    rewrite E1, E2; lra.
Qed.

Lemma simulated_complete_iff_success (e : Q) :
  sim_progress (simulated_status e) == 100 <-> sim_status (simulated_status e) = "success".
Proof.
  destruct (phase_of e) as [(A & S & E)|[(A & A' & S & E)|[(A & A' & S & E)|(A & S & E)]]];
    rewrite E, S; split; intros H; try discriminate H; try reflexivity; lra.
Qed.

Lemma elapsed_seconds_monotone (now1 now2 created : Z) :
  (now1 <= now2)%Z -> elapsed_seconds now1 created <= elapsed_seconds now2 created.
Proof.
  intros H. unfold elapsed_seconds.
  assert (Hz : inject_Z (now1 - created) <= inject_Z (now2 - created))
    by (rewrite <- Zle_Qle; lia).
  unfold Qdiv. apply Qmult_le_compat_r; [exact Hz|]. vm_compute. discriminate.
Qed.

(** The identifiers of the simulated jobs are not those of the first
    simulation. *)
Lemma aps_not_legacy (workitemId : string) :
  startsWith workitemId "aps_" = true -> startsWith workitemId "workitem_" = false.
Proof.
  unfold startsWith. destruct workitemId as [|ch rest]; [discriminate|].
  change (String.prefix "aps_" (String ch rest))
    with (if Ascii.ascii_dec "a"%char ch then String.prefix "ps_" rest else false).
  change (String.prefix "workitem_" (String ch rest))
    with (if Ascii.ascii_dec "w"%char ch then String.prefix "orkitem_" rest else false).
  destruct (Ascii.ascii_dec "a"%char ch) as [<-|]; [|intros H; discriminate H].
  intros _. destruct (Ascii.ascii_dec "w"%char "a"%char) as [E|]; [discriminate E|reflexivity].
Qed.

Lemma status_route_simulated c real direct workitemId queue :
  startsWith workitemId "aps_" = true ->
  status_route c real direct workitemId queue = poll_simulated c workitemId queue.
Proof.
  intros H. unfold status_route. rewrite (aps_not_legacy _ H), H. reflexivity.
Qed.

Lemma unchanged_refl w : unchanged w w.
Proof. repeat split. Qed.

Lemma unchanged_trans w1 w2 w3 : unchanged w1 w2 -> unchanged w2 w3 -> unchanged w1 w3.
Proof.
  unfold unchanged. intros (a1 & a2 & a3 & a4 & a5 & a6 & a7 & a8 & a9)
                           (b1 & b2 & b3 & b4 & b5 & b6 & b7 & b8 & b9).
  repeat split; congruence.
Qed.

Lemma unchanged_checked w s now : unchanged w (checked w s now).
Proof. repeat split. Qed.

(** One poll of a simulated job replaces its record by the checked one and
    leaves the other records alone. *)
Lemma poll_simulated_queue c workitemId (queue : gmap string workitem) w :
  queue !! workitemId = Some w ->
  snd (poll_simulated c workitemId queue)
  = <[workitemId :=
        checked w (simulated_status (elapsed_seconds (t_elapsed c) (createdAt w)))
                (t_checked c)]> queue.
Proof. intros H. unfold poll_simulated. rewrite H. reflexivity. Qed.

Lemma polled_unchanged requests workitemId :
  startsWith workitemId "aps_" = true ->
  forall (queue : gmap string workitem) w,
    queue !! workitemId = Some w ->
    exists w', polled requests workitemId queue !! workitemId = Some w' /\ unchanged w w'.
Proof.
  intros Hsim. induction requests as [|[[c real] direct] requests IH]; intros queue w Hw.
  - exists w. split; [exact Hw | apply unchanged_refl].
  - unfold polled. simpl. fold (polled requests workitemId).
    rewrite (status_route_simulated _ _ _ _ _ Hsim), (poll_simulated_queue _ _ _ _ Hw).
    set (w1 := checked w _ _).
    destruct (IH _ w1 (lookup_insert_eq queue workitemId w1)) as (w' & Hw' & Hu).
    exists w'. split; [exact Hw'|].
    eapply unchanged_trans; [apply unchanged_checked | exact Hu].
Qed.

(** C10. A poll of a simulated job (an identifier that starts with [aps_])
    mutates its record in the queue: the status, the progress and the message
    become those of the simulation and [lastChecked] the time of the poll,
    while the id, [createdAt], [params], [bucketKey], [outputObjectKey] (and
    the other fields) keep their values; the other records are untouched; and
    after any sequence of polls the record still has these values. *)
Theorem poll_updates_only_status_fields
        (requests : list (clock * status_call * fetch_call))
        (c : clock) (real : status_call) (direct : fetch_call)
        (workitemId : string) (queue : gmap string workitem) (w : workitem) :
  startsWith workitemId "aps_" = true ->
  queue !! workitemId = Some w ->
  let s := simulated_status (elapsed_seconds (t_elapsed c) (createdAt w)) in
  let queue' := snd (status_route c real direct workitemId queue) in
  (exists w', queue' !! workitemId = Some w'
              /\ status w' = sim_status s /\ progress w' = sim_progress s
              /\ message w' = sim_message s /\ lastChecked w' = Some (t_checked c)
              /\ unchanged w w')
  /\ (forall other, other <> workitemId -> queue' !! other = queue !! other)
  /\ (exists w', polled requests workitemId queue !! workitemId = Some w' /\ unchanged w w').
Proof.
  intros Hsim Hw s queue'. subst queue'.
  rewrite (status_route_simulated _ _ _ _ _ Hsim), (poll_simulated_queue _ _ _ _ Hw).
  split; [|split].
  - eexists. split; [apply lookup_insert_eq|]. repeat split.
  - intros other Hne. apply lookup_insert_ne. congruence.
  - exact (polled_unchanged requests workitemId Hsim queue w Hw).
Qed.

Lemma poll_updates_only_status_fields_witness :
  exists w', snd (status_route (at_time 5000) StatusRejected (FetchRejected "unused")
                    "aps_1000_k3x9" sample_queue) !! "aps_1000_k3x9" = Some w'
             /\ status w' = "inprogress" /\ lastChecked w' = Some 5000%Z
             /\ unchanged sample_job w'.
Proof.
  destruct (poll_updates_only_status_fields [] (at_time 5000) StatusRejected
              (FetchRejected "unused") "aps_1000_k3x9" sample_queue sample_job
              eq_refl eq_refl) as [(w' & H1 & H2 & _ & _ & H3 & H4) _].
  exists w'. repeat split; try assumption; try apply H4.
Defined.

(** C8. For a simulated job, the progress reported by a poll does not
    decrease when the job is polled again at a later time, and a response
    reports exactly 100 if and only if it reports the status success. *)
Theorem simulated_progress_monotone_and_complete
        (c1 c2 : clock) (real1 real2 : status_call) (direct1 direct2 : fetch_call)
        (workitemId : string) (queue : gmap string workitem) (w : workitem) :
  startsWith workitemId "aps_" = true ->
  queue !! workitemId = Some w ->
  (t_elapsed c1 <= t_elapsed c2)%Z ->
  exists b1 b2 queue1 queue2,
    status_route c1 real1 direct1 workitemId queue = (Json200 b1, queue1)
    /\ status_route c2 real2 direct2 workitemId queue1 = (Json200 b2, queue2)
    /\ r_progress b1 <= r_progress b2
    /\ (r_progress b1 == 100 <-> r_status b1 = Some "success")
    /\ (r_progress b2 == 100 <-> r_status b2 = Some "success").
Proof.
  intros Hsim Hw Hle.
  rewrite (status_route_simulated _ _ _ _ _ Hsim).
  unfold poll_simulated at 1. rewrite Hw.
  do 2 eexists. eexists. eexists. split; [reflexivity|].
  rewrite (status_route_simulated _ _ _ _ _ Hsim).
  unfold poll_simulated. rewrite lookup_insert_eq. split; [reflexivity|]. simpl.
  split; [|split].
  - apply simulated_progress_monotone, elapsed_seconds_monotone, Hle.
  - rewrite simulated_complete_iff_success. split; congruence.
  - rewrite simulated_complete_iff_success. split; congruence.
Qed.

Lemma simulated_progress_monotone_and_complete_witness :
  exists b1 b2 queue1 queue2,
    status_route (at_time 3000) StatusRejected (FetchRejected "unused")
      "aps_1000_k3x9" sample_queue = (Json200 b1, queue1)
    /\ status_route (at_time 17000) StatusRejected (FetchRejected "unused")
         "aps_1000_k3x9" queue1 = (Json200 b2, queue2)
    /\ r_progress b1 <= r_progress b2
    /\ (r_progress b1 == 100 <-> r_status b1 = Some "success")
    /\ (r_progress b2 == 100 <-> r_status b2 = Some "success").
Proof.
  apply (simulated_progress_monotone_and_complete (at_time 3000) (at_time 17000)
           StatusRejected StatusRejected (FetchRejected "unused") (FetchRejected "unused")
           "aps_1000_k3x9" sample_queue sample_job eq_refl eq_refl).
  simpl. lia.
Defined.

(** *** The progress rule *)

(** A response that reports success reports 100, in every branch of the
    status route. *)
Lemma or_unknown_success (o : option string) :
  or_unknown o = "success" -> o = Some "success".
Proof.
  unfold or_unknown. destruct o as [s|]; [|discriminate].
  destruct (JsString.truthy s); [congruence | discriminate].
Qed.

Lemma table_success (st : option string) :
  st = Some "success" -> getProgressFromStatus st = 100 /\ getProgressFromAPSStatus st = 100.
Proof. intros ->. split; reflexivity. Qed.

Lemma legacy_success (now : Z) (workitemId : string) :
  sim_status (legacy_status now workitemId) = "success" ->
  sim_progress (legacy_status now workitemId) = 100.
Proof.
  unfold legacy_status.
  destruct (gt _ (Fin 3)); [reflexivity|].
  destruct (gt _ (Fin 1.5)); [discriminate|].
  destruct (gt _ (Fin 0.5)); discriminate.
Qed.

Lemma success_reports_100 c real direct workitemId (queue queue' : gmap string workitem) b :
  status_route c real direct workitemId queue = (Json200 b, queue') ->
  r_status b = Some "success" -> r_progress b == 100.
Proof.
  unfold status_route.
  destruct (startsWith workitemId "workitem_").
  { intros [= <- _]. simpl. intros [= H]. rewrite (legacy_success _ _ H). reflexivity. }
  destruct (startsWith workitemId "aps_").
  { unfold poll_simulated. destruct (queue !! workitemId) as [w|]; [|discriminate].
    intros [= <- _]. simpl. intros [= H]. apply simulated_complete_iff_success, H. }
  assert (Hu : forall q, (poll_unknown c direct workitemId, q) = (Json200 b, queue') ->
                         r_status b = Some "success" -> r_progress b == 100).
  { intros q. unfold poll_unknown. destruct direct as [r|m]; [|discriminate].
    destruct (ok r); [|discriminate].
    intros [= <- _]. simpl. intros [= H]. apply or_unknown_success in H.
    rewrite (proj1 (table_success _ H)). reflexivity. }
  destruct (queue !! workitemId) as [w|]; [|apply Hu].
  destruct (isRealAPS w); [|apply Hu].
  unfold poll_real. destruct real as [[st|]|]; intros [= <- _]; simpl; intros H.
  - rewrite (proj2 (table_success _ H)). reflexivity.
  - discriminate H.
  - discriminate H.
Qed.

Lemma table_status (st : option string) :
  follows_table st (getProgressFromStatus st) /\ follows_table st (getProgressFromAPSStatus st).
Proof.
  unfold follows_table, getProgressFromStatus, getProgressFromAPSStatus.
  destruct st as [s|].
  2:{ split; repeat split; try discriminate; intros _; reflexivity. }
  split; repeat split; try (intros [= ->]; reflexivity).
  all: intros N; simpl in N.
  all: destruct (String.eqb_spec s "pending") as [->|_]; [exfalso; tauto|].
  all: destruct (String.eqb_spec s "inprogress") as [->|_]; [exfalso; tauto|].
  all: destruct (String.eqb_spec s "success") as [->|_]; [exfalso; tauto|].
  all: destruct (String.eqb_spec s "failed") as [->|_]; [exfalso; tauto|].
  all: destruct (String.eqb_spec s "cancelled") as [->|_]; [exfalso; tauto|].
  all: reflexivity.
Qed.

Lemma close_eq (a b : Q) : a == b -> close a b.
Proof.
  intros E. unfold close. assert (Z : a - b == 0) by (rewrite E; ring).
  rewrite Z. discriminate.
Qed.

(** The four states of a job of the first simulation. *)
Lemma legacy_cases (now : Z) (workitemId : string) :
  let minutes := elapsedMinutes now workitemId in
  let s := legacy_status now workitemId in
  (gt minutes (Fin 3) = true /\ sim_status s = "success" /\ sim_progress s = 100)
  \/ (gt minutes (Fin 3) = false /\ gt minutes (Fin 1.5) = true
      /\ sim_status s = "inprogress" /\ sim_progress s = 75)
  \/ (gt minutes (Fin 1.5) = false /\ gt minutes (Fin 0.5) = true
      /\ sim_status s = "inprogress" /\ sim_progress s = 50)
  \/ (gt minutes (Fin 0.5) = false /\ sim_status s = "pending" /\ sim_progress s = 25).
Proof.
  cbv zeta. unfold legacy_status.
  destruct (gt (elapsedMinutes now workitemId) (Fin 3)) eqn:A; [auto|].
  destruct (gt (elapsedMinutes now workitemId) (Fin 1.5)) eqn:B; [auto 6|].
  destruct (gt (elapsedMinutes now workitemId) (Fin 0.5)) eqn:C; auto 8.
Qed.

Lemma close_within (a b : Q) :
  b - (1 # 1000000000) <= a -> a <= b + (1 # 1000000000) -> close a b.
Proof.
  intros H1 H2. unfold close. apply Qabs_case; intros; lra.
Qed.

Lemma math_min_below (c q : Q) : q < c -> math_min (Fin c) (Fin q) = Fin q.
Proof.
  intros H. unfold math_min. simpl. apply Qltb_lt in H. rewrite H. reflexivity.
Qed.

Lemma at_least_finite (c : Q) (n : number) (v : Q) : n = Fin v -> at_least c n -> c <= v.
Proof. intros -> H. exact H. Qed.

(** Division by the constants of the simulation, as a product. *)
Ltac products :=
  unfold Qdiv in *;
  change (/ 1000) with (1 # 1000) in *; change (/ 15) with (1 # 15) in *;
  change (/ 12) with (1 # 12) in *; change (/ 7) with (1 # 7) in *.

(** A rounding step of a value known within bounds. *)
Ltac round_step q v E :=
  let L := fresh "L" in
  let U := fresh "U" in
  destruct (round64_near q) as (v & E & L & U);
  [unfold ulp14 in *; products; lra | unfold ulp14 in *; products; lra
  | rewrite ?E; unfold ulp14 in L, U].

Lemma bounds_of (ms lo hi : Z) :
  (lo <= ms < hi)%Z -> inject_Z lo <= inject_Z ms /\ inject_Z ms <= inject_Z (hi - 1).
Proof. intros [H1 H2]. rewrite <- !Zle_Qle. lia. Qed.

Lemma status64_submitted (now created : Z) :
  (0 <= now - created < 3000)%Z ->
  exists p,
    simulated_status64 now created = ("submitted", Fin p)
    /\ close p (elapsed_seconds now created * (20 # 3)).
Proof.
  intros H. unfold simulated_status64, elapsed_seconds.
  destruct (bounds_of _ _ _ H) as [B0 B1].
  change (inject_Z 0) with 0 in B0. change (inject_Z (3000 - 1)) with 2999 in B1.
  set (X := inject_Z (now - created)) in *. clearbody X.
  cbn [rounded].
  round_step X v0 E0. cbn [div_const rounded].
  round_step (v0 / 1000) e E1.
  assert (T : Qltb e 3 = true) by (apply Qltb_lt; products; lra).
  cbn [lt]. rewrite T. cbn [div_const rounded].
  round_step (e / 15) x E2. cbn [mul rounded].
  round_step (x * 100) y E3.
  exists y. rewrite math_min_below by (products; lra). split; [reflexivity|].
  apply close_within; products; lra.
Qed.

Lemma status64_creating (now created : Z) :
  (3000 <= now - created < 8000)%Z ->
  exists p,
    simulated_status64 now created = ("inprogress", Fin p)
    /\ close p (25 + (elapsed_seconds now created - 3) * (25 # 6)).
Proof.
  intros H. unfold simulated_status64, elapsed_seconds.
  destruct (bounds_of _ _ _ H) as [B0 B1].
  change (inject_Z 3000) with 3000 in B0. change (inject_Z (8000 - 1)) with 7999 in B1.
  set (X := inject_Z (now - created)) in *. clearbody X.
  cbn [rounded].
  pose proof (round64_at_least 3000 X ltac:(lia) B0) as A0.
  round_step X v0 E0. rewrite E0 in A0. cbn [at_least] in A0.
  change (inject_Z 3000) with 3000 in A0.
  cbn [div_const rounded].
  assert (A1 : at_least (inject_Z 3) (round64 (v0 / 1000))).
  { apply round64_at_least; [lia|]. change (inject_Z 3) with 3. products. lra. }
  round_step (v0 / 1000) e E1. rewrite E1 in A1. cbn [at_least] in A1.
  change (inject_Z 3) with 3 in A1.
  assert (T3 : Qltb e 3 = false) by (apply Qltb_ge; exact A1).
  assert (T8 : Qltb e 8 = true) by (apply Qltb_lt; products; lra).
  cbn [lt]. rewrite T3, T8. cbn [sub rounded].
  round_step (e - 3) a E2. cbn [div_const rounded].
  round_step (a / 12) x E3. cbn [mul rounded].
  round_step (x * 50) y E4. cbn [add rounded].
  round_step (25 + y) p E5.
  exists p. rewrite math_min_below by (products; lra). split; [reflexivity|].
  apply close_within; products; lra.
Qed.

Lemma status64_finalizing (now created : Z) :
  (8000 <= now - created < 15000)%Z ->
  exists p,
    simulated_status64 now created = ("inprogress", Fin p)
    /\ close p (75 + (elapsed_seconds now created - 8) * (20 # 7)).
Proof.
  intros H. unfold simulated_status64, elapsed_seconds.
  destruct (bounds_of _ _ _ H) as [B0 B1].
  change (inject_Z 8000) with 8000 in B0. change (inject_Z (15000 - 1)) with 14999 in B1.
  set (X := inject_Z (now - created)) in *. clearbody X.
  cbn [rounded].
  pose proof (round64_at_least 8000 X ltac:(lia) B0) as A0.
  round_step X v0 E0. rewrite E0 in A0. cbn [at_least] in A0.
  change (inject_Z 8000) with 8000 in A0.
  cbn [div_const rounded].
  assert (A1 : at_least (inject_Z 8) (round64 (v0 / 1000))).
  { apply round64_at_least; [lia|]. change (inject_Z 8) with 8. products. lra. }
  round_step (v0 / 1000) e E1. rewrite E1 in A1. cbn [at_least] in A1.
  change (inject_Z 8) with 8 in A1.
  assert (T3 : Qltb e 3 = false) by (apply Qltb_ge; lra).
  assert (T8 : Qltb e 8 = false) by (apply Qltb_ge; exact A1).
  assert (T15 : Qltb e 15 = true) by (apply Qltb_lt; products; lra).
  cbn [lt]. rewrite T3, T8, T15. cbn [sub rounded].
  round_step (e - 8) a E2. cbn [div_const rounded].
  round_step (a / 7) x E3. cbn [mul rounded].
  round_step (x * 20) y E4. cbn [add rounded].
  round_step (75 + y) p E5.
  exists p. rewrite math_min_below by (products; lra). split; [reflexivity|].
  apply close_within; products; lra.
Qed.

Lemma status64_completed (now created : Z) :
  (15000 <= now - created)%Z -> simulated_status64 now created = ("success", Fin 100).
Proof.
  intros H. unfold simulated_status64.
  assert (B0 : inject_Z 15000 <= inject_Z (now - created)) by (rewrite <- Zle_Qle; exact H).
  set (X := inject_Z (now - created)) in *. clearbody X.
  cbn [rounded].
  pose proof (round64_at_least 15000 X ltac:(lia) B0) as A0.
  change (inject_Z 15000) with 15000 in A0.
  assert (A1 : at_least 15 (rounded (div_const (round64 X) 1000))).
  { destruct (round64 X) as [v0| |neg]; cbn [at_least div_const rounded] in *;
      [|exact A0|exact A0].
    apply (round64_at_least 15); [lia|]. change (inject_Z 15) with 15. products. lra. }
  destruct (rounded _) as [e| |neg]; cbn [at_least] in A1; [|contradiction|subst neg].
  - assert (T3 : Qltb e 3 = false) by (apply Qltb_ge; lra).
    assert (T8 : Qltb e 8 = false) by (apply Qltb_ge; lra).
    assert (T15 : Qltb e 15 = false) by (apply Qltb_ge; lra).
    cbn [lt]. rewrite T3, T8, T15. reflexivity.
  - reflexivity.
Qed.

Lemma at_most_0_scaled (n : number) (c : Q) :
  0 < c -> at_most 0 n -> at_most 0 (rounded (div_const n c)).
Proof.
  intros Hc Hn. destruct n as [q| |neg]; cbn [at_most div_const rounded] in *;
    [|exact Hn|exact Hn].
  apply round64_at_most_0. unfold Qdiv.
  assert (0 < / c) by (apply Qinv_lt_0_compat; exact Hc). nra.
Qed.

Lemma status64_before (now created : Z) :
  (now - created < 0)%Z ->
  exists n, simulated_status64 now created = ("submitted", n) /\ at_most 0 n.
Proof.
  intros H. unfold simulated_status64.
  assert (B0 : inject_Z (now - created) <= 0)
    by (change 0 with (inject_Z 0); rewrite <- Zle_Qle; lia).
  set (X := inject_Z (now - created)) in *. clearbody X.
  cbn [rounded].
  pose proof (round64_at_most_0 X B0) as A0.
  pose proof (at_most_0_scaled _ 1000 ltac:(reflexivity) A0) as A1.
  set (e := rounded (div_const (round64 X) 1000)) in *. clearbody e.
  assert (T : lt e (Fin 3) = true).
  { destruct e as [v| |neg]; cbn [at_most lt] in *; [|contradiction|exact A1].
    apply Qltb_lt. lra. }
  rewrite T. eexists. split; [reflexivity|].
  pose proof (at_most_0_scaled _ 15 ltac:(reflexivity) A1) as A2.
  set (x := rounded (div_const e 15)) in *. clearbody x.
  assert (A3 : at_most 0 (rounded (mul x (Fin 100)))).
  { destruct x as [v| |neg]; cbn [at_most mul rounded] in *; [|contradiction|].
    - apply round64_at_most_0. lra.
    - subst neg. reflexivity. }
  destruct (rounded (mul x (Fin 100))) as [y| |neg]; cbn [at_most] in A3;
    [|contradiction|subst neg; reflexivity].
  rewrite math_min_below by lra. exact A3.
Qed.

(** The simulation, as binary64 arithmetic evaluates it, against the
    simulation on the rationals. *)
Lemma simulated_status64_agrees (now created : Z) :
  let exact := simulated_status (elapsed_seconds now created) in
  let s := simulated_status64 now created in
  fst s = sim_status exact
  /\ ((0 <= now - created < 15000)%Z ->
      exists p, snd s = Fin p /\ close p (sim_progress exact))
  /\ ((15000 <= now - created)%Z -> snd s = Fin 100)
  /\ ((now - created < 0)%Z -> at_most 0 (snd s)).
Proof.
  cbv zeta. unfold elapsed_seconds at 1 2.
  set (e := inject_Z (now - created) / 1000).
  assert (B : forall lo hi : Z,
             (lo <= now - created < hi)%Z -> inject_Z lo / 1000 <= e /\ e < inject_Z hi / 1000).
  { intros lo hi H. destruct (bounds_of _ _ _ H) as [B0 B1].
    assert (B2 : inject_Z (hi - 1) < inject_Z hi) by (rewrite <- Zlt_Qlt; lia).
    unfold e. products. lra. }
  assert (C : forall p a b : Q, close p a -> b == a -> close p b).
  { intros p a b H E. unfold close in *. rewrite E. exact H. }
  destruct (Z_lt_le_dec (now - created) 0) as [N|N].
  { destruct (status64_before _ _ N) as (n & -> & Hn).
    assert (E : e < 3).
    { assert (inject_Z (now - created) < inject_Z 0) by (rewrite <- Zlt_Qlt; exact N).
      change (inject_Z 0) with 0 in *. unfold e. products. lra. }
    destruct (progress_submitted e E) as [-> _].
    split; [reflexivity|]. split; [lia|]. split; [lia|]. intros _. exact Hn. }
  destruct (Z_lt_le_dec (now - created) 3000) as [H1|H1].
  { destruct (status64_submitted now created ltac:(lia)) as (p & -> & Hp).
    destruct (B 0%Z 3000%Z ltac:(lia)) as [E0 E].
    change (inject_Z 3000 / 1000) with (3000 / 1000) in E.
    assert (E' : e < 3) by (products; lra).
    destruct (progress_submitted e E') as [-> P].
    split; [reflexivity|]. split; [|split; lia].
    intros _. exists p. split; [reflexivity|]. exact (C _ _ _ Hp P). }
  destruct (Z_lt_le_dec (now - created) 8000) as [H2|H2].
  { destruct (status64_creating now created ltac:(lia)) as (p & -> & Hp).
    destruct (B 3000%Z 8000%Z ltac:(lia)) as [E0 E].
    change (inject_Z 3000 / 1000) with (3000 / 1000) in E0.
    change (inject_Z 8000 / 1000) with (8000 / 1000) in E.
    assert (E0' : 3 <= e) by (products; lra). assert (E' : e < 8) by (products; lra).
    destruct (progress_creating e E0' E') as [-> P].
    split; [reflexivity|]. split; [|split; lia].
    intros _. exists p. split; [reflexivity|]. exact (C _ _ _ Hp P). }
  destruct (Z_lt_le_dec (now - created) 15000) as [H3|H3].
  { destruct (status64_finalizing now created ltac:(lia)) as (p & -> & Hp).
    destruct (B 8000%Z 15000%Z ltac:(lia)) as [E0 E].
    change (inject_Z 8000 / 1000) with (8000 / 1000) in E0.
    change (inject_Z 15000 / 1000) with (15000 / 1000) in E.
    assert (E0' : 8 <= e) by (products; lra). assert (E' : e < 15) by (products; lra).
    destruct (progress_finalizing e E0' E') as [-> P].
    split; [reflexivity|]. split; [|split; lia].
    intros _. exists p. split; [reflexivity|]. exact (C _ _ _ Hp P). }
  rewrite (status64_completed now created H3).
  assert (E : 15 <= e).
  { assert (inject_Z 15000 <= inject_Z (now - created)) by (rewrite <- Zle_Qle; exact H3).
    change (inject_Z 15000) with 15000 in *. unfold e. products. lra. }
  destruct (progress_completed e E) as [-> _].
  split; [reflexivity|]. split; [lia|]. split; [reflexivity | lia].
Qed.

(** C2, as the code has it. The progress depends on the kind of job.
    - A simulated job (identifier [aps_...]) follows the seconds [e] elapsed
      since its creation: status submitted and progress [e * 20/3] before
      3 s (not above 0 when the clock reads less than the creation time),
      status inprogress and progress [25 + (e - 3) * 25/6] from 3 s to 8 s,
      status inprogress and progress [75 + (e - 8) * 20/7] from 8 s to 15 s,
      status success and progress 100 from 15 s on; the caps 25, 75 and 95
      are never reached. The three ramps are stated up to the rounding of
      the arithmetic.
    - A job of the real backend reports the status that the backend gives,
      with the progress of the table (pending 10, inprogress 50, success
      100, failed 0, cancelled 0, anything else 25); an answer without a
      body is reported as unknown with 25, a status call that fails as
      unknown with 50. The time of the poll does not enter.
    - A job that the queue does not know as one of the real backend is
      asked of the backend directly: the same table, or the answer 500.
    - A job of the first simulation (identifier [workitem_...]) follows the
      minutes elapsed since the time in its identifier: pending 25,
      inprogress 50 after 0.5, inprogress 75 after 1.5, success 100 after
      3.
    In every branch a response with status success has progress 100.
    Evaluated in binary64, the simulation gives the same status at every
    pair of clock readings, a progress within [close] of the one above
    during the 15 seconds, exactly 100 afterwards, and nothing above 0 when
    the clock reads less than the creation time. *)
Theorem progress_from_status_and_time
        (c c' : clock) (real : status_call) (direct : fetch_call)
        (workitemId : string) (queue : gmap string workitem) (w : workitem) :
  (startsWith workitemId "aps_" = true ->
   queue !! workitemId = Some w ->
   let e := elapsed_seconds (t_elapsed c) (createdAt w) in
   exists b queue',
     status_route c real direct workitemId queue = (Json200 b, queue')
     /\ ((e < 0 /\ r_status b = Some "submitted" /\ r_progress b <= 0)
         \/ (0 <= e /\ e < 3 /\ r_status b = Some "submitted"
             /\ close (r_progress b) (e * (20 # 3)))
         \/ (3 <= e /\ e < 8 /\ r_status b = Some "inprogress"
             /\ close (r_progress b) (25 + (e - 3) * (25 # 6)))
         \/ (8 <= e /\ e < 15 /\ r_status b = Some "inprogress"
             /\ close (r_progress b) (75 + (e - 8) * (20 # 7)))
         \/ (15 <= e /\ r_status b = Some "success" /\ r_progress b == 100)))
  /\ (startsWith workitemId "workitem_" = false ->
      startsWith workitemId "aps_" = false ->
      queue !! workitemId = Some w ->
      isRealAPS w = true ->
      exists b queue',
        status_route c real direct workitemId queue = (Json200 b, queue')
        /\ match real with
           | StatusReturned (Some st) => r_status b = st /\ follows_table st (r_progress b)
           | StatusReturned None => r_status b = Some "unknown" /\ r_progress b == 25
           | StatusRejected => r_status b = Some "unknown" /\ r_progress b == 50
           end
        /\ reported (fst (status_route c' real direct workitemId queue))
           = Some (r_status b, r_progress b))
  /\ (startsWith workitemId "workitem_" = false ->
      startsWith workitemId "aps_" = false ->
      (queue !! workitemId = None \/ (queue !! workitemId = Some w /\ isRealAPS w = false)) ->
      match direct with
      | Fetched r =>
          if ok r then
            exists b,
              status_route c real direct workitemId queue = (Json200 b, queue)
              /\ r_status b = Some (or_unknown (result_status r))
              /\ follows_table (result_status r) (r_progress b)
              /\ reported (fst (status_route c' real direct workitemId queue))
                 = Some (r_status b, r_progress b)
          else exists m, status_route c real direct workitemId queue = (Json500 m, queue)
      | FetchRejected m => status_route c real direct workitemId queue = (Json500 m, queue)
      end)
  /\ (startsWith workitemId "workitem_" = true ->
      let minutes := elapsedMinutes (t_elapsed c) workitemId in
      exists b,
        status_route c real direct workitemId queue = (Json200 b, queue)
        /\ ((gt minutes (Fin 3) = true
             /\ r_status b = Some "success" /\ r_progress b = 100)
            \/ (gt minutes (Fin 3) = false /\ gt minutes (Fin 1.5) = true
                /\ r_status b = Some "inprogress" /\ r_progress b = 75)
            \/ (gt minutes (Fin 1.5) = false /\ gt minutes (Fin 0.5) = true
                /\ r_status b = Some "inprogress" /\ r_progress b = 50)
            \/ (gt minutes (Fin 0.5) = false
                /\ r_status b = Some "pending" /\ r_progress b = 25)))
  /\ (forall b queue',
        status_route c real direct workitemId queue = (Json200 b, queue') ->
        r_status b = Some "success" -> r_progress b == 100)
  /\ (forall now created : Z,
        let exact := simulated_status (elapsed_seconds now created) in
        let s := simulated_status64 now created in
        fst s = sim_status exact
        /\ ((0 <= now - created < 15000)%Z ->
            exists p, snd s = Fin p /\ close p (sim_progress exact))
        /\ ((15000 <= now - created)%Z -> snd s = Fin 100)
        /\ ((now - created < 0)%Z -> at_most 0 (snd s))).
Proof.
  split; [|split; [|split; [|split; [|split]]]].
  - intros Hsim Hw e.
    rewrite (status_route_simulated _ _ _ _ _ Hsim). unfold poll_simulated. rewrite Hw.
    do 2 eexists. split; [reflexivity|]. simpl. fold e.
    destruct (phase_of e) as [(A & S & E)|[(A & A' & S & E)|[(A & A' & S & E)|(A & S & E)]]];
      rewrite S.
    + destruct (Qlt_le_dec e 0) as [N|N].
      * left. split; [exact N|]. split; [reflexivity|]. rewrite E. lra.
      * right; left. repeat (split; [first [assumption | reflexivity]|]).
        apply close_eq, E.
    + right; right; left. repeat (split; [first [assumption | reflexivity]|]).
      apply close_eq, E.
    + right; right; right; left. repeat (split; [first [assumption | reflexivity]|]).
      apply close_eq, E.
    + right; right; right; right. auto.
  - intros H1 H2 Hw Hreal. unfold status_route. rewrite H1, H2, Hw, Hreal.
    unfold poll_real. destruct real as [[st|]|]; do 2 eexists.
    + split; [reflexivity|]. split; [|reflexivity]. split; [reflexivity|].
      apply table_status.
    + split; [reflexivity|]. split; [|reflexivity]. split; reflexivity.
    + split; [reflexivity|]. split; [|reflexivity]. split; reflexivity.
  - intros H1 H2 Hq. unfold status_route. rewrite H1, H2.
    assert (E : forall k,
               match queue !! workitemId with
               | Some w0 => if isRealAPS w0 then poll_real k real workitemId w0 queue
                            else (poll_unknown k direct workitemId, queue)
               | None => (poll_unknown k direct workitemId, queue)
               end = (poll_unknown k direct workitemId, queue)).
    { intros k. destruct Hq as [->|[-> ->]]; reflexivity. }
    rewrite !E. unfold poll_unknown. destruct direct as [r|m]; [|reflexivity].
    destruct (ok r); [|eexists; reflexivity].
    eexists. split; [reflexivity|]. split; [reflexivity|]. split; [|reflexivity].
    apply table_status.
  - intros H1 minutes. unfold status_route. rewrite H1.
    eexists. split; [reflexivity|]. simpl.
    destruct (legacy_cases (t_elapsed c) workitemId) as [(A & S & P)|[(A & B & S & P)|
      [(A & B & S & P)|(A & S & P)]]]; rewrite S, P; auto 10.
  - intros b queue'. apply success_reports_100.
  - intros now created. apply simulated_status64_agrees.
Qed.

Lemma progress_from_status_and_time_witness :
  exists b queue',
    status_route (at_time 5000) StatusRejected (FetchRejected "unused")
      "aps_1000_k3x9" sample_queue = (Json200 b, queue')
    /\ r_status b = Some "inprogress" /\ close (r_progress b) (25 + (4 - 3) * (25 # 6)).
Proof.
  destruct (progress_from_status_and_time (at_time 5000) (at_time 0) StatusRejected
              (FetchRejected "unused") "aps_1000_k3x9" sample_queue sample_job)
    as [H _].
  destruct (H eq_refl eq_refl) as (b & queue' & Hr & Hcases).
  exists b, queue'. split; [exact Hr|].
  injection Hr as <- _. split; [reflexivity|]. vm_compute. discriminate.
Defined.

(** C2, counterexample. A simulated job polled at the instant of its
    creation is submitted with progress 0, where the rule of the
    specification gives 5. *)
Lemma claimed_progress_counterexample :
  exists b queue' p,
    status_route (at_time 1000) StatusRejected (FetchRejected "unused")
      "aps_1000_k3x9" sample_queue = (Json200 b, queue')
    /\ r_status b = Some "submitted"
    /\ claimed_progress "submitted" (elapsed_seconds 1000 (createdAt sample_job)) = Some p
    /\ p == 5
    /\ r_progress b == 0.
Proof.
  do 3 eexists. split; [reflexivity|]. split; [reflexivity|].
  split; [reflexivity|]. split; vm_compute; reflexivity.
Qed.

(** *** Submission *)

(** C1, counterexample. The backend refuses a local submission with status
    400: no simulated job is created, the queue is unchanged and the caller
    receives the failure. *)
Lemma configuration_error_counterexample :
  createFamilyWithAPS Backend.defaultParams (TargetString "local") 1000 1000 "k3x9"
    (Raised {| statusCode := None;
               err_message := Some "Workitem creation failed: 400 Bad Request - {}" |})
    (SetupDone (Returned None)) ∅
  = (NotCreated (Some not_configured_message), ∅).
Proof. reflexivity. Qed.

Lemma classify_cases (e : js_error) :
  (classify e = ConfigurationError
   <-> statusCode e = Some 400%Z \/ exists m, err_message e = Some m /\ includes m "400" = true)
  /\ (classify e = OtherError
      <-> statusCode e <> Some 400%Z
          /\ exists m, err_message e = Some m /\ includes m "400" = false)
  /\ (classify e = UnreadableError <-> statusCode e <> Some 400%Z /\ err_message e = None).
Proof.
  unfold classify. destruct (bool_decide (statusCode e = Some 400%Z)) eqn:B.
  - apply bool_decide_eq_true_1 in B. split; [|split].
    + split; [intros _; left; exact B | intros _; reflexivity].
    + split; [discriminate | intros [N _]; contradiction].
    + split; [discriminate | intros [N _]; contradiction].
  - apply bool_decide_eq_false_1 in B.
    destruct (err_message e) as [m|]; [destruct (includes m "400") eqn:I|].
    + split; [|split].
      * split; [intros _; right; exists m; auto | intros _; reflexivity].
      * split; [discriminate | intros (_ & m' & [= <-] & H'); congruence].
      * split; [discriminate | intros (_ & H'); discriminate H'].
    + split; [|split].
      * split; [discriminate|].
        intros [H'|(m' & [= <-] & H')]; [contradiction | congruence].
      * split; [intros _; split; [exact B | exists m; auto] | intros _; reflexivity].
      * split; [discriminate | intros (_ & H'); discriminate H'].
    + split; [|split].
      * split; [discriminate|].
        intros [H'|(m' & H' & _)]; [contradiction | discriminate H'].
      * split; [discriminate | intros (_ & m' & H' & _); discriminate H'].
      * split; [intros _; split; [exact B | reflexivity] | intros _; reflexivity].
Qed.

Lemma simulated_id_aps (t_id : Z) (random : string) :
  startsWith (simulated_id t_id random) "aps_" = true.
Proof. apply prefix_append. Qed.

(** The submissions to a folder write nothing and invent no job. *)
Lemma folder_result (p : Backend.apsParams) (targetFolder : string) (folder : folder_calls)
      (workitemId st : string) :
  createFamilyInFolder p targetFolder folder = Created workitemId st ->
  exists res,
    folder = SetupDone (Returned (Some res)) /\ res_statusCode res = 200%Z
    /\ workitemId = body_id (res_body res) /\ st = body_status (res_body res).
Proof.
  unfold createFamilyInFolder.
  destruct (_ <? 3)%nat; [discriminate|]. destruct (negb _); [discriminate|].
  destruct folder as [e|[[res|]|e]]; try discriminate.
  - destruct (Backend.FamilyType p =? 1)%Z; [|discriminate].
    destruct (Backend.Types _); [discriminate|].
    destruct (res_statusCode res =? 200)%Z eqn:E; [|discriminate].
    intros [= <- <-]. exists res. apply Z.eqb_eq in E. auto.
  - destruct (Backend.FamilyType p =? 1)%Z; [|discriminate].
    destruct (Backend.Types _); discriminate.
  - destruct (Backend.FamilyType p =? 1)%Z; [|discriminate].
    destruct (Backend.Types _); discriminate.
Qed.

(** C1, as the code has it. For a local download, when the submission to
    the real backend fails with a configuration error (status code 400, or a
    message that contains 400), no simulated job is substituted: the queue
    is unchanged and the caller receives a failure that says the backend is
    not configured. A failure with another status code and a message without
    400 is replaced by a simulated job, stored in the queue under an
    identifier that starts with [aps_], and the caller receives it as
    submitted; so is an answer of the backend that is empty or not 200. A
    failure with another status code and no message at all stores nothing
    and is reported to the caller with the error of reading the message. For
    every other target nothing is ever stored and no job is simulated: a
    job is reported only when the backend has answered 200, with the
    identifier the backend gave. *)
Theorem submission_failure_handling
        (p : Backend.apsParams) (targetFolder : target) (t_id t_created : Z) (random : string)
        (e : js_error) (backend : submit_outcome) (folder : folder_calls)
        (queue : gmap string workitem) :
  let simulated result :=
    exists workitemId,
      startsWith workitemId "aps_" = true
      /\ result = (Created workitemId "submitted",
                   <[workitemId := simulated_workitem p workitemId t_created]> queue) in
  ((statusCode e = Some 400%Z
    \/ exists m, err_message e = Some m /\ includes m "400" = true) ->
   createFamilyWithAPS p (TargetString "local") t_id t_created random (Raised e) folder queue
   = (NotCreated (Some not_configured_message), queue))
  /\ ((statusCode e <> Some 400%Z
       /\ exists m, err_message e = Some m /\ includes m "400" = false) ->
      simulated (createFamilyWithAPS p (TargetString "local") t_id t_created random
                   (Raised e) folder queue))
  /\ ((statusCode e <> Some 400%Z /\ err_message e = None) ->
      createFamilyWithAPS p (TargetString "local") t_id t_created random (Raised e) folder
        queue
      = (NotCreated (Some "Cannot read properties of undefined (reading 'includes')"),
         queue))
  /\ ((backend = Returned None
       \/ exists res, backend = Returned (Some res) /\ res_statusCode res <> 200%Z) ->
      simulated (createFamilyWithAPS p (TargetString "local") t_id t_created random
                   backend folder queue))
  /\ (targetFolder <> TargetString "local" ->
      snd (createFamilyWithAPS p targetFolder t_id t_created random backend folder queue)
      = queue
      /\ forall workitemId st,
           fst (createFamilyWithAPS p targetFolder t_id t_created random backend folder
                  queue)
           = Created workitemId st ->
           exists res,
             folder = SetupDone (Returned (Some res)) /\ res_statusCode res = 200%Z
             /\ workitemId = body_id (res_body res)).
Proof.
  cbv zeta. destruct (classify_cases e) as (C1 & C2 & C3).
  unfold createFamilyWithAPS. cbn [String.eqb Ascii.eqb Bool.eqb].
  unfold createFamilyLocal, recover.
  split; [|split; [|split; [|split]]].
  - intros H. apply C1 in H. rewrite H. reflexivity.
  - intros H. apply C2 in H. rewrite H.
    exists (simulated_id t_id random). split; [apply simulated_id_aps | reflexivity].
  - intros H. apply C3 in H. rewrite H. reflexivity.
  - intros [->|(res & -> & Hres)].
    + exists (simulated_id t_id random). split; [apply simulated_id_aps | reflexivity].
    + apply Z.eqb_neq in Hres. rewrite Hres.
      exists (simulated_id t_id random). split; [apply simulated_id_aps | reflexivity].
  - intros Hne. destruct targetFolder as [s|].
    + destruct (String.eqb s "local") eqn:E.
      { apply String.eqb_eq in E. subst s. contradiction. }
      split; [reflexivity|]. cbn [fst]. intros workitemId st H.
      destruct (folder_result _ _ _ _ _ H) as (res & F & R & I & _). eauto.
    + split; [reflexivity|]. cbn [fst]. intros workitemId st H. discriminate H.
Qed.

Lemma submission_failure_handling_witness :
  createFamilyWithAPS Backend.defaultParams (TargetString "local") 1000 1000 "k3x9"
    (Raised {| statusCode := Some 400%Z; err_message := None |}) (SetupDone (Returned None)) ∅
  = (NotCreated (Some not_configured_message), ∅)
  /\ (exists workitemId,
        startsWith workitemId "aps_" = true
        /\ createFamilyWithAPS Backend.defaultParams (TargetString "local") 1000 1000 "k3x9"
             (Raised {| statusCode := Some 503%Z; err_message := Some "Service Unavailable" |})
             (SetupDone (Returned None)) ∅
           = (Created workitemId "submitted",
              <[workitemId := simulated_workitem Backend.defaultParams workitemId 1000]> ∅))
  /\ createFamilyWithAPS Backend.defaultParams (TargetString "local") 1000 1000 "k3x9"
       (Raised {| statusCode := Some 503%Z; err_message := None |})
       (SetupDone (Returned None)) ∅
     = (NotCreated (Some "Cannot read properties of undefined (reading 'includes')"), ∅)
  /\ snd (createFamilyWithAPS Backend.defaultParams
            (TargetString "https://developer.api.autodesk.com/data/v1/projects/b.1/folders/urn:f")
            1000 1000 "k3x9" (Returned None)
            (SetupDone (Raised {| statusCode := Some 503%Z;
                                  err_message := Some "Service Unavailable" |})) ∅)
     = ∅.
Proof.
  destruct (submission_failure_handling Backend.defaultParams (TargetString "local")
              1000 1000 "k3x9" {| statusCode := Some 400%Z; err_message := None |}
              (Returned None) (SetupDone (Returned None)) ∅) as (A & _).
  destruct (submission_failure_handling Backend.defaultParams (TargetString "local")
              1000 1000 "k3x9"
              {| statusCode := Some 503%Z; err_message := Some "Service Unavailable" |}
              (Returned None) (SetupDone (Returned None)) ∅) as (_ & B & _).
  destruct (submission_failure_handling Backend.defaultParams (TargetString "local")
              1000 1000 "k3x9" {| statusCode := Some 503%Z; err_message := None |}
              (Returned None) (SetupDone (Returned None)) ∅) as (_ & _ & C & _).
  destruct (submission_failure_handling Backend.defaultParams
              (TargetString "https://developer.api.autodesk.com/data/v1/projects/b.1/folders/urn:f")
              1000 1000 "k3x9" {| statusCode := None; err_message := None |}
              (Returned None)
              (SetupDone (Raised {| statusCode := Some 503%Z;
                                    err_message := Some "Service Unavailable" |})) ∅)
    as (_ & _ & _ & _ & D).
  split; [apply A; left; reflexivity|].
  split; [apply B; split; [discriminate|]; exists "Service Unavailable"; split; reflexivity|].
  split; [apply C; split; [discriminate | reflexivity]|].
  apply D. discriminate.
Defined.

End TrackerProperties.

(** ** The SIR generator and the heuristic extractor *)
Module GeneratorProperties.
Import JsString JsNumber Regex Sir BIMLLMService.
Local Open Scope Q_scope.

(** C5. On the heuristic path the example prompt yields a SIR whose width is
    900/304.8 ft (2.9528 to four decimals), whose height is 1200/304.8 ft
    (3.9370), whose sill height is 900/304.8 ft (2.9528), whose inset is the
    default 0.05 ft and whose category is Windows; the window style submitted
    to the backend for it is DoubleHungWindow. *)
Theorem heuristic_example :
  exists s width height sillHeight inset,
    sir (generateDemoSIR example_prompt "session_1" 0) = DemoSIR s
    /\ parameter_default "Width" s = Some (VNum (Fin width))
    /\ parameter_default "Height" s = Some (VNum (Fin height))
    /\ parameter_default "SillHeight" s = Some (VNum (Fin sillHeight))
    /\ parameter_default "Inset" s = Some (VNum (Fin inset))
    /\ width == 900 / 304.8 /\ Qabs (width - 2.9528) < 0.00005
    /\ height == 1200 / 304.8 /\ Qabs (height - 3.9370) < 0.00005
    /\ sillHeight == 900 / 304.8 /\ Qabs (sillHeight - 2.9528) < 0.00005
    /\ inset == 0.05
    /\ category (metadata s) = "Windows"
    /\ Backend.WindowStyle (Backend.WindowParams (Backend.convertSIRToAPSParams s))
       = "DoubleHungWindow".
Proof.
  exists (demoFamily example_prompt), (9000 # 3048), (12000 # 3048), (9000 # 3048), 0.05.
  repeat split; vm_compute; reflexivity.
Qed.

End GeneratorProperties.

(** ** The QA gateway *)
Module QAProperties.
Import JsString JsNumber Regex Sir QAGateway.
Local Open Scope Z_scope.

Lemma within_fresh : within fresh.
Proof. unfold within, findings. simpl. lia. Qed.

Lemma length_push (l : list string) (m : string) : length (push l m) = S (length l).
Proof. unfold push. rewrite length_app. simpl. lia. Qed.

Lemma within_issue (m : string) (pts : Z) (r : results) :
  5 <= pts <= 40 -> within r -> within (issue m pts r).
Proof.
  unfold within, findings, issue. simpl. rewrite length_push. lia.
Qed.

Lemma within_warning (m : string) (pts : Z) (r : results) :
  5 <= pts <= 40 -> within r -> within (warning m pts r).
Proof.
  unfold within, findings, warning. simpl. rewrite length_push. lia.
Qed.

Lemma within_when (b : bool) (f : results -> results) (r : results) :
  (within r -> within (f r)) -> within r -> within (when b f r).
Proof. unfold when. destruct b; auto. Qed.

Lemma within_forEach {A} (f : A -> nat -> results -> results) (l : list A) :
  (forall a i r, within r -> within (f a i r)) ->
  forall i r, within r -> within (forEach_from i f l r).
Proof.
  intros Hf. induction l as [|a l IH]; intros i r Hr; simpl; [exact Hr|].
  apply IH, Hf, Hr.
Qed.

Lemma within_forEach_run {A} (f : A -> nat -> results -> run) (l : list A) :
  (forall a i r, within r -> within_run (f a i r)) ->
  forall i r, within r -> within_run (forEach_run_from i f l r).
Proof.
  intros Hf. induction l as [|a l IH]; intros i r Hr; simpl; [exact Hr|].
  specialize (Hf a i r Hr). destruct (f a i r) as [r'|r' m]; simpl; [|exact I].
  apply IH, Hf.
Qed.

Lemma scored_finish (label : string) (o : run) : within_run o -> scored (finish label o).
Proof.
  destruct o as [r|r m]; simpl; intros H; [left; exact H|].
  right. repeat split. unfold push. destruct (issues r); discriminate.
Qed.

Lemma scored_le_100 (r : results) : scored r -> score r <= 100.
Proof.
  unfold scored, within, findings. intros [H|[H _]]; lia.
Qed.

Ltac step :=
  match goal with
  | |- within (when _ _ _) => apply within_when; [intros ?|]
  | |- within (issue _ _ _) => apply within_issue; [lia|]
  | |- within (warning _ _ _) => apply within_warning; [lia|]
  | |- within (forEach _ _ _) => apply within_forEach; [intros ? ? ? ?|]
  | |- within (if ?b then _ else _) => destruct b
  | |- within (match ?o with Some _ => _ | None => _ end) => destruct o
  | |- within fresh => exact within_fresh
  | |- within _ => assumption
  end.

Lemma geometry_within (sir : SIR) : within (geometry_body sir fresh).
Proof.
  unfold geometry_body, geometry_lod, check_extrusion, check_plane, check_constraint.
  repeat step.
Qed.

Lemma check_parameter_within all param names r :
  within r -> within (snd (check_parameter all param (names, r))).
Proof.
  intros H. unfold check_parameter. simpl.
  destruct (formula param) as [f|]; [destruct (JsString.truthy f);
    [destruct (validateFormula f all)|]|]; repeat step.
Qed.

Lemma fold_parameters_within all (l : list familyParameter) st :
  within (snd st) ->
  within (snd (List.fold_left (fun st p => check_parameter all p st) l st)).
Proof.
  revert st. induction l as [|p l IH]; intros [names r] H; simpl; [exact H|].
  apply IH, check_parameter_within, H.
Qed.

Lemma check_value_within sir t entry i r : within r -> within_run (check_value sir t entry i r).
Proof.
  intros H. unfold check_value. destruct entry as [paramName value].
  destruct (familyParameters (params sir)) as [all|]; [|exact I].
  destruct (List.find _ all) as [paramDef|]; [|exact H].
  destruct (validateParameterValue value (param_type paramDef)); simpl; repeat step.
Qed.

Lemma check_type_within sir t i r : within r -> within_run (check_type sir t i r).
Proof.
  intros H. unfold check_type.
  destruct (type_parameters t) as [entries|]; simpl.
  - apply within_forEach_run; [intros; apply check_value_within; assumption|].
    repeat step.
  - repeat step.
Qed.

Lemma parameters_checks_within (sir : SIR) (r : results) :
  within r -> within_run (parameters_checks sir r).
Proof.
  intros H1. unfold parameters_checks.
  destruct (familyParameters (params sir)) as [all|]; [|exact H1].
  pose proof (fold_parameters_within all all ([], r) H1) as H.
  destruct (List.fold_left _ all ([], r)) as [names r']. simpl in H.
  destruct (getEssentialParameters _) as [essentialParams|]; [|exact I]. simpl.
  unfold check_essential. repeat step.
Qed.

Lemma parameters_within (sir : SIR) : within_run (parameters_body sir fresh).
Proof.
  unfold parameters_body.
  set (r1 := when _ _ fresh). assert (H1 : within r1) by (subst r1; repeat step).
  clearbody r1.
  pose proof (parameters_checks_within sir r1 H1) as H2.
  destruct (parameters_checks sir r1) as [r2|r2 m]; simpl; [|exact I].
  simpl in H2.
  destruct (familyTypes (params sir)) as [types|]; [|exact H2].
  apply within_forEach_run; [intros; apply check_type_within; assumption | exact H2].
Qed.

Lemma performance_within sir code : within_run (performance_body sir code fresh).
Proof.
  unfold performance_body. destruct code as [code|]; [|exact I]. simpl.
  unfold performance_checks. repeat step.
Qed.

Lemma compliance_within sir :
  within (apply_compliance (validateCategoryCompliance sir)
            (apply_compliance (validateIndustryStandards sir)
               (apply_compliance (validateBEPCompliance sir) fresh))).
Proof. exact within_fresh. Qed.

Lemma flexing_within sir : within (flexing_body sir fresh).
Proof.
  unfold flexing_body.
  assert (H : within (forEach (check_scenario sir) (generateFlexingScenarios sir) fresh)).
  { apply within_forEach; [|exact within_fresh].
    intros sc i r Hr. unfold check_scenario.
    destruct (validateFlexingScenario sc sir); repeat step. }
  destruct (constraints (geometry sir)); exact H.
Qed.

Lemma metadata_within showFraction sir : within (metadata_body showFraction sir fresh).
Proof.
  unfold metadata_body, missing_metadata. repeat step.
Qed.

(** C3, as the code has it. Each of the six results of the QA gateway has an
    integer score that is at most 100. The score starts at 100 and every
    issue or warning found lowers it by a fixed deduction of 5 to 40 points:
    with n findings it lies between 100 - 40 n and 100 - 5 n, and nothing
    stops it at 0. Only a pass that throws reports 0, with pass false. *)
Theorem scores_bounded_above (showFraction : Q -> string) (sir : SIR)
        (generatedCode : option string) :
  Forall (fun r => score r <= 100 /\ scored r)
         (passes (validateFamily showFraction sir generatedCode)).
Proof.
  assert (H : Forall scored (passes (validateFamily showFraction sir generatedCode))).
  { unfold passes, validateFamily. simpl.
    constructor; [apply scored_finish, geometry_within|].
    constructor; [apply scored_finish, parameters_within|].
    constructor; [apply scored_finish, performance_within|].
    constructor; [apply scored_finish, compliance_within|].
    constructor; [apply scored_finish, flexing_within|].
    constructor; [|constructor].
    apply scored_finish. exact (metadata_within showFraction sir). }
  eapply Forall_impl; [exact H|]. intros r Hr. split; [apply scored_le_100|]; exact Hr.
Qed.

(** C3, counterexample. The geometry pass of a SIR with six extrusions
    without a profile finds six issues of 20 points each: its score is
    -20. *)
Lemma score_below_zero_counterexample :
  score (validateGeometry six_bare_extrusions) = -20
  /\ length (issues (validateGeometry six_bare_extrusions)) = 6%nat
  /\ In (validateGeometry six_bare_extrusions)
        (passes (validateFamily (fun _ => EmptyString) six_bare_extrusions None)).
Proof. split; [reflexivity|]. split; [reflexivity|]. left. reflexivity. Qed.

(** C9. For every input text the SIR of the heuristic extractor has exactly
    the six family parameters Width, Height, SillHeight, Inset,
    GlassPaneMaterial and SashMaterial, in this order, with names that are
    pairwise distinct and match the identifier pattern and with types of the
    valid enumeration; the parameter pass of the QA gateway reports no
    duplicate-name, name-format or invalid-type issue for it. *)
Theorem heuristic_parameters_well_formed (text : string) :
  exists l,
    familyParameters (params (BIMLLMService.demoFamily text)) = Some l
    /\ List.map param_name l
       = ["Width"; "Height"; "SillHeight"; "Inset"; "GlassPaneMaterial"; "SashMaterial"]
    /\ NoDup (List.map param_name l)
    /\ Forall (fun p => test namePattern (param_name p) = true
                        /\ member (param_type p) validTypes = true) l
    /\ Forall (fun msg => declaration_issue msg = false)
              (issues (validateParameters (BIMLLMService.demoFamily text))).
Proof.
  unfold BIMLLMService.demoFamily.
  generalize (BIMLLMService.extract_width (toLowerCase text)) as width.
  generalize (BIMLLMService.extract_height (toLowerCase text)) as height.
  generalize (BIMLLMService.extract_sillHeight (toLowerCase text)) as sillHeight.
  generalize (BIMLLMService.extract_inset (toLowerCase text)) as inset.
  generalize (BIMLLMService.extract_glassMaterial (toLowerCase text)) as glassMaterial.
  generalize (BIMLLMService.extract_sashMaterial (toLowerCase text)) as sashMaterial.
  intros sashMaterial glassMaterial inset sillHeight height width.
  unfold BIMLLMService.customize.
  destruct (includes (toLowerCase text) "door");
    [|destruct (includes (toLowerCase text) "window");
      [|destruct (includes (toLowerCase text) "furniture")]].
  all: eexists; split; [reflexivity|]; split; [reflexivity|].
  all: split; [apply (bool_decide_unpack _); vm_compute; exact I|].
  all: split; [repeat (constructor; [split; vm_compute; reflexivity|]); constructor|].
  all: destruct width, height, sillHeight, inset.
  all: set (found := issues _); vm_compute in found; subst found.
  all: repeat (constructor; [reflexivity|]); constructor.
Qed.

End QAProperties.

(** ** The SIR-to-backend parameter mapping *)
Module BackendProperties.
Import JsString JsNumber Sir Backend.

(** C6, as the code has it. When the [try] block completes, the width
    (respectively the height) submitted is the default value of the first
    family parameter whose lower-cased name contains [width] (respectively
    [height]); when there is no such parameter, or its default value is
    falsy, the width submitted is 200 and the height 1100. The values 2 and
    4 are those of the [catch] block only. *)
Theorem missing_dimensions_default_to_200_and_1100 (sir : SIR) (p : apsParams) :
  convert_body sir = Some p ->
  let ps := list_or_empty (familyParameters (params sir)) in
  let named key := fun q => includes (toLowerCase (param_name q)) key in
  convertSIRToAPSParams sir = p
  /\ submitted_width p
     = Some match List.find (named "width") ps with
            | Some q => value_or (defaultValue q) (VNum (Fin 200))
            | None => VNum (Fin 200)
            end
  /\ submitted_height p
     = Some match List.find (named "height") ps with
            | Some q => value_or (defaultValue q) (VNum (Fin 1100))
            | None => VNum (Fin 1100)
            end
  /\ submitted_width defaultParams = Some (VNum (Fin 2))
  /\ submitted_height defaultParams = Some (VNum (Fin 4)).
Proof.
  intros H ps named. split.
  - unfold convertSIRToAPSParams. rewrite H. reflexivity.
  - unfold convert_body in H.
    destruct (detect_windowType _ sir) as [windowType|]; [|discriminate H].
    injection H as <-. repeat split.
Qed.

Lemma missing_dimensions_default_to_200_and_1100_witness :
  submitted_width (convertSIRToAPSParams shelf) = Some (VNum (Fin 200))
  /\ submitted_height (convertSIRToAPSParams shelf) = Some (VNum (Fin 1100)).
Proof.
  destruct (missing_dimensions_default_to_200_and_1100 shelf _ eq_refl)
    as (E & W & H & _).
  rewrite E. split; [exact W | exact H].
Defined.

End BackendProperties.

(** ** The code emitter *)
Module EmitterProperties.
Import JsString JsNumber Regex Sir SIRToCodeInterpreter StringProperties RegexProperties.
Local Open Scope Z_scope.

(** *** The time stamp holds no line terminator *)

Lemma digit_char_no_terminator (d : Z) : is_line_terminator (Clock.digit_char d) = false.
Proof.
  unfold Clock.digit_char.
  assert (H : 0 <= d mod 10 < 10) by (apply Z.mod_pos_bound; lia).
  assert (C : d mod 10 = 0 \/ d mod 10 = 1 \/ d mod 10 = 2 \/ d mod 10 = 3 \/ d mod 10 = 4
              \/ d mod 10 = 5 \/ d mod 10 = 6 \/ d mod 10 = 7 \/ d mod 10 = 8 \/ d mod 10 = 9)
    by lia.
  destruct C as [E|[E|[E|[E|[E|[E|[E|[E|[E|E]]]]]]]]]; rewrite E; reflexivity.
Qed.

Lemma pad_no_terminator (n : nat) (v : Z) : no_terminator (Clock.pad n v) = true.
Proof.
  revert v. induction n as [|n IH]; intros v; [reflexivity|].
  simpl Clock.pad. rewrite no_terminator_append, IH. simpl.
  rewrite digit_char_no_terminator. reflexivity.
Qed.

Lemma year_no_terminator (y : Z) : no_terminator (Clock.year_string y) = true.
Proof.
  unfold Clock.year_string. destruct ((0 <=? y) && (y <=? 9999)).
  - apply pad_no_terminator.
  - rewrite no_terminator_append, pad_no_terminator. destruct (y <? 0); reflexivity.
Qed.

Lemma toISOString_no_terminator (t : Z) : no_terminator (Clock.toISOString t) = true.
Proof.
  unfold Clock.toISOString. destruct (Clock.civil_from_days _) as [[y m] d].
  rewrite !no_terminator_append, year_no_terminator, !pad_no_terminator. reflexivity.
Qed.

(** *** The time stamp holds no capital A *)

Lemma digit_char_not_A (d : Z) : Ascii.eqb "A" (Clock.digit_char d) = false.
Proof.
  unfold Clock.digit_char.
  assert (H : 0 <= d mod 10 < 10) by (apply Z.mod_pos_bound; lia).
  assert (C : d mod 10 = 0 \/ d mod 10 = 1 \/ d mod 10 = 2 \/ d mod 10 = 3 \/ d mod 10 = 4
              \/ d mod 10 = 5 \/ d mod 10 = 6 \/ d mod 10 = 7 \/ d mod 10 = 8 \/ d mod 10 = 9)
    by lia.
  destruct C as [E|[E|[E|[E|[E|[E|[E|[E|[E|E]]]]]]]]]; rewrite E; reflexivity.
Qed.

Lemma pad_without_A (n : nat) (v : Z) : without "A" (Clock.pad n v) = true.
Proof.
  revert v. induction n as [|n IH]; intros v; [reflexivity|].
  simpl Clock.pad. rewrite without_append, IH. cbn [without andb].
  rewrite digit_char_not_A. reflexivity.
Qed.

Lemma year_without_A (y : Z) : without "A" (Clock.year_string y) = true.
Proof.
  unfold Clock.year_string. destruct ((0 <=? y) && (y <=? 9999)).
  - apply pad_without_A.
  - rewrite without_append, pad_without_A. destruct (y <? 0); reflexivity.
Qed.

Lemma toISOString_without_A (t : Z) : without "A" (Clock.toISOString t) = true.
Proof.
  unfold Clock.toISOString. destruct (Clock.civil_from_days _) as [[y m] d].
  rewrite !without_append, year_without_A, !pad_without_A. reflexivity.
Qed.

(** *** The shape of the code before the optimizations *)

Lemma combine_imports (s : codeSections) :
  combineCodeSections s = imports s ++ (nl ++ nl) ++ combined_rest s.
Proof. reflexivity. Qed.

Lemma imports_headed (sir : SIR) (t : Z) :
  generateImports sir t = headed (Clock.toISOString t) (imports_tail sir).
Proof.
  unfold generateImports, headed, imports_tail.
  destruct (String.eqb (category (metadata sir)) "Doors");
    [|destruct (String.eqb (category (metadata sir)) "Windows");
      [|destruct (includes (category (metadata sir)) "Structural")]];
    reflexivity.
Qed.

Lemma headed_append (stamp tail more : string) :
  headed stamp tail ++ more = headed stamp (tail ++ more).
Proof. unfold headed. rewrite !append_assoc. reflexivity. Qed.

(** The deletion of the comments takes the line of the time stamp away. *)
Lemma remove_comment_line (body s : string) :
  no_terminator body = true ->
  remove_all (line_from "# ") ("# " ++ body ++ nl ++ s) = remove_all (line_from "# ") s.
Proof. intros H. apply (remove_line "# " body s); [discriminate | exact H]. Qed.

Lemma uncommented_headed (stamp tail : string) :
  no_terminator stamp = true ->
  remove_all (line_from "# ") (headed stamp tail)
  = preamble ++ remove_all (line_from "# ") tail.
Proof.
  intros H. unfold headed.
  rewrite (remove_prefix_without "# " preamble _ "#" " " eq_refl) by reflexivity.
  rewrite remove_comment_line by reflexivity.
  rewrite remove_comment_line; [reflexivity|].
  rewrite no_terminator_append, H. reflexivity.
Qed.

Lemma headed_stamp (stamp tail : string) :
  headed stamp tail = stamp_prefix ++ stamp ++ nl ++ tail.
Proof. reflexivity. Qed.

(** The deletion of the lines with [Array.Create] keeps the head of the
    code, time stamp included. *)
Lemma arrays_headed (stamp tail : string) :
  without "A" stamp = true ->
  remove_all (line_from "Array.Create") (headed stamp tail)
  = stamp_prefix ++ stamp ++ remove_all (line_from "Array.Create") (nl ++ tail).
Proof.
  intros H. rewrite headed_stamp.
  rewrite (remove_prefix_nowhere "Array.Create" stamp_prefix) by (discriminate || reflexivity).
  rewrite (remove_prefix_without "Array.Create" stamp _ "A" "rray.Create" eq_refl H).
  reflexivity.
Qed.

Section Determinism.
Variable showFraction : Q -> string.

(** Above LOD 200 the optimized code is the head of the code with the time
    stamp, followed by a text that does not depend on the clock. *)
Lemma high_lod_code_stamped (sir : SIR) :
  lowLOD sir = false ->
  exists after, forall t,
    applyPerformanceOptimizations
      (combineCodeSections (generateSections showFraction sir t)) sir
    = stamp_prefix ++ Clock.toISOString t ++ after.
Proof.
  intros Hhigh.
  exists (remove_all (line_from "Array.Create")
            (nl ++ imports_tail sir ++ (nl ++ nl)
                ++ combined_rest (generateSections showFraction sir 0))).
  intros t. unfold applyPerformanceOptimizations, minimize_voids, optimize_arrays.
  rewrite Hhigh. rewrite combine_imports. cbn [imports generateSections].
  rewrite imports_headed, headed_append.
  apply arrays_headed, toISOString_without_A.
Qed.

(** At LOD 200 and below the optimized code does not depend on the clock. *)
Lemma low_lod_code_ignores_clock (sir : SIR) (t t' : Z) :
  lowLOD sir = true ->
  applyPerformanceOptimizations
    (combineCodeSections (generateSections showFraction sir t)) sir
  = applyPerformanceOptimizations
      (combineCodeSections (generateSections showFraction sir t')) sir.
Proof.
  intros Hlow. unfold applyPerformanceOptimizations. rewrite Hlow.
  assert (E : forall u,
             remove_all (line_from "# ")
               (combineCodeSections (generateSections showFraction sir u))
             = preamble ++ remove_all (line_from "# ")
                             (imports_tail sir ++ (nl ++ nl)
                                ++ combined_rest (generateSections showFraction sir 0))).
  { intros u. rewrite combine_imports. cbn [imports generateSections].
    rewrite imports_headed, headed_append.
    apply uncommented_headed, toISOString_no_terminator. }
  rewrite (E t), (E t'). reflexivity.
Qed.

(** C7, as the code has it. For every SIR that the emitter accepts, two
    invocations (at any clock readings) both produce code. At LOD 200 and
    below, where the comments are stripped, the two code strings are
    identical; above LOD 200 they are identical except for the time stamp of
    the comment line [# Generated at:]. The sections are the same apart from
    that time stamp in the imports, and the metadata are the same apart from
    [generatedAt] (and [codeLength]). Two invocations that read the same
    times produce the identical code and metadata. *)
Theorem emitter_deterministic_up_to_clock (sir : SIR) (t1 t2 t1' t2' : Z) :
  validateSIR sir = None ->
  exists code meta sections code' meta' sections',
    translateSIRToCode showFraction sir t1 t2 = Translated code meta sections
    /\ translateSIRToCode showFraction sir t1' t2' = Translated code' meta' sections'
    /\ (lowLOD sir = true -> code = code')
    /\ (lowLOD sir = false ->
        exists after, code = stamp_prefix ++ Clock.toISOString t1 ++ after
                      /\ code' = stamp_prefix ++ Clock.toISOString t1' ++ after)
    /\ (t1 = t1' -> code = code' /\ (t2 = t2' -> meta = meta'))
    /\ imports sections = headed (Clock.toISOString t1) (imports_tail sir)
    /\ imports sections' = headed (Clock.toISOString t1') (imports_tail sir)
    /\ combined_rest sections = combined_rest sections'
    /\ m_familyName meta = m_familyName meta' /\ m_category meta = m_category meta'
    /\ m_lodLevel meta = m_lodLevel meta'
    /\ estimatedExecutionTime meta = estimatedExecutionTime meta'
    /\ complexityScore meta = complexityScore meta'
    /\ performanceOptimizations meta = performanceOptimizations meta'
    /\ generatedAt meta = Clock.toISOString t2
    /\ generatedAt meta' = Clock.toISOString t2'.
Proof.
  intros Hvalid. unfold translateSIRToCode. rewrite Hvalid.
  do 6 eexists. split; [reflexivity|]. split; [reflexivity|].
  split; [apply low_lod_code_ignores_clock|].
  split.
  { intros Hhigh. destruct (high_lod_code_stamped sir Hhigh) as [after Hafter].
    exists after. split; apply Hafter. }
  split; [intros <-; split; [reflexivity | intros <-; reflexivity]|].
  split; [apply imports_headed|]. split; [apply imports_headed|].
  repeat split.
Qed.

End Determinism.

Lemma emitter_deterministic_up_to_clock_witness :
  exists code meta sections code' meta' sections',
    translateSIRToCode no_fraction coarse_box 0 5 = Translated code meta sections
    /\ translateSIRToCode no_fraction coarse_box 86400000 86400007
       = Translated code' meta' sections'
    /\ code = code'
    /\ generatedAt meta = "1970-01-01T00:00:00.005Z"
    /\ generatedAt meta' = "1970-01-02T00:00:00.007Z".
Proof.
  destruct (emitter_deterministic_up_to_clock no_fraction coarse_box 0 5 86400000 86400007
              eq_refl)
    as (code & meta & sections & code' & meta' & sections' & H1 & H2 & Hlow & _ & _ & _ & _
        & _ & _ & _ & _ & _ & _ & _ & G1 & G2).
  exists code, meta, sections, code', meta', sections'.
  split; [exact H1|]. split; [exact H2|]. split; [apply Hlow; reflexivity|].
  split; [exact G1 | exact G2].
Defined.

(** C7, counterexample. The box at LOD 300, emitted at two times one second
    apart: the two code strings differ (in the line of the time stamp), and so
    do the two metadata. *)
Lemma emitter_not_deterministic_counterexample :
  exists code meta sections code' meta' sections',
    validateSIR box = None
    /\ translateSIRToCode no_fraction box 0 0 = Translated code meta sections
    /\ translateSIRToCode no_fraction box 1000 1000 = Translated code' meta' sections'
    /\ String.eqb code code' = false
    /\ String.eqb (generatedAt meta) (generatedAt meta') = false
    /\ includes code "# Generated at: 1970-01-01T00:00:00.000Z" = true
    /\ includes code' "# Generated at: 1970-01-01T00:00:01.000Z" = true.
Proof.
  do 6 eexists. split; [reflexivity|].
  split; [reflexivity|]. split; [reflexivity|].
  repeat split; vm_compute; reflexivity.
Qed.

End EmitterProperties.

(** ** The matcher reads what its pattern describes *)
Module RegexSoundness.
Import JsString Regex StringProperties RegexProperties.

Lemma append_empty_r (a : string) : a ++ EmptyString = a.
Proof. induction a as [|ch a IH]; [reflexivity|]. rewrite append_cons, IH. reflexivity. Qed.

Lemma substring_append (w x : string) : String.substring 0 (String.length w) (w ++ x) = w.
Proof.
  induction w as [|ch w IH]; [destruct x; reflexivity|].
  rewrite append_cons. simpl. rewrite IH. reflexivity.
Qed.

(** What a successful run has read and captured. *)
Definition reads (r : regex) (c : cursor) (cs : captures)
           (k : cursor -> captures -> option result) (res : result) : Prop :=
  exists w c' cs',
    matches r w cs cs' /\ rest c = w ++ rest c'
    /\ pos c' = pos c + String.length w /\ k c' cs' = Some res.

Lemma iterate_sound (r : regex) (min : nat) (max : option nat)
      (k : cursor -> captures -> option result) (res : result) :
  (forall c cs k, run r c cs k = Some res -> reads r c cs k res) ->
  forall fuel count c cs,
    iterate (run r) (groups_of r) min max k fuel count c cs = Some res ->
    exists n w c' cs',
      min <= count + n
      /\ rounds (fun w a b => matches r w (clear (groups_of r) a) b) n w cs cs'
      /\ rest c = w ++ rest c' /\ pos c' = pos c + String.length w
      /\ k c' cs' = Some res.
Proof.
  intros IH. induction fuel as [|fuel IHf]; intros count c cs H; [discriminate H|].
  rewrite iterate_step in H.
  destruct (if below count max then _ else None) as [res'|] eqn:A.
  - injection H as ->. destruct (below count max); [|discriminate A].
    apply IH in A. destruct A as (w1 & c1 & cs1 & M1 & R1 & P1 & K1).
    destruct (Nat.leb min count && Nat.eqb (pos c1) (pos c)); [discriminate K1|].
    apply IHf in K1. destruct K1 as (n & w2 & c2 & cs2 & Hn & M2 & R2 & P2 & K2).
    exists (S n), (w1 ++ w2), c2, cs2. split; [lia|]. split.
    { exists w1, w2, cs1. auto. }
    split; [rewrite R1, R2, append_assoc; reflexivity|].
    split; [rewrite P2, P1, length_append; lia | exact K2].
  - destruct (Nat.leb min count) eqn:L; [|discriminate H].
    apply Nat.leb_le in L.
    exists 0, EmptyString, c, cs. split; [lia|]. split; [split; reflexivity|].
    split; [reflexivity|]. split; [simpl; lia | exact H].
Qed.

Lemma run_sound (r : regex) :
  forall c cs k res, run r c cs k = Some res -> reads r c cs k res.
Proof.
  induction r as [|a|p|r1 IH1 r2 IH2|r1 IH1 r2 IH2|r IH min max|n r IH| |];
    intros c cs k res H.
  - exists EmptyString, c, cs. simpl. repeat split; try reflexivity; [lia | exact H].
  - rewrite run_lit in H. destruct (rest c) as [|b s'] eqn:E; [discriminate H|].
    destruct (Ascii.eqb a b) eqn:Eab; [|discriminate H]. apply Ascii.eqb_eq in Eab. subst b.
    exists (String a EmptyString), (step c s'), cs. simpl. rewrite E.
    repeat split; try reflexivity; [lia | exact H].
  - rewrite run_class in H. destruct (rest c) as [|b s'] eqn:E; [discriminate H|].
    destruct (p b) eqn:Pb; [|discriminate H].
    exists (String b EmptyString), (step c s'), cs. simpl. rewrite E.
    repeat split; try reflexivity; [exists b; auto | lia | exact H].
  - rewrite run_seq in H. apply IH1 in H. destruct H as (w1 & c1 & cs1 & M1 & R1 & P1 & K1).
    apply IH2 in K1. destruct K1 as (w2 & c2 & cs2 & M2 & R2 & P2 & K2).
    exists (w1 ++ w2), c2, cs2. split; [exists w1, w2, cs1; auto|].
    split; [rewrite R1, R2, append_assoc; reflexivity|].
    split; [rewrite P2, P1, length_append; lia | exact K2].
  - simpl in H. destruct (run r1 c cs k) as [res'|] eqn:A.
    + injection H as ->. apply IH1 in A. destruct A as (w & c' & cs' & M & R & P & K).
      exists w, c', cs'. simpl. auto.
    + apply IH2 in H. destruct H as (w & c' & cs' & M & R & P & K).
      exists w, c', cs'. simpl. auto.
  - rewrite run_repeat in H.
    apply (iterate_sound r min max k res (fun c cs k => IH c cs k res)) in H.
    destruct H as (n & w & c' & cs' & Hn & M & R & P & K).
    exists w, c', cs'. split; [exists n; split; [lia | exact M]|]. auto.
  - simpl in H. apply IH in H. destruct H as (w & c' & cs' & M & R & P & K).
    exists w, c', ((n, w) :: clear [n] cs'). split; [exists cs'; auto|].
    split; [exact R|]. split; [exact P|].
    rewrite <- K. f_equal. f_equal. f_equal.
    rewrite P, R. replace (pos c + String.length w - pos c) with (String.length w) by lia.
    symmetry. apply substring_append.
  - simpl in H. destruct (Nat.eqb (pos c) 0); [|discriminate H].
    exists EmptyString, c, cs. simpl. repeat split; try reflexivity; [lia | exact H].
  - simpl in H. destruct (rest c) eqn:E; [|discriminate H].
    exists EmptyString, c, cs. simpl. rewrite E. repeat split; try reflexivity; [lia | exact H].
Qed.

End RegexSoundness.

(** ** The heuristic extractor on every prompt *)
Module ExtractorProperties.
Import JsString JsNumber Regex Sir BIMLLMService StringProperties RegexProperties RegexSoundness.

(** *** Matches of the patterns *)

Lemma match_at_sound (r : regex) (i : nat) (s : string) (c' : cursor) (cs : captures) :
  match_at r {| pos := i; rest := s |} = Some (c', cs) ->
  exists post, s = String.substring 0 (pos c' - i) s ++ post
               /\ matches r (String.substring 0 (pos c' - i) s) [] cs.
Proof.
  intros A. apply run_sound in A.
  destruct A as (w & c1 & cs1 & M & R & P & K). injection K as -> ->.
  change (s = w ++ rest c') in R. change (pos c' = i + String.length w) in P.
  replace (pos c' - i) with (String.length w) by lia.
  pose proof (substring_append w (rest c')) as Sb. rewrite <- R in Sb. rewrite Sb.
  exists (rest c'). auto.
Qed.

Lemma search_sound (r : regex) :
  forall s i m,
    search r i s = Some m ->
    exists pre post,
      s = pre ++ matched m ++ post /\ matches r (matched m) [] (groups m).
Proof.
  induction s as [|ch s IH]; intros i m H; cbn [search] in H.
  - destruct (match_at r _) as [[c' cs]|] eqn:A; [|discriminate H].
    injection H as <-. apply match_at_sound in A as (post & E & M).
    exists EmptyString, post. auto.
  - remember (String ch s) as t eqn:Et.
    destruct (match_at r _) as [[c' cs]|] eqn:A.
    + injection H as <-. apply match_at_sound in A as (post & E & M).
      exists EmptyString, post. auto.
    + apply IH in H. destruct H as (pre & post & E & M).
      exists (String ch pre), post. rewrite append_cons, <- E. auto.
Qed.

Lemma groups_of_app_nil (a b : list nat) : (a ++ b)%list = [] -> a = [] /\ b = [].
Proof. destruct a; [auto | discriminate]. Qed.

Lemma rounds_same (round : string -> captures -> captures -> Prop) :
  (forall w a b, round w a b -> b = a) ->
  forall n w cs cs', rounds round n w cs cs' -> cs' = cs.
Proof.
  intros Hr. induction n as [|n IH]; intros w cs cs' H; simpl in H.
  - apply H.
  - destruct H as (w1 & w2 & mid & _ & H1 & H2).
    apply Hr in H1. apply IH in H2. congruence.
Qed.

(** A pattern without groups leaves the captures as they are. *)
Lemma matches_plain (r : regex) :
  groups_of r = [] -> forall w cs cs', matches r w cs cs' -> cs' = cs.
Proof.
  induction r as [|a|p|r1 IH1 r2 IH2|r1 IH1 r2 IH2|r IH min max|n r IH| |];
    simpl; intros G w cs cs' H; try (apply H); try discriminate G.
  - apply groups_of_app_nil in G as [G1 G2].
    destruct H as (w1 & w2 & mid & _ & H1 & H2).
    apply (IH1 G1) in H1. apply (IH2 G2) in H2. congruence.
  - apply groups_of_app_nil in G as [G1 G2].
    destruct H as [H|H]; [apply (IH1 G1) in H | apply (IH2 G2) in H]; exact H.
  - destruct H as (n & _ & H). revert H. apply rounds_same.
    intros w' a b Hm. rewrite G, clear_nil in Hm. apply (IH G) in Hm. exact Hm.
Qed.

Lemma groups_of_str (s : string) : groups_of (str s) = [].
Proof.
  induction s as [|c s IH]; [reflexivity|].
  destruct s; [reflexivity|]. exact IH.
Qed.

Lemma every_append (p : ascii -> bool) (a b : string) :
  every p (a ++ b) = every p a && every p b.
Proof.
  induction a as [|c a IH]; [reflexivity|]. rewrite append_cons. simpl. rewrite IH.
  destruct (p c); reflexivity.
Qed.

(** One or more characters of a class. *)
Lemma matches_class_rounds (p : ascii -> bool) :
  forall n w cs cs',
    rounds (fun w a b => matches (Class p) w (clear [] a) b) n w cs cs' ->
    every p w = true /\ String.length w = n /\ cs' = cs.
Proof.
  induction n as [|n IH]; intros w cs cs' H; simpl in H.
  - destruct H as [-> ->]. auto.
  - destruct H as (w1 & w2 & mid & -> & [(b & Pb & ->) ->] & H2).
    apply IH in H2 as (E & L & ->). rewrite clear_nil.
    rewrite append_cons, append_nil. simpl. rewrite Pb, E, L. auto.
Qed.

Lemma matches_plus_class (p : ascii -> bool) w cs cs' :
  matches (plus (Class p)) w cs cs' ->
  every p w = true /\ w <> EmptyString /\ cs' = cs.
Proof.
  intros (n & Hn & H). apply matches_class_rounds in H as (E & L & ->).
  repeat split; [exact E|]. intros ->. simpl in L. lia.
Qed.


Lemma carries_alt gs P a b : carries gs P a -> carries gs P b -> carries gs P (Alt a b).
Proof. intros Ha Hb w cs cs' [H|H]; [apply Ha | apply Hb]; exact H. Qed.

Lemma carries_seq_l gs P q t :
  groups_of t = [] -> carries gs P q -> carries gs P (Seq q t).
Proof.
  intros G Hq w cs cs' (w1 & w2 & mid & -> & H1 & H2).
  apply (matches_plain t G) in H2. subst cs'.
  apply Hq in H1. destruct H1 as (g & a & d & b & Hg & -> & Pd & ->).
  exists g, a, d, (b ++ w2). rewrite !append_assoc. auto.
Qed.

Lemma carries_seq_r gs P h q :
  groups_of h = [] -> carries gs P q -> carries gs P (Seq h q).
Proof.
  intros G Hq w cs cs' (w1 & w2 & mid & -> & H1 & H2).
  apply (matches_plain h G) in H1. subst mid.
  apply Hq in H2. destruct H2 as (g & a & d & b & Hg & -> & Pd & ->).
  exists g, (w1 ++ a), d, b. rewrite !append_assoc. auto.
Qed.

Lemma carries_digits gs g : In g gs -> carries gs digits (Group g (plus digit)).
Proof.
  intros Hg w cs cs' (mid & H & ->).
  apply matches_plus_class in H as (E & N & ->).
  exists g, EmptyString, w, EmptyString. rewrite append_nil, append_empty_r.
  repeat split; auto.
Qed.

Lemma carries_decimal gs g :
  In g gs -> carries gs (fun d => starts_with_digit d = true) (decimal g).
Proof.
  intros Hg w cs cs' (mid & (w1 & w2 & m1 & -> & H1 & H2) & ->).
  apply matches_plus_class in H1 as (E & N & ->).
  apply matches_plain in H2; [|reflexivity]. subst mid.
  exists g, EmptyString, (w1 ++ w2), EmptyString. rewrite append_nil, append_empty_r.
  repeat split; auto.
  destruct w1 as [|c w1]; [congruence|]. rewrite append_cons. simpl in *.
  destruct (is_digit c); [reflexivity | discriminate E].
Qed.

Lemma digits_start (d : string) : digits d -> starts_with_digit d = true.
Proof.
  intros [E N]. destruct d as [|c d]; [congruence|]. simpl in *.
  destruct (is_digit c); [reflexivity | discriminate E].
Qed.

Lemma carries_weaken gs (P Q : string -> Prop) r :
  (forall d, P d -> Q d) -> carries gs P r -> carries gs Q r.
Proof.
  intros HPQ H w cs cs' M. apply H in M.
  destruct M as (g & a & d & b & Hg & E & Pd & C). exists g, a, d, b. auto.
Qed.

Ltac carry :=
  repeat first
    [ apply carries_alt
    | apply carries_digits; simpl; tauto
    | apply carries_decimal; simpl; tauto
    | apply carries_seq_l; [reflexivity|]
    | apply carries_seq_r; [reflexivity|] ].

Lemma widthMm_carries : carries [1; 2; 3; 4] digits widthMmPattern.
Proof. unfold widthMmPattern, before, after, mm. cbn [alt seq]. carry. Qed.
Lemma heightMm_carries : carries [1; 2; 3; 4] digits heightMmPattern.
Proof. unfold heightMmPattern, before, after, mm. cbn [alt seq]. carry. Qed.
Lemma widthFt_carries :
  carries [1; 2; 3; 4] (fun d => starts_with_digit d = true) widthFtPattern.
Proof. unfold widthFtPattern, before, after, ft. cbn [alt seq]. carry. Qed.
Lemma heightFt_carries :
  carries [1; 2; 3; 4] (fun d => starts_with_digit d = true) heightFtPattern.
Proof. unfold heightFtPattern, before, after, ft. cbn [alt seq]. carry. Qed.
Lemma sillMm_carries : carries [1] digits sillHeightMmPattern.
Proof. unfold sillHeightMmPattern, mm. cbn [alt seq]. carry. Qed.
Lemma sillFt_carries : carries [1] (fun d => starts_with_digit d = true) sillHeightFtPattern.
Proof. unfold sillHeightFtPattern, ft. cbn [alt seq]. carry. Qed.
Lemma insetMm_carries : carries [1] digits insetMmPattern.
Proof. unfold insetMmPattern, mm. cbn [alt seq]. carry. Qed.
Lemma insetFt_carries : carries [1] (fun d => starts_with_digit d = true) insetFtPattern.
Proof. unfold insetFtPattern, ft. cbn [alt seq]. carry. Qed.
Lemma insetInch_carries :
  carries [1] (fun d => starts_with_digit d = true) insetInchPattern.
Proof. unfold insetInchPattern. cbn [alt seq]. carry. Qed.


(** *** What [exec] returns for such a pattern *)

Lemma exec_carries gs P r s m :
  carries gs P r -> exec r s = Some m ->
  exists g d pre post,
    In g gs /\ P d /\ groups m = [(g, d)] /\ s = pre ++ d ++ post.
Proof.
  intros Hc H. apply search_sound in H as (pre & post & E & M).
  apply Hc in M. destruct M as (g & a & d & b & Hg & Ew & Pd & C).
  exists g, d, (pre ++ a), (b ++ post). repeat split; auto.
  rewrite E, Ew, !append_assoc. reflexivity.
Qed.

Lemma first_group_single g d (m : match_result) :
  In g [1; 2; 3; 4] -> d <> EmptyString -> groups m = [(g, d)] -> first_group m = Some d.
Proof.
  intros Hg N E. unfold first_group, group. rewrite E.
  destruct d as [|c d]; [congruence|].
  simpl in Hg. destruct Hg as [<-|[<-|[<-|[<-|[]]]]]; reflexivity.
Qed.

Lemma group_single d (m : match_result) : groups m = [(1, d)] -> group m 1 = Some d.
Proof. intros E. unfold group. rewrite E. reflexivity. Qed.

(** *** Numbers read from digits *)

Lemma digit_not_space c : is_digit c = true -> is_space c = false.
Proof.
  destruct c as [[] [] [] [] [] [] [] []]; vm_compute; intros H;
    first [reflexivity | discriminate H].
Qed.

Lemma digit_not_sign c :
  is_digit c = true -> (code c =? 45)%N = false /\ (code c =? 43)%N = false.
Proof.
  destruct c as [[] [] [] [] [] [] [] []]; vm_compute; intros H;
    first [discriminate H | reflexivity | split; reflexivity].
Qed.

Lemma digit_val_nonneg c : is_digit c = true -> (0 <= digit_val c)%Z.
Proof.
  unfold is_digit, in_range, digit_val. intros H.
  apply andb_true_iff in H as [H _]. apply N.leb_le in H. lia.
Qed.

Lemma scan_digits_nonneg (s : string) :
  forall acc, (0 <= acc)%Z ->
    exists v n r, scan_digits acc s = (v, n, r) /\ (0 <= v)%Z
                  /\ (starts_with_digit s = true -> n <> 0).
Proof.
  induction s as [|c s IH]; intros acc Hacc; simpl.
  - exists acc, 0, EmptyString. repeat split; [exact Hacc | discriminate].
  - destruct (is_digit c) eqn:D.
    + destruct (IH (acc * 10 + digit_val c)%Z) as (v & n & r & E & Hv & _).
      { pose proof (digit_val_nonneg c D). lia. }
      rewrite E. exists v, (S n), r. repeat split; [exact Hv | discriminate].
    + exists acc, 0, (String c s). repeat split; [exact Hacc | discriminate].
Qed.

Lemma trimStart_digit s : starts_with_digit s = true -> trimStart s = s.
Proof.
  destruct s as [|c s]; [discriminate|]. simpl. intros D.
  rewrite (digit_not_space c D). reflexivity.
Qed.

Lemma scan_sign_digit s : starts_with_digit s = true -> scan_sign s = (false, s).
Proof.
  destruct s as [|c s]; [discriminate|]. simpl. intros D.
  destruct (digit_not_sign c D) as [-> ->]. reflexivity.
Qed.

Lemma digit_not_x c : is_digit c = true -> Ascii.eqb "x" c = false /\ Ascii.eqb "X" c = false.
Proof.
  destruct c as [[] [] [] [] [] [] [] []]; vm_compute; intros H;
    first [discriminate H | reflexivity | split; reflexivity].
Qed.

Lemma digit_not_I c : is_digit c = true -> Ascii.eqb "I" c = false.
Proof.
  destruct c as [[] [] [] [] [] [] [] []]; vm_compute; intros H;
    first [discriminate H | reflexivity | split; reflexivity].
Qed.

Lemma digits_not_hex d :
  digits d -> String.prefix "0x" d || String.prefix "0X" d = false.
Proof.
  intros [E N]. destruct d as [|c d]; [congruence|].
  rewrite !prefix_cons. destruct d as [|c2 d].
  - destruct (Ascii.eqb "0" c); reflexivity.
  - rewrite !prefix_cons. simpl in E.
    destruct (is_digit c); [|discriminate E]. destruct (is_digit c2) eqn:D2; [|discriminate E].
    destruct (digit_not_x c2 D2) as [-> ->]. destruct (Ascii.eqb "0" c); reflexivity.
Qed.

Lemma div_const_nonneg (n : number) (c : Q) :
  nonnegative n -> (0 < c)%Q -> nonnegative (div_const n c).
Proof.
  intros Hn Hc. destruct n as [q| |neg]; simpl in *; [|exact Hn|exact Hn].
  apply Qle_shift_div_l; [exact Hc|]. rewrite Qmult_0_l. exact Hn.
Qed.

(** [parseInt] of decimal digits is not negative. *)
Lemma parseInt_digits d : digits d -> nonnegative (parseInt d).
Proof.
  intros Hd. pose proof (digits_start d Hd) as S.
  unfold parseInt. rewrite (trimStart_digit d S), (scan_sign_digit d S), (digits_not_hex d Hd).
  destruct (scan_digits_nonneg d 0 (Z.le_refl 0)) as (v & n & r & E & Hv & Hn).
  rewrite E. destruct n as [|n]; [exfalso; apply (Hn S); reflexivity|].
  apply RoundingProperties.round64_nonneg. simpl. change 0%Q with (inject_Z 0). rewrite <- Zle_Qle. exact Hv.
Qed.

Lemma pow10_pos e : (0 < pow10 e)%Q.
Proof. unfold pow10. apply Qpower_0_lt. reflexivity. Qed.

Lemma scan_decimal_nonneg s q r : scan_decimal s = Some (q, r) -> (0 <= q)%Q.
Proof.
  unfold scan_decimal.
  destruct (scan_digits_nonneg s 0 (Z.le_refl 0)) as (ip & n1 & r1 & E1 & Hip & _).
  rewrite E1.
  assert (F : exists fp n2 r2,
             match r1 with
             | String c after_dot =>
                 if (code c =? 46)%N then
                   let '(v, n, r) := scan_digits 0 after_dot in
                   match n1, n with
                   | O, O => (0%Z, O, r1)
                   | _, _ => (v, n, r)
                   end
                 else (0%Z, O, r1)
             | EmptyString => (0%Z, O, r1)
             end = (fp, n2, r2) /\ (0 <= fp)%Z).
  { destruct r1 as [|c after_dot]; [exists 0%Z, 0%nat, EmptyString; split; [reflexivity | lia]|].
    destruct (code c =? 46)%N; [|exists 0%Z, 0%nat, (String c after_dot); split; [reflexivity | lia]].
    destruct (scan_digits_nonneg after_dot 0 (Z.le_refl 0)) as (v & n & r' & E & Hv & _).
    rewrite E. destruct n1, n; eauto 6; exists 0%Z, 0%nat, (String c after_dot); split; [reflexivity | lia]. }
  destruct F as (fp & n2 & r2 & -> & Hfp).
  destruct (scan_exponent r2) as [e r3].
  assert (Q : (0 <= (inject_Z ip + inject_Z fp / pow10 (Z.of_nat n2)) * pow10 e)%Q).
  { apply Qmult_le_0_compat; [|apply Qlt_le_weak, pow10_pos].
    assert ((0 <= inject_Z ip)%Q) by (change 0%Q with (inject_Z 0); rewrite <- Zle_Qle; exact Hip).
    assert ((0 <= inject_Z fp)%Q) by (change 0%Q with (inject_Z 0); rewrite <- Zle_Qle; exact Hfp).
    assert ((0 <= inject_Z fp / pow10 (Z.of_nat n2))%Q).
    { apply Qle_shift_div_l; [apply pow10_pos|]. rewrite Qmult_0_l. assumption. }
    lra. }
  destruct n1, n2; intros H; try discriminate H; injection H as <- <-; exact Q.
Qed.

Lemma scan_decimal_digit s :
  starts_with_digit s = true -> exists q r, scan_decimal s = Some (q, r).
Proof.
  intros S. unfold scan_decimal.
  destruct (scan_digits_nonneg s 0 (Z.le_refl 0)) as (ip & n1 & r1 & E1 & _ & Hn).
  rewrite E1. destruct n1 as [|n1]; [exfalso; apply (Hn S); reflexivity|].
  destruct (match r1 with String _ _ => _ | EmptyString => _ end) as [[fp n2] r2].
  destruct (scan_exponent r2) as [e r3]. destruct n2; eauto.
Qed.

(** [parseFloat] of a text that starts with a digit is a non-negative
    number. *)
Lemma parseFloat_digit s : starts_with_digit s = true -> nonnegative (parseFloat s).
Proof.
  intros S. unfold parseFloat. rewrite (trimStart_digit s S), (scan_sign_digit s S).
  assert (I : String.prefix "Infinity" s = false).
  { destruct s as [|c s]; [discriminate S|]. rewrite prefix_cons.
    simpl in S. rewrite (digit_not_I c S). reflexivity. }
  rewrite I. destruct (scan_decimal_digit s S) as (q & r & E). rewrite E.
  apply RoundingProperties.round64_nonneg. simpl. apply (scan_decimal_nonneg s q r E).
Qed.


(** *** The four dimensions *)

(** A quantity in millimetres, converted to feet. *)
Lemma millimetres_nonneg gs r s m (pick : match_result -> option string) :
  carries gs digits r -> exec r s = Some m ->
  (forall g d, In g gs -> d <> EmptyString -> groups m = [(g, d)] -> pick m = Some d) ->
  nonnegative (div_const (parseInt_group (pick m)) mm_per_foot).
Proof.
  intros Hc H Hpick.
  destruct (exec_carries _ _ _ _ _ Hc H) as (g & d & pre & post & Hg & Hd & G & _).
  rewrite (Hpick g d Hg (proj2 Hd) G). simpl.
  apply div_const_nonneg; [apply parseInt_digits, Hd | reflexivity].
Qed.

(** A quantity in feet or inches. *)
Lemma decimal_nonneg gs r s m (pick : match_result -> option string) :
  carries gs (fun d => starts_with_digit d = true) r -> exec r s = Some m ->
  (forall g d, In g gs -> d <> EmptyString -> groups m = [(g, d)] -> pick m = Some d) ->
  exists d, pick m = Some d /\ d <> EmptyString /\ nonnegative (parseFloat d).
Proof.
  intros Hc H Hpick.
  destruct (exec_carries _ _ _ _ _ Hc H) as (g & d & pre & post & Hg & Hd & G & _).
  assert (N : d <> EmptyString) by (intros ->; discriminate Hd).
  exists d. rewrite (Hpick g d Hg N G). split; [reflexivity|]. split; [exact N|].
  apply parseFloat_digit, Hd.
Qed.

Lemma pick_first m g d :
  In g [1; 2; 3; 4] -> d <> EmptyString -> groups m = [(g, d)] -> first_group m = Some d.
Proof. intros. apply (first_group_single g); assumption. Qed.

Lemma pick_one m g d :
  In g [1] -> d <> EmptyString -> groups m = [(g, d)] -> group m 1 = Some d.
Proof. intros [<-|[]] _ G. apply group_single, G. Qed.

Lemma parseFloat_group_some d fallback :
  d <> EmptyString -> parseFloat_group (Some d) fallback = parseFloat d.
Proof. intros N. destruct d; [congruence | reflexivity]. Qed.

Lemma extract_width_nonneg s : nonnegative (extract_width s).
Proof.
  unfold extract_width. destruct (exec widthMmPattern s) as [m|] eqn:A.
  - apply (millimetres_nonneg _ _ _ _ first_group widthMm_carries A), pick_first.
  - destruct (exec widthFtPattern s) as [m|] eqn:B.
    + destruct (decimal_nonneg _ _ _ _ first_group widthFt_carries B (pick_first m))
        as (d & -> & N & H).
      rewrite (parseFloat_group_some d _ N). exact H.
    + simpl. lra.
Qed.

Lemma extract_height_nonneg s : nonnegative (extract_height s).
Proof.
  unfold extract_height. destruct (exec heightMmPattern s) as [m|] eqn:A.
  - apply (millimetres_nonneg _ _ _ _ first_group heightMm_carries A), pick_first.
  - destruct (exec heightFtPattern s) as [m|] eqn:B.
    + destruct (decimal_nonneg _ _ _ _ first_group heightFt_carries B (pick_first m))
        as (d & -> & N & H).
      rewrite (parseFloat_group_some d _ N). exact H.
    + simpl. lra.
Qed.

Lemma extract_sillHeight_nonneg s : nonnegative (extract_sillHeight s).
Proof.
  unfold extract_sillHeight. destruct (exec sillHeightMmPattern s) as [m|] eqn:A.
  - apply (millimetres_nonneg _ _ _ _ (fun m => group m 1) sillMm_carries A), pick_one.
  - destruct (exec sillHeightFtPattern s) as [m|] eqn:B.
    + destruct (decimal_nonneg _ _ _ _ (fun m => group m 1) sillFt_carries B (pick_one m))
        as (d & -> & N & H).
      exact H.
    + simpl. lra.
Qed.

Lemma extract_inset_nonneg s : nonnegative (extract_inset s).
Proof.
  unfold extract_inset. destruct (exec insetMmPattern s) as [m|] eqn:A.
  - apply (millimetres_nonneg _ _ _ _ (fun m => group m 1) insetMm_carries A), pick_one.
  - destruct (exec insetInchPattern s) as [m|] eqn:B.
    + destruct (decimal_nonneg _ _ _ _ (fun m => group m 1) insetInch_carries B (pick_one m))
        as (d & -> & N & H).
      apply div_const_nonneg; [exact H | reflexivity].
    + destruct (exec insetFtPattern s) as [m|] eqn:C.
      * destruct (decimal_nonneg _ _ _ _ (fun m => group m 1) insetFt_carries C (pick_one m))
          as (d & -> & N & H).
        exact H.
      * simpl. lra.
Qed.

(** *** Prompts without digits *)

Lemma lower_char_digit c : is_digit (lower_char c) = is_digit c.
Proof. destruct c as [[] [] [] [] [] [] [] []]; vm_compute; reflexivity. Qed.

Lemma no_digit_toLowerCase s : no_digit (toLowerCase s) = no_digit s.
Proof.
  unfold no_digit. induction s as [|c s IH]; [reflexivity|].
  simpl. rewrite lower_char_digit, IH. reflexivity.
Qed.

Lemma exec_no_digit gs (P : string -> Prop) r s :
  carries gs P r -> (forall d, P d -> starts_with_digit d = true) ->
  no_digit s = true -> exec r s = None.
Proof.
  intros Hc HP Hs. destruct (exec r s) as [m|] eqn:A; [|reflexivity]. exfalso.
  destruct (exec_carries _ _ _ _ _ Hc A) as (g & d & pre & post & _ & Pd & _ & ->).
  apply HP in Pd. unfold no_digit in Hs. rewrite !every_append in Hs.
  apply andb_true_iff in Hs as [_ Hs]. apply andb_true_iff in Hs as [Hs _].
  destruct d as [|c d]; [discriminate Pd|]. simpl in *. rewrite Pd in Hs. discriminate Hs.
Qed.

End ExtractorProperties.

(** ** The heuristic extractor: dimensions for every prompt *)
Module HeuristicProperties.
Import JsString JsNumber Regex Sir BIMLLMService ExtractorProperties.

(** The parameters of the heuristic SIR, whatever its category is. *)
Lemma demo_parameters (userPrompt : string) :
  let s := toLowerCase userPrompt in
  familyParameters (params (demoFamily userPrompt))
  = Some [lengthParameter "Width" (extract_width s);
          lengthParameter "Height" (extract_height s);
          lengthParameter "SillHeight" (extract_sillHeight s);
          lengthParameter "Inset" (extract_inset s);
          materialParameter "GlassPaneMaterial" (extract_glassMaterial s);
          materialParameter "SashMaterial" (extract_sashMaterial s)].
Proof.
  unfold demoFamily, customize.
  destruct (includes (toLowerCase userPrompt) "door");
    [|destruct (includes (toLowerCase userPrompt) "window");
      [|destruct (includes (toLowerCase userPrompt) "furniture")]]; reflexivity.
Qed.

(** X1. For every prompt the four dimensions of the heuristic SIR are
    neither [NaN] nor negative: each one is a finite number from 0 on, or
    [Infinity] when the digits written in the prompt exceed the largest
    finite number. *)
Theorem heuristic_dimensions_nonnegative (userPrompt : string) :
  exists (width height sillHeight inset : number) (glassMaterial sashMaterial : string),
    familyParameters (params (demoFamily userPrompt))
    = Some [lengthParameter "Width" width;
            lengthParameter "Height" height;
            lengthParameter "SillHeight" sillHeight;
            lengthParameter "Inset" inset;
            materialParameter "GlassPaneMaterial" glassMaterial;
            materialParameter "SashMaterial" sashMaterial]
    /\ nonnegative width /\ nonnegative height
    /\ nonnegative sillHeight /\ nonnegative inset.
Proof.
  rewrite demo_parameters. cbv zeta. do 6 eexists. split; [reflexivity|].
  split; [apply extract_width_nonneg|]. split; [apply extract_height_nonneg|].
  split; [apply extract_sillHeight_nonneg | apply extract_inset_nonneg].
Qed.

(** X2. A prompt that holds no decimal digit gets the default dimensions:
    2 ft by 4 ft, a sill height of 3 ft and an inset of 0.05 ft. *)
Theorem prompt_without_digits_gets_defaults (userPrompt : string) :
  no_digit userPrompt = true ->
  familyParameters (params (demoFamily userPrompt))
  = Some [lengthParameter "Width" (Fin 2);
          lengthParameter "Height" (Fin 4);
          lengthParameter "SillHeight" (Fin 3);
          lengthParameter "Inset" (Fin 0.05);
          materialParameter "GlassPaneMaterial"
            (extract_glassMaterial (toLowerCase userPrompt));
          materialParameter "SashMaterial"
            (extract_sashMaterial (toLowerCase userPrompt))].
Proof.
  intros H. rewrite <- no_digit_toLowerCase in H. rewrite demo_parameters. cbv zeta.
  unfold extract_width, extract_height, extract_sillHeight, extract_inset.
  rewrite (exec_no_digit _ _ _ _ widthMm_carries digits_start H).
  rewrite (exec_no_digit _ _ _ _ heightMm_carries digits_start H).
  rewrite (exec_no_digit _ _ _ _ sillMm_carries digits_start H).
  rewrite (exec_no_digit _ _ _ _ insetMm_carries digits_start H).
  rewrite (exec_no_digit _ _ _ _ widthFt_carries (fun d Hd => Hd) H).
  rewrite (exec_no_digit _ _ _ _ heightFt_carries (fun d Hd => Hd) H).
  rewrite (exec_no_digit _ _ _ _ sillFt_carries (fun d Hd => Hd) H).
  rewrite (exec_no_digit _ _ _ _ insetFt_carries (fun d Hd => Hd) H).
  rewrite (exec_no_digit _ _ _ _ insetInch_carries (fun d Hd => Hd) H).
  reflexivity.
Qed.

Lemma prompt_without_digits_gets_defaults_witness :
  familyParameters (params (demoFamily "A wooden door with glass"))
  = Some [lengthParameter "Width" (Fin 2);
          lengthParameter "Height" (Fin 4);
          lengthParameter "SillHeight" (Fin 3);
          lengthParameter "Inset" (Fin 0.05);
          materialParameter "GlassPaneMaterial" "Glass";
          materialParameter "SashMaterial" "Wood"].
Proof.
  exact (prompt_without_digits_gets_defaults "A wooden door with glass" eq_refl).
Defined.

End HeuristicProperties.

(** ** The QA gateway on the SIR of the heuristic extractor *)
Module PipelineProperties.
Import JsString JsNumber Regex Sir BIMLLMService QAGateway ExtractorProperties.
Local Open Scope Z_scope.

(** X3. The SIR that the heuristic extractor builds passes the gateway for
    every prompt, whatever code is handed over: the geometry, compliance and
    flexing validations find nothing, and the parameter and metadata
    validations list no issue and exactly one warning of 5 points between
    them (an essential parameter that is missing for a door, a window or a
    piece of furniture, the non-standard category Generic otherwise). *)
Theorem heuristic_family_passes_qa (showFraction : Q -> string) (userPrompt : string)
        (generatedCode : option string) :
  let v := validateFamily showFraction (demoFamily userPrompt) generatedCode in
  determineOverallPass v = true
  /\ geometryValidation v = fresh
  /\ issues (parameterValidation v) = []
  /\ issues (metadataValidation v) = []
  /\ score (parameterValidation v) + score (metadataValidation v) = 195
  /\ complianceValidation v = fresh
  /\ flexingValidation v = fresh.
Proof.
  unfold validateFamily, determineOverallPass. cbn [geometryValidation parameterValidation
    metadataValidation complianceValidation flexingValidation].
  unfold demoFamily.
  pose proof (extract_width_nonneg (toLowerCase userPrompt)) as Hw.
  pose proof (extract_height_nonneg (toLowerCase userPrompt)) as Hh.
  pose proof (extract_sillHeight_nonneg (toLowerCase userPrompt)) as Hs.
  pose proof (extract_inset_nonneg (toLowerCase userPrompt)) as Hi.
  destruct (extract_width _) as [w| |[]]; try solve [destruct Hw | discriminate Hw].
  all: destruct (extract_height _) as [h| |[]]; try solve [destruct Hh | discriminate Hh].
  all: destruct (extract_sillHeight _) as [sl| |[]]; try solve [destruct Hs | discriminate Hs].
  all: destruct (extract_inset _) as [i| |[]]; try solve [destruct Hi | discriminate Hi].
  all: clear Hw Hh Hs Hi.
  all: generalize (extract_glassMaterial (toLowerCase userPrompt)) as glassMaterial.
  all: generalize (extract_sashMaterial (toLowerCase userPrompt)) as sashMaterial.
  all: intros sashMaterial glassMaterial; unfold customize.
  all: destruct (includes (toLowerCase userPrompt) "door");
    [|destruct (includes (toLowerCase userPrompt) "window");
      [|destruct (includes (toLowerCase userPrompt) "furniture")]].
  all: vm_compute; repeat split; reflexivity.
Qed.

End PipelineProperties.

(** ** What the backend receives *)
Module MappingProperties.
Import JsString JsNumber Regex Sir BIMLLMService Backend ExtractorProperties.

Lemma detect_windowType_one category sir windowType :
  detect_windowType category sir = Some windowType -> windowType = 1%Z.
Proof.
  unfold detect_windowType. intros H.
  destruct (includes (toLowerCase category) "door"); [congruence|].
  destruct (includes (toLowerCase category) "window"); [|congruence].
  destruct (list_or_empty (extrusions (geometry sir))) as [|e l]; [congruence|].
  destruct (main_extrusion_size e); congruence.
Qed.

(** X4. Whatever the SIR is, the parameters for the backend have family
    type 1, the window style DoubleHungWindow and exactly one type, named
    Type 1, with the inset 0.05 and the sill height 3; the file name and the
    family name are the same. *)
Theorem backend_style_sill_and_inset_are_constants (sir : SIR) :
  let p := convertSIRToAPSParams sir in
  FamilyType p = 1%Z
  /\ WindowStyle (WindowParams p) = "DoubleHungWindow"
  /\ WindowFamilyName (WindowParams p) = FileName p
  /\ exists width height,
       Types (WindowParams p)
       = [{| TypeName := "Type 1"; WindowWidth := width; WindowHeight := height;
             WindowInset := Fin 0.05; WindowSillHeight := Fin 3 |}].
Proof.
  unfold convertSIRToAPSParams, convert_body.
  destruct (detect_windowType _ sir) as [windowType|] eqn:D; simpl.
  - rewrite (detect_windowType_one _ _ _ D). repeat split. eauto.
  - repeat split. eauto.
Qed.

(** X5. The parameters for the backend of the SIR of the heuristic
    extractor: the width and the height are the ones extracted from the
    prompt (never [NaN], never negative), with 200 and 1100 in place of an
    extracted 0; the glass material is the extracted one, the sash material
    is always Default, whatever the prompt says, and the file name is the
    family name followed by [.rfa]. *)
Theorem heuristic_backend_parameters (userPrompt : string) :
  let s := toLowerCase userPrompt in
  let p := convertSIRToAPSParams (demoFamily userPrompt) in
  submitted_width p = Some (VNum (number_or (extract_width s) 200))
  /\ submitted_height p = Some (VNum (number_or (extract_height s) 1100))
  /\ nonnegative (extract_width s) /\ nonnegative (extract_height s)
  /\ GlassPaneMaterial (WindowParams p) = extract_glassMaterial s
  /\ SashMaterial (WindowParams p) = "Default"
  /\ FileName p = familyName (metadata (demoFamily userPrompt)) ++ ".rfa".
Proof.
  cbv zeta.
  pose proof (extract_width_nonneg (toLowerCase userPrompt)) as Hw.
  pose proof (extract_height_nonneg (toLowerCase userPrompt)) as Hh.
  unfold demoFamily.
  generalize (extract_sillHeight (toLowerCase userPrompt)) as sillHeight.
  generalize (extract_inset (toLowerCase userPrompt)) as inset. intros inset sillHeight.
  destruct (extract_width _) as [w| |neg]; [|destruct Hw|].
  all: destruct (extract_height _) as [h| |neg']; [|destruct Hh|].
  all: unfold extract_glassMaterial, extract_sashMaterial, customize, number_or.
  all: destruct (includes (toLowerCase userPrompt) "glass");
  destruct (includes (toLowerCase userPrompt) "wood" || includes (toLowerCase userPrompt) "timber");
  destruct (includes (toLowerCase userPrompt) "metal" || includes (toLowerCase userPrompt) "steel"
            || includes (toLowerCase userPrompt) "aluminum");
  (destruct (includes (toLowerCase userPrompt) "door");
    [|destruct (includes (toLowerCase userPrompt) "window");
      [|destruct (includes (toLowerCase userPrompt) "furniture")]]).
  all: cbv -[Qeq_bool nonnegative];
       try destruct (Qeq_bool w 0); try destruct (Qeq_bool h 0);
       repeat split; first [reflexivity | assumption].
Qed.

End MappingProperties.

(** ** The emitter on the SIR of the heuristic extractor *)
Module EmissionProperties.
Import JsString JsNumber Regex Sir BIMLLMService SIRToCodeInterpreter EmitterProperties.

Lemma demo_metadata (userPrompt : string) :
  lodLevel (metadata (demoFamily userPrompt)) = Fin 200
  /\ exists body extra,
       extrusions (geometry (demoFamily userPrompt)) = Some (body :: extra)
       /\ (extra = []
              /\ String.eqb (category (metadata (demoFamily userPrompt))) "Windows" = false
           \/ exists pane,
                extra = [pane]
                /\ String.eqb (category (metadata (demoFamily userPrompt))) "Windows" = true)
       /\ exists l, familyParameters (params (demoFamily userPrompt)) = Some l /\ length l = 6
       /\ exists t, familyTypes (params (demoFamily userPrompt)) = Some [t].
Proof.
  unfold demoFamily, customize.
  destruct (includes (toLowerCase userPrompt) "door");
    [|destruct (includes (toLowerCase userPrompt) "window");
      [|destruct (includes (toLowerCase userPrompt) "furniture")]];
    (split; [reflexivity|]); do 2 eexists; (split; [reflexivity|]);
    (split; [first [left; split; reflexivity | right; eexists; split; reflexivity]|]);
    eexists; (split; [reflexivity|]); (split; [reflexivity|]); eexists; reflexivity.
Qed.

(** X6. The emitter accepts the SIR of the heuristic extractor for every
    prompt: the translation succeeds, its code is the same at every clock
    reading, the only optimization applied is simplified_geometry, and the
    estimated execution time is 50 seconds (55 for a window, which has a
    second extrusion). *)
Theorem heuristic_family_is_translated (showFraction : Q -> string) (userPrompt : string)
        (t1 t2 t1' t2' : Z) :
  exists code meta meta' sections sections',
    translateSIRToCode showFraction (demoFamily userPrompt) t1 t2
    = Translated code meta sections
    /\ translateSIRToCode showFraction (demoFamily userPrompt) t1' t2'
       = Translated code meta' sections'
    /\ performanceOptimizations meta = ["simplified_geometry"]
    /\ (estimatedExecutionTime meta
        = if String.eqb (category (metadata (demoFamily userPrompt))) "Windows"
          then 55%Z else 50%Z).
Proof.
  destruct (demo_metadata userPrompt) as (Hlod & body & extra & He & Hextra & l & Hl & Hn & t & Ht).
  assert (Hv : validateSIR (demoFamily userPrompt) = None).
  { unfold validateSIR. rewrite Hlod. reflexivity. }
  assert (Hlow : lowLOD (demoFamily userPrompt) = true).
  { unfold lowLOD. rewrite Hlod. reflexivity. }
  unfold translateSIRToCode. rewrite Hv. do 5 eexists.
  split; [reflexivity|]. split.
  { rewrite (low_lod_code_ignores_clock showFraction _ t1' t1 Hlow). f_equal. }
  cbn [performanceOptimizations estimatedExecutionTime generateExecutionMetadata].
  unfold getAppliedOptimizations, estimateExecutionTime. rewrite Hlow, He, Hl, Ht, Hn.
  destruct Hextra as [[-> ->]|(pane & -> & ->)]; split; reflexivity.
Qed.

End EmissionProperties.

(** ** The generator never fails its caller *)
Module FallbackProperties.
Import JsString JsNumber Regex Sir BIMLLMService ExtractorProperties EmissionProperties.





End FallbackProperties.

(** ** Verdicts of the QA gateway *)
Module VerdictProperties.
Import JsString JsNumber Regex Sir QAGateway.
Local Open Scope Z_scope.

Lemma push_not_nil (l : list string) (m : string) : push l m <> [].
Proof. unfold push. destruct l; discriminate. Qed.

Lemma coherent_fresh : coherent fresh.
Proof. split; reflexivity. Qed.

Lemma coherent_issue m pts r : coherent (issue m pts r).
Proof.
  split; simpl; [discriminate|]. intros H. destruct (push_not_nil _ _ H).
Qed.

Lemma coherent_warning m pts r : coherent r -> coherent (warning m pts r).
Proof. intros H. exact H. Qed.

Lemma coherent_when (b : bool) (f : results -> results) (r : results) :
  (coherent r -> coherent (f r)) -> coherent r -> coherent (when b f r).
Proof. unfold when. destruct b; auto. Qed.

Lemma coherent_forEach {A} (f : A -> nat -> results -> results) (l : list A) :
  (forall a i r, coherent r -> coherent (f a i r)) ->
  forall i r, coherent r -> coherent (forEach_from i f l r).
Proof.
  intros Hf. induction l as [|a l IH]; intros i r Hr; simpl; [exact Hr|].
  apply IH, Hf, Hr.
Qed.

Lemma coherent_forEach_run {A} (f : A -> nat -> results -> run) (l : list A) :
  (forall a i r, coherent r -> coherent_run (f a i r)) ->
  forall i r, coherent r -> coherent_run (forEach_run_from i f l r).
Proof.
  intros Hf. induction l as [|a l IH]; intros i r Hr; simpl; [exact Hr|].
  specialize (Hf a i r Hr). destruct (f a i r) as [r'|r' m]; simpl; [|exact I].
  apply IH, Hf.
Qed.

Lemma coherent_finish (label : string) (o : run) : coherent_run o -> coherent (finish label o).
Proof.
  destruct o as [r|r m]; simpl; intros H; [exact H|].
  split; simpl; [discriminate|]. intros E. destruct (push_not_nil _ _ E).
Qed.

Ltac settle :=
  match goal with
  | |- coherent (when _ _ _) => apply coherent_when; [intros ?|]
  | |- coherent (issue _ _ _) => apply coherent_issue
  | |- coherent (warning _ _ _) => apply coherent_warning
  | |- coherent (forEach _ _ _) => apply coherent_forEach; [intros ? ? ? ?|]
  | |- coherent (if ?b then _ else _) => destruct b
  | |- coherent (match ?o with Some _ => _ | None => _ end) => destruct o
  | |- coherent fresh => exact coherent_fresh
  | |- coherent _ => assumption
  end.

Lemma geometry_coherent (sir : SIR) : coherent (geometry_body sir fresh).
Proof.
  unfold geometry_body, geometry_lod, check_extrusion, check_plane, check_constraint.
  repeat settle.
Qed.

Lemma check_parameter_coherent all param names r :
  coherent r -> coherent (snd (check_parameter all param (names, r))).
Proof.
  intros H. unfold check_parameter. simpl.
  destruct (formula param) as [f|]; [destruct (JsString.truthy f);
    [destruct (validateFormula f all)|]|]; repeat settle.
Qed.

Lemma fold_parameters_coherent all (l : list familyParameter) st :
  coherent (snd st) ->
  coherent (snd (List.fold_left (fun st p => check_parameter all p st) l st)).
Proof.
  revert st. induction l as [|p l IH]; intros [names r] H; simpl; [exact H|].
  apply IH, check_parameter_coherent, H.
Qed.

Lemma check_value_coherent sir t entry i r :
  coherent r -> coherent_run (check_value sir t entry i r).
Proof.
  intros H. unfold check_value. destruct entry as [paramName value].
  destruct (familyParameters (params sir)) as [all|]; [|exact I].
  destruct (List.find _ all) as [paramDef|]; [|exact H].
  destruct (validateParameterValue value (param_type paramDef)); simpl; repeat settle.
Qed.

Lemma check_type_coherent sir t i r : coherent r -> coherent_run (check_type sir t i r).
Proof.
  intros H. unfold check_type.
  destruct (type_parameters t) as [entries|]; simpl.
  - apply coherent_forEach_run; [intros; apply check_value_coherent; assumption|].
    repeat settle.
  - repeat settle.
Qed.

Lemma parameters_checks_coherent (sir : SIR) (r : results) :
  coherent r -> coherent_run (parameters_checks sir r).
Proof.
  intros H1. unfold parameters_checks.
  destruct (familyParameters (params sir)) as [all|]; [|exact H1].
  pose proof (fold_parameters_coherent all all ([], r) H1) as H.
  destruct (List.fold_left _ all ([], r)) as [names r']. simpl in H.
  destruct (getEssentialParameters _) as [essentialParams|]; [|exact I]. simpl.
  unfold check_essential. repeat settle.
Qed.

Lemma parameters_coherent (sir : SIR) : coherent_run (parameters_body sir fresh).
Proof.
  unfold parameters_body.
  set (r1 := when _ _ fresh). assert (H1 : coherent r1) by (subst r1; repeat settle).
  clearbody r1.
  pose proof (parameters_checks_coherent sir r1 H1) as H2.
  destruct (parameters_checks sir r1) as [r2|r2 m]; simpl; [|exact I].
  simpl in H2.
  destruct (familyTypes (params sir)) as [types|]; [|exact H2].
  apply coherent_forEach_run; [intros; apply check_type_coherent; assumption | exact H2].
Qed.

Lemma performance_coherent sir code : coherent_run (performance_body sir code fresh).
Proof.
  unfold performance_body. destruct code as [code|]; [|exact I]. simpl.
  unfold performance_checks. repeat settle.
Qed.

Lemma flexing_coherent sir : coherent (flexing_body sir fresh).
Proof.
  unfold flexing_body.
  assert (H : coherent (forEach (check_scenario sir) (generateFlexingScenarios sir) fresh)).
  { apply coherent_forEach; [|exact coherent_fresh].
    intros sc i r Hr. unfold check_scenario.
    destruct (validateFlexingScenario sc sir); repeat settle. }
  destruct (constraints (geometry sir)); exact H.
Qed.

Lemma metadata_coherent showFraction sir : coherent (metadata_body showFraction sir fresh).
Proof.
  unfold metadata_body, missing_metadata. repeat settle.
Qed.

(** X7. Each of the six results of the gateway fails exactly when it lists
    at least one issue: a warning lowers the score but never fails a
    pass, and a pass that throws reports the error as an issue. *)
Theorem pass_fails_exactly_on_issues (showFraction : Q -> string) (sir : SIR)
        (generatedCode : option string) :
  Forall (fun r => pass r = true <-> issues r = [])
         (passes (validateFamily showFraction sir generatedCode)).
Proof.
  unfold passes, validateFamily. simpl.
  constructor; [apply coherent_finish, geometry_coherent|].
  constructor; [apply coherent_finish, parameters_coherent|].
  constructor; [apply coherent_finish, performance_coherent|].
  constructor; [exact coherent_fresh|].
  constructor; [apply coherent_finish, flexing_coherent|].
  constructor; [|constructor].
  apply coherent_finish. exact (metadata_coherent showFraction sir).
Qed.

(** X8. The family passes as a whole exactly when the geometry, the
    parameter and the metadata pass list no issue; the issues of the
    performance, compliance and flexing passes do not count. *)
Theorem overall_pass_counts_three_passes (showFraction : Q -> string) (sir : SIR)
        (generatedCode : option string) :
  let v := validateFamily showFraction sir generatedCode in
  determineOverallPass v = true
  <-> issues (geometryValidation v) = []
      /\ issues (parameterValidation v) = []
      /\ issues (metadataValidation v) = [].
Proof.
  cbv zeta. unfold determineOverallPass, validateFamily.
  cbn [geometryValidation parameterValidation metadataValidation].
  pose proof (coherent_finish "Geometry validation error: " (Done _)
                (geometry_coherent sir)) as G.
  pose proof (coherent_finish "Parameter validation error: " _ (parameters_coherent sir)) as P.
  pose proof (coherent_finish "Metadata validation error: " (Done _)
                (metadata_coherent showFraction sir)) as M.
  fold (validateGeometry sir) in G. fold (validateParameters sir) in P.
  change (coherent (validateMetadata showFraction sir)) in M.
  unfold coherent in *. rewrite !andb_true_iff. tauto.
Qed.

End VerdictProperties.

(** ** Essential parameters *)
Module EssentialProperties.
Import JsString JsNumber Regex Sir QAGateway.
Local Open Scope Z_scope.

Lemma capped_weaken c c' r : c <= c' -> capped c r -> capped c' r.
Proof. unfold capped. lia. Qed.

Lemma capped_issue c m pts r : 0 <= pts -> capped c r -> capped c (issue m pts r).
Proof. unfold capped, issue. simpl. lia. Qed.

Lemma capped_warning c m pts r : 0 <= pts -> capped c r -> capped c (warning m pts r).
Proof. unfold capped, warning. simpl. lia. Qed.

Lemma capped_when c (b : bool) (f : results -> results) (r : results) :
  (capped c r -> capped c (f r)) -> capped c r -> capped c (when b f r).
Proof. unfold when. destruct b; auto. Qed.

Lemma capped_forEach {A} c (f : A -> nat -> results -> results) (l : list A) :
  (forall a i r, capped c r -> capped c (f a i r)) ->
  forall i r, capped c r -> capped c (forEach_from i f l r).
Proof.
  intros Hf. induction l as [|a l IH]; intros i r Hr; simpl; [exact Hr|].
  apply IH, Hf, Hr.
Qed.

Lemma capped_forEach_run {A} c (f : A -> nat -> results -> run) (l : list A) :
  (forall a i r, capped c r -> capped_run c (f a i r)) ->
  forall i r, capped c r -> capped_run c (forEach_run_from i f l r).
Proof.
  intros Hf. induction l as [|a l IH]; intros i r Hr; simpl; [exact Hr|].
  specialize (Hf a i r Hr). destruct (f a i r) as [r'|r' m]; simpl; [|exact I].
  apply IH, Hf.
Qed.

Ltac lower :=
  match goal with
  | |- capped _ (when _ _ _) => apply capped_when; [intros ?|]
  | |- capped _ (issue _ _ _) => apply capped_issue; [lia|]
  | |- capped _ (warning _ _ _) => apply capped_warning; [lia|]
  | |- capped _ (forEach _ _ _) => apply capped_forEach; [intros ? ? ? ?|]
  | |- capped _ (if ?b then _ else _) => destruct b
  | |- capped _ (match ?o with Some _ => _ | None => _ end) => destruct o
  | |- capped _ _ => assumption
  end.

Lemma check_parameter_capped c all param names r :
  capped c r -> capped c (snd (check_parameter all param (names, r))).
Proof.
  intros H. unfold check_parameter. simpl.
  destruct (formula param) as [f|]; [destruct (JsString.truthy f);
    [destruct (validateFormula f all)|]|]; repeat lower.
Qed.

(** A name that the pattern rejects costs ten points. *)
Lemma check_parameter_rejected c all param names r :
  test namePattern (param_name param) = false ->
  capped c r -> capped (c - 10) (snd (check_parameter all param (names, r))).
Proof.
  intros T H. unfold check_parameter. cbn [snd]. rewrite T. cbn [negb].
  set (ra := when (member (param_name param) names) _ r).
  assert (Ha : capped c ra) by (subst ra; repeat lower).
  clearbody ra.
  set (rb := when true _ ra).
  assert (Hb : capped (c - 10) rb) by (subst rb; unfold when, capped, issue in *; simpl; lia).
  clearbody rb.
  destruct (formula param) as [f|]; [destruct (JsString.truthy f);
    [destruct (validateFormula f all)|]|]; repeat lower.
Qed.

Lemma fold_parameters_capped c all (l : list familyParameter) st :
  capped c (snd st) ->
  capped c (snd (List.fold_left (fun st p => check_parameter all p st) l st)).
Proof.
  revert st. induction l as [|p l IH]; intros [names r] H; simpl; [exact H|].
  apply IH, check_parameter_capped, H.
Qed.

Lemma fold_parameters_rejected c all (l : list familyParameter) :
  forall st,
    capped c (snd st) ->
    (exists p, In p l /\ test namePattern (param_name p) = false) ->
    capped (c - 10) (snd (List.fold_left (fun st p => check_parameter all p st) l st)).
Proof.
  induction l as [|p l IH]; intros [names r] H (q & Hin & T); [destruct Hin|].
  simpl. destruct Hin as [->|Hin].
  - apply fold_parameters_capped, check_parameter_rejected; assumption.
  - apply IH; [|exists q; auto]. apply check_parameter_capped, H.
Qed.

Lemma fold_parameters_names all (l : list familyParameter) :
  forall names r,
    fst (List.fold_left (fun st p => check_parameter all p st) l (names, r))
    = (names ++ List.map param_name l)%list.
Proof.
  induction l as [|p l IH]; intros names r; simpl; [rewrite app_nil_r; reflexivity|].
  destruct (check_parameter all p (names, r)) as [names' r'] eqn:E.
  rewrite IH. unfold check_parameter in E. injection E as <- _.
  rewrite <- app_assoc. reflexivity.
Qed.

Lemma member_names (name : string) (l : list familyParameter) :
  member name (List.map param_name l) = true ->
  exists p, In p l /\ param_name p = name.
Proof.
  unfold member. induction l as [|p l IH]; simpl; [discriminate|].
  destruct (String.eqb name (param_name p)) eqn:E.
  - apply String.eqb_eq in E. eauto.
  - intros H. destruct (IH H) as (q & Hq & Hn). eauto.
Qed.

Lemma check_value_capped c sir t entry i r :
  capped c r -> capped_run c (check_value sir t entry i r).
Proof.
  intros H. unfold check_value. destruct entry as [paramName value].
  destruct (familyParameters (params sir)) as [all|]; [|exact I].
  destruct (List.find _ all) as [paramDef|]; [|exact H].
  destruct (validateParameterValue value (param_type paramDef)); simpl; repeat lower.
Qed.

Lemma check_type_capped c sir t i r : capped c r -> capped_run c (check_type sir t i r).
Proof.
  intros H. unfold check_type.
  destruct (type_parameters t) as [entries|]; simpl.
  - apply capped_forEach_run; [intros; apply check_value_capped; assumption|].
    repeat lower.
  - repeat lower.
Qed.

(** X9. A family of the category Windows never reaches a parameter score
    above 95: the essential parameter [Sill Height] has a space in its
    name, so it is either missing (a warning of 5 points) or declared under
    a name that the name pattern rejects (an issue of 10 points). *)
Theorem windows_parameter_score_at_most_95 (sir : SIR) :
  category (metadata sir) = "Windows" ->
  score (validateParameters sir) <= 95.
Proof.
  intros Hcat. unfold validateParameters.
  assert (H : capped_run 95 (parameters_body sir fresh)).
  { unfold parameters_body, parameters_checks. rewrite Hcat.
    destruct (familyParameters (params sir)) as [all|].
    2:{ cbn [and_then]. destruct (familyTypes (params sir)) as [types|];
          [|vm_compute; discriminate].
        apply capped_forEach_run; [intros; apply check_type_capped; assumption|].
        vm_compute. discriminate. }
    set (r1 := when _ _ fresh).
    assert (H1 : capped 100 r1).
    { subst r1. apply capped_when; [intros ?; apply capped_issue; [lia | assumption]|].
      unfold capped. simpl. lia. }
    clearbody r1.
    pose proof (fold_parameters_names all all [] r1) as Hn.
    pose proof (fold_parameters_capped 100 all all ([], r1) H1) as Hc.
    pose proof (fold_parameters_rejected 100 all all ([], r1) H1) as Hr.
    destruct (List.fold_left _ all ([], r1)) as [names r']. simpl in Hn, Hc, Hr. subst names.
    change (getEssentialParameters "Windows") with (Some ["Width"; "Height"; "Sill Height"]).
    cbn [and_then].
    set (r2 := forEach _ _ r').
    assert (H2 : capped 95 r2).
    { subst r2. unfold forEach. cbn [forEach_from]. unfold check_essential at 1.
      destruct (member "Sill Height" (List.map param_name all)) eqn:M.
      - apply member_names in M as (p & Hin & Hp).
        assert (T : test namePattern (param_name p) = false) by (rewrite Hp; reflexivity).
        specialize (Hr (ex_intro _ p (conj Hin T))).
        cbn [negb when]. unfold check_essential.
        apply (capped_weaken 90); [lia|]. repeat lower.
      - cbn [negb when]. unfold capped, warning. cbn [score].
        assert (capped 100 (when (negb (member "Height" (List.map param_name all)))
                   (warning ("Missing essential parameter: " ++ "Height") 5)
                   (when (negb (member "Width" (List.map param_name all)))
                      (warning ("Missing essential parameter: " ++ "Width") 5) r')))
          by (unfold check_essential; repeat lower).
        unfold check_essential, capped in *. lia. }
    clearbody r2.
    destruct (familyTypes (params sir)) as [types|]; [|exact H2].
    apply capped_forEach_run; [intros; apply check_type_capped; assumption | exact H2]. }
  destruct (parameters_body sir fresh) as [r|r m]; simpl in *; [exact H | lia].
Qed.

Lemma windows_parameter_score_at_most_95_witness :
  score (validateParameters (BIMLLMService.demoFamily "a window")) <= 95.
Proof.
  apply (windows_parameter_score_at_most_95 (BIMLLMService.demoFamily "a window")).
  reflexivity.
Defined.

End EssentialProperties.

(** ** Recommendations *)
Module RecommendationProperties.
Import JsString JsNumber Regex Sir QAGateway QAProperties.
Local Open Scope Z_scope.

Lemma recommend_nil name r : recommend (name, r) = [] <-> issues r = [] /\ warnings r = [].
Proof.
  unfold recommend. destruct (issues r), (warnings r); simpl; split;
    try discriminate; try tauto; intros [? ?]; discriminate.
Qed.

Lemma recommend_length name r : (length (recommend (name, r)) <= 2)%nat.
Proof. unfold recommend. destruct (issues r), (warnings r); simpl; lia. Qed.

(** X10. The gateway recommends nothing exactly when none of the six
    validations lists an issue or a warning; there are at most twelve
    recommendations, and each one carries the issues (priority high) or the
    warnings (priority medium) of the validation it names. *)
Theorem recommendations_follow_findings (showFraction : Q -> string) (sir : SIR)
        (generatedCode : option string) :
  let v := validateFamily showFraction sir generatedCode in
  (generateRecommendations v = []
   <-> Forall (fun r => issues r = [] /\ warnings r = []) (passes v))
  /\ (length (generateRecommendations v) <= 12)%nat
  /\ Forall (fun rc =>
               exists r, In (rec_type rc, r) (entries v)
                         /\ rec_findings rc <> []
                         /\ (rec_findings rc
                             = match rec_kind rc with
                               | Issues => issues r
                               | Warnings => warnings r
                               end))
            (generateRecommendations v).
Proof.
  cbv zeta. generalize (validateFamily showFraction sir generatedCode) as v. intros v.
  unfold generateRecommendations, entries, passes. cbn [List.map List.concat].
  rewrite !app_nil_r. split; [|split].
  - split.
    + intros H. repeat (apply app_eq_nil in H as [?%recommend_nil H]).
      apply recommend_nil in H. repeat constructor; tauto.
    + intros H. repeat (apply Forall_cons in H as [? H]).
      rewrite !(proj2 (recommend_nil _ _)) by assumption. reflexivity.
  - rewrite !length_app.
    pose proof (recommend_length "geometryValidation" (geometryValidation v)).
    pose proof (recommend_length "parameterValidation" (parameterValidation v)).
    pose proof (recommend_length "performanceValidation" (performanceValidation v)).
    pose proof (recommend_length "complianceValidation" (complianceValidation v)).
    pose proof (recommend_length "flexingValidation" (flexingValidation v)).
    pose proof (recommend_length "metadataValidation" (metadataValidation v)).
    lia.
  - assert (R : forall name r, In (name, r) (entries v) ->
                 Forall (fun rc =>
                           exists r, In (rec_type rc, r) (entries v)
                                     /\ rec_findings rc <> []
                                     /\ (rec_findings rc
                                         = match rec_kind rc with
                                           | Issues => issues r
                                           | Warnings => warnings r
                                           end))
                        (recommend (name, r))).
    { intros name r Hin. unfold recommend.
      destruct (issues r) eqn:Ei, (warnings r) eqn:Ew; simpl;
        repeat constructor; exists r; simpl; rewrite ?Ei, ?Ew; repeat split;
        try exact Hin; discriminate. }
    unfold entries in R. repeat rewrite Forall_app.
    repeat split; apply R; simpl; tauto.
Qed.

End RecommendationProperties.

(** ** The overall score *)
Module ScoreProperties.
Import JsString JsNumber Regex Sir QAGateway QAProperties.
Local Open Scope Z_scope.

Lemma passes_scored (showFraction : Q -> string) (sir : SIR) (generatedCode : option string) :
  Forall scored (passes (validateFamily showFraction sir generatedCode)).
Proof.
  unfold passes, validateFamily. simpl.
  constructor; [apply scored_finish, geometry_within|].
  constructor; [apply scored_finish, parameters_within|].
  constructor; [apply scored_finish, performance_within|].
  constructor; [apply scored_finish, compliance_within|].
  constructor; [apply scored_finish, flexing_within|].
  constructor; [|constructor].
  apply scored_finish. exact (metadata_within showFraction sir).
Qed.

Lemma scored_clean (r : results) :
  scored r -> score r <= 100 /\ (score r = 100 -> issues r = [] /\ warnings r = []).
Proof.
  unfold scored, within, findings. intros [H|(H & _ & _)]; [|lia].
  split; [lia|]. intros E.
  destruct (issues r), (warnings r); simpl in *; auto; lia.
Qed.

(** X11. The overall score of a result of the gateway, the mean of its six
    scores, is at most 100, and it is 100 only when no validation lists an
    issue or a warning. *)
Theorem overall_score_is_100_only_without_findings (showFraction : Q -> string) (sir : SIR)
        (generatedCode : option string) :
  let v := validateFamily showFraction sir generatedCode in
  (calculateOverallScore v <= 100)%Q
  /\ ((calculateOverallScore v == 100)%Q ->
      Forall (fun r => issues r = [] /\ warnings r = []) (passes v)).
Proof.
  cbv zeta. pose proof (passes_scored showFraction sir generatedCode) as H.
  revert H. generalize (validateFamily showFraction sir generatedCode) as v. intros v H.
  unfold calculateOverallScore, passes in *. cbn [List.map List.fold_left length].
  repeat (apply Forall_cons in H as [?%scored_clean H]).
  set (s1 := score (geometryValidation v)) in *.
  set (s2 := score (parameterValidation v)) in *.
  set (s3 := score (performanceValidation v)) in *.
  set (s4 := score (complianceValidation v)) in *.
  set (s5 := score (flexingValidation v)) in *.
  set (s6 := score (metadataValidation v)) in *.
  assert (E : (inject_Z (0 + s1 + s2 + s3 + s4 + s5 + s6) / inject_Z (Z.of_nat 6)
               == inject_Z (s1 + s2 + s3 + s4 + s5 + s6) / 6)%Q).
  { replace (0 + s1 + s2 + s3 + s4 + s5 + s6) with (s1 + s2 + s3 + s4 + s5 + s6) by lia.
    reflexivity. }
  rewrite E. split.
  - apply Qle_shift_div_r; [reflexivity|].
    change (100 * 6)%Q with (inject_Z 600). rewrite <- Zle_Qle. lia.
  - intros Q.
    assert (S : s1 + s2 + s3 + s4 + s5 + s6 = 600).
    { assert (Q' : (inject_Z (s1 + s2 + s3 + s4 + s5 + s6) == inject_Z 600)%Q).
      { change (inject_Z 600) with (100 * 6)%Q. rewrite <- Q. field. }
      unfold Qeq in Q'. simpl in Q'. lia. }
    destruct H0 as [L1 C1], H1 as [L2 C2], H2 as [L3 C3], H3 as [L4 C4], H4 as [L5 C5],
             H5 as [L6 C6].
    repeat constructor;
      [apply C1 | apply C1 | apply C2 | apply C2 | apply C3 | apply C3
       | apply C4 | apply C4 | apply C5 | apply C5 | apply C6 | apply C6]; lia.
Qed.

End ScoreProperties.

(** ** The conversation history *)
Module ContextProperties.
Import JsString JsNumber Regex Sir BIMLLMService.

Lemma slice_last_all {A} (n : nat) (l : list A) : length l <= n -> slice_last n l = l.
Proof. intros H. unfold slice_last. replace (length l - n) with 0 by lia. reflexivity. Qed.

Lemma slice_last_length {A} (n : nat) (l : list A) :
  length (slice_last n l) = Nat.min n (length l).
Proof. unfold slice_last. rewrite length_skipn. lia. Qed.

Lemma tl_skipn {A} (k : nat) (l : list A) : List.tl (List.skipn k l) = List.skipn (S k) l.
Proof.
  revert l. induction k as [|k IH]; intros [|a l]; simpl; try reflexivity. apply IH.
Qed.

(** Pushing an entry and dropping the oldest one beyond [n] entries keeps
    the last [n]. *)
Lemma slice_last_push {A} (n : nat) (l : list A) (x : A) :
  (let pushed := (slice_last n l ++ [x])%list in
   if Nat.ltb n (length pushed) then List.tl pushed else pushed)
  = slice_last n (l ++ [x])%list.
Proof.
  cbv zeta. rewrite length_app, slice_last_length. simpl.
  destruct (Nat.ltb_spec n (Nat.min n (length l) + 1)) as [H|H].
  - assert (Hl : n <= length l) by lia.
    unfold slice_last. rewrite length_app. simpl.
    replace (length l + 1 - n) with (S (length l - n)) by lia.
    rewrite <- tl_skipn, skipn_app.
    replace (length l - n - length l) with 0 by lia. reflexivity.
  - assert (Hl : length l < n) by lia.
    rewrite (slice_last_all n l) by lia.
    rewrite slice_last_all; [reflexivity|]. rewrite length_app. simpl. lia.
Qed.

Lemma replay_snoc (calls : list update) (u : update) :
  replay (calls ++ [u]) = apply_update (replay calls) u.
Proof. unfold replay. rewrite fold_left_app. reflexivity. Qed.

Lemma recorded_snoc (sessionId : string) (calls : list update) (u : update) :
  recorded sessionId (calls ++ [u])
  = (recorded sessionId calls
     ++ if String.eqb (u_session u) sessionId
        then [{| int_timestamp := Clock.toISOString (u_now u);
                 userPrompt := u_prompt u; int_sir := u_sir u |}]
        else [])%list.
Proof.
  unfold recorded. rewrite List.filter_app, List.map_app. simpl.
  destruct (String.eqb (u_session u) sessionId); reflexivity.
Qed.

(** The history of a session is the last ten interactions recorded for
    it. *)
Lemma replay_lookup (calls : list update) (sessionId : string) :
  default [] (replay calls !! sessionId) = slice_last 10 (recorded sessionId calls).
Proof.
  induction calls as [|u calls IH] using rev_ind; [reflexivity|].
  rewrite replay_snoc, recorded_snoc. unfold apply_update, updateConversationContext.
  destruct (String.eqb (u_session u) sessionId) eqn:E.
  - apply String.eqb_eq in E. subst sessionId. rewrite lookup_insert_eq. simpl.
    rewrite IH. apply (slice_last_push 10).
  - apply String.eqb_neq in E. rewrite lookup_insert_ne by exact E.
    rewrite app_nil_r. exact IH.
Qed.

(** X12. After any sequence of updates of the conversation history, the
    history of a session holds the last ten interactions recorded for that
    session, oldest first; the updates of other sessions do not touch it. *)
Theorem history_keeps_last_ten (calls : list update) (sessionId : string) :
  default [] (replay calls !! sessionId) = slice_last 10 (recorded sessionId calls)
  /\ length (default [] (replay calls !! sessionId))
     = Nat.min 10 (length (recorded sessionId calls)).
Proof.
  split; [apply replay_lookup|]. rewrite replay_lookup. apply slice_last_length.
Qed.

Lemma slice_last_twice {A} (n m : nat) (l : list A) :
  n <= m -> slice_last n (slice_last m l) = slice_last n l.
Proof.
  intros H. unfold slice_last. rewrite length_skipn, skipn_skipn. f_equal. lia.
Qed.

(** X13. The context handed to the generator reports the last three
    interactions recorded for the session, and a total that stops at ten:
    beyond ten interactions [totalInteractions] no longer counts them. *)
Theorem context_reports_last_three (calls : list update) (sessionId : string) :
  let c := getConversationContext sessionId (replay calls) in
  recentInteractions c = slice_last 3 (recorded sessionId calls)
  /\ totalInteractions c = Nat.min 10 (length (recorded sessionId calls))
  /\ ctx_sessionId c = sessionId.
Proof.
  cbv zeta. unfold getConversationContext. cbn [recentInteractions totalInteractions ctx_sessionId].
  rewrite replay_lookup. split; [apply slice_last_twice; lia|].
  split; [apply slice_last_length | reflexivity].
Qed.

End ContextProperties.

(** ** Refinements and variations *)
Module RefinementProperties.
Import JsString JsNumber Regex Sir BIMLLMService ContextProperties.

Section Replies.
Variable demoMode : bool.
Variable generateContent : string -> outcome string.
Variable JSON_parse : string -> outcome json.
Variable stringify : sir_object -> string.
Variable stringify_context : context -> string.

Lemma ask_valid prompt sir :
  ask demoMode generateContent JSON_parse prompt = Ok sir -> validateSIR sir = Ok tt.
Proof.
  unfold ask. destruct (model_call _ _ _) as [text|]; [|discriminate]. simpl.
  destruct (parseSIRResponse _ _) as [j|]; [|discriminate]. simpl.
  destruct (validateSIR j) as [[]|] eqn:V; [|discriminate]. simpl.
  intros H. injection H as <-. exact V.
Qed.

Lemma ask_demo prompt :
  demoMode = true ->
  ask demoMode generateContent JSON_parse prompt
  = Throw "Cannot read properties of undefined (reading 'generateContent')".
Proof. intros ->. reflexivity. Qed.



(** X14. [refineSIR] reports a success only with a SIR that passes the
    structural validation, and then records it in the history of the
    session under the prompt [Refinement: <feedback>]; on any failure of the
    model call, the parsing or the validation it reports the error and
    leaves the history as it was. In demo mode, where there is no model, it
    always fails: there is no heuristic fallback for a refinement. *)
Theorem refinement_succeeds_or_leaves_history (sessionId feedback : string)
        (originalSIR : sir_object) (now : Z) (history : gmap string (list interaction)) :
  let r := refineSIR demoMode generateContent JSON_parse stringify stringify_context
             sessionId feedback originalSIR now history in
  (ref_success (fst r) = true ->
   exists sir,
     ref_sir (fst r) = Some sir /\ validateSIR sir = Ok tt
     /\ snd r = updateConversationContext sessionId ("Refinement: " ++ feedback) sir now
                 history)
  /\ (ref_success (fst r) = false ->
      snd r = history /\ ref_sir (fst r) = None /\ exists m, ref_error (fst r) = Some m)
  /\ (demoMode = true ->
      ref_success (fst r) = false
      /\ ref_error (fst r)
         = Some "Cannot read properties of undefined (reading 'generateContent')").
Proof.
  cbv zeta. unfold refineSIR.
  destruct (ask _ _ _ _) as [sir|m] eqn:A; cbn [fst snd ref_success ref_sir ref_error].
  - split; [|split].
    + intros _. exists sir. split; [reflexivity|]. split; [|reflexivity].
      apply (ask_valid _ _ A).
    + discriminate.
    + intros D. rewrite (ask_demo _ D) in A. discriminate A.
  - split; [discriminate|]. split.
    + intros _. split; [reflexivity|]. split; [reflexivity|]. exists m. reflexivity.
    + intros D. rewrite (ask_demo _ D) in A. injection A as <-. split; reflexivity.
Qed.


End Replies.

End RefinementProperties.

(** ** The life of a fallback job *)
Module LifecycleProperties.
Import JsString JsNumber Tracker StringProperties TrackerProperties.
Local Open Scope Q_scope.

Lemma elapsed_at_least (now created : Z) (n : Z) :
  (created + 1000 * n <= now)%Z <-> inject_Z n <= elapsed_seconds now created.
Proof.
  unfold elapsed_seconds. split; intros H.
  - apply Qle_shift_div_l; [reflexivity|].
    change 1000 with (inject_Z 1000). rewrite <- inject_Z_mult, <- Zle_Qle. lia.
  - apply (Qmult_le_compat_r _ _ 1000) in H; [|discriminate].
    assert (E : inject_Z (now - created) / 1000 * 1000 == inject_Z (now - created)) by field.
    rewrite E in H. change 1000 with (inject_Z 1000) in H.
    rewrite <- inject_Z_mult, <- Zle_Qle in H. lia.
Qed.

Lemma success_iff_complete (e : Q) :
  sim_status (simulated_status e) = "success" <-> 15 <= e.
Proof.
  destruct (phase_of e) as [(A & S & _)|[(A & A' & S & _)|[(A & A' & S & _)|(A & S & _)]]];
    rewrite S; split; intros H; try discriminate H; try reflexivity; try lra.
Qed.

(** X16. A submission for a local download that fails with an error whose
    status code is not 400 and whose message is present and does not
    contain 400 leaves a simulated job behind, and a poll of the identifier
    that the caller received finds that job: it answers 200, and it reports
    the status success (and the progress 100) exactly from 15 seconds after
    the creation on. *)
Theorem fallback_job_completes_after_15_seconds
        (p : Backend.apsParams) (t_id t_created : Z) (random : string) (e : js_error)
        (m : string) (folder : folder_calls)
        (c : clock) (real : status_call) (direct : fetch_call)
        (queue : gmap string workitem) :
  statusCode e <> Some 400%Z ->
  err_message e = Some m ->
  includes m "400" = false ->
  exists workitemId queue1 b queue2,
    createFamilyWithAPS p (TargetString "local") t_id t_created random (Raised e) folder
      queue
    = (Created workitemId "submitted", queue1)
    /\ status_route c real direct workitemId queue1 = (Json200 b, queue2)
    /\ r_isSimulated b = true
    /\ (r_status b = Some "success" <-> (t_created + 15000 <= t_elapsed c)%Z)
    /\ (r_progress b == 100 <-> (t_created + 15000 <= t_elapsed c)%Z).
Proof.
  intros Hcode Hm Hin.
  assert (He : classify e = OtherError).
  { apply (classify_cases e). split; [exact Hcode|]. exists m. auto. }
  unfold createFamilyWithAPS. cbn [String.eqb Ascii.eqb Bool.eqb].
  unfold createFamilyLocal, recover. rewrite He.
  set (workitemId := simulated_id t_id random).
  exists workitemId. eexists. do 2 eexists. split; [reflexivity|].
  rewrite (status_route_simulated _ _ _ _ _ (simulated_id_aps t_id random)).
  unfold poll_simulated. rewrite lookup_insert_eq. split; [reflexivity|].
  cbn [r_isSimulated r_status r_progress createdAt simulated_workitem].
  split; [reflexivity|].
  assert (T : (t_created + 15000 <= t_elapsed c)%Z
              <-> 15 <= elapsed_seconds (t_elapsed c) t_created).
  { exact (elapsed_at_least (t_elapsed c) t_created 15). }
  split.
  - rewrite T, <- success_iff_complete. split; congruence.
  - rewrite T, <- success_iff_complete. apply simulated_complete_iff_success.
Qed.

Lemma fallback_job_completes_after_15_seconds_witness :
  exists workitemId queue1 b queue2,
    createFamilyWithAPS Backend.defaultParams (TargetString "local") 1000 1000 "k3x9"
      (Raised {| statusCode := Some 503%Z; err_message := Some "Service Unavailable" |})
      (SetupDone (Returned None)) ∅
    = (Created workitemId "submitted", queue1)
    /\ status_route (at_time 16000) StatusRejected (FetchRejected "unused") workitemId queue1
       = (Json200 b, queue2)
    /\ r_isSimulated b = true
    /\ (r_status b = Some "success" <-> (1000 + 15000 <= 16000)%Z)
    /\ (r_progress b == 100 <-> (1000 + 15000 <= 16000)%Z).
Proof.
  apply (fallback_job_completes_after_15_seconds Backend.defaultParams 1000 1000 "k3x9"
           {| statusCode := Some 503%Z; err_message := Some "Service Unavailable" |}
           "Service Unavailable" (SetupDone (Returned None))
           (at_time 16000) StatusRejected (FetchRejected "unused") ∅).
  - discriminate.
  - reflexivity.
  - reflexivity.
Defined.

(** X17. A poll never adds a job to the queue and never removes one, and it
    leaves the record of every other job as it is, whatever the identifier
    asked for and whatever the backend answers. *)
Theorem poll_keeps_the_jobs_of_the_queue
        (c : clock) (real : status_call) (direct : fetch_call)
        (workitemId : string) (queue : gmap string workitem) :
  let queue' := snd (status_route c real direct workitemId queue) in
  dom queue' = dom queue
  /\ (forall other, other <> workitemId -> queue' !! other = queue !! other)
  /\ (queue !! workitemId = None -> queue' = queue).
Proof.
  cbv zeta. unfold status_route.
  destruct (startsWith workitemId "workitem_"); [auto|].
  assert (I : forall w w' : workitem,
             queue !! workitemId = Some w ->
             dom (<[workitemId := w']> queue) = dom queue
             /\ (forall other, other <> workitemId ->
                               <[workitemId := w']> queue !! other = queue !! other)
             /\ (queue !! workitemId = None -> <[workitemId := w']> queue = queue)).
  { intros w w' Hw. split; [|split].
    - apply dom_insert_lookup_L. exists w. exact Hw.
    - intros other Hne. apply lookup_insert_ne. congruence.
    - intros Hn. congruence. }
  destruct (startsWith workitemId "aps_").
  { unfold poll_simulated. destruct (queue !! workitemId) as [w|] eqn:Hw; [|auto].
    apply (I w). reflexivity. }
  destruct (queue !! workitemId) as [w|] eqn:Hw; [|auto].
  destruct (isRealAPS w); [|auto].
  unfold poll_real. destruct real as [[st|]|]; [|auto|auto].
  apply (I w). reflexivity.
Qed.

End LifecycleProperties.

(** ** Jobs of the first simulation *)
Module LegacyProperties.
Import JsString JsNumber Tracker StringProperties TrackerProperties.
Local Open Scope Q_scope.

(** The state of a legacy job as a function of the minutes elapsed. *)
Lemma legacy_monotone (workitemTime : number) (now1 now2 : Z) :
  (now1 <= now2)%Z ->
  let minutes now := div_const (sub (Fin (inject_Z now)) workitemTime) (1000 * 60) in
  let level now :=
    if gt (minutes now) (Fin 3) then 100
    else if gt (minutes now) (Fin 1.5) then 75
    else if gt (minutes now) (Fin 0.5) then 50 else 25 in
  level now1 <= level now2.
Proof.
  intros H. cbv zeta. destruct workitemTime as [t| |neg]; simpl.
  - assert (M : (inject_Z now1 - t) / (1000 * 60) <= (inject_Z now2 - t) / (1000 * 60)).
    { apply Qmult_le_compat_r; [|discriminate].
      assert (inject_Z now1 <= inject_Z now2) by (rewrite <- Zle_Qle; exact H). lra. }
    set (m1 := (inject_Z now1 - t) / (1000 * 60)) in *.
    set (m2 := (inject_Z now2 - t) / (1000 * 60)) in *.
    destruct (Qltb 3 m1) eqn:A1; destruct (Qltb 3 m2) eqn:A2;
    destruct (Qltb 1.5 m1) eqn:B1; destruct (Qltb 1.5 m2) eqn:B2;
    destruct (Qltb 0.5 m1) eqn:C1; destruct (Qltb 0.5 m2) eqn:C2;
    try (discriminate); try (apply Qle_refl);
    repeat match goal with
           | H : Qltb _ _ = true |- _ => apply Qltb_lt in H
           | H : Qltb _ _ = false |- _ => apply Qltb_ge in H
           end; lra.
  - discriminate.
  - destruct neg; simpl; discriminate.
Qed.

Lemma legacy_level (now : Z) (workitemId : string) :
  exists workitemTime,
    let minutes := div_const (sub (Fin (inject_Z now)) workitemTime) (1000 * 60) in
    (forall now', exists s',
        legacy_status now' workitemId = s'
        /\ sim_progress s'
           = (let minutes := div_const (sub (Fin (inject_Z now')) workitemTime) (1000 * 60) in
              if gt minutes (Fin 3) then 100
              else if gt minutes (Fin 1.5) then 75
              else if gt minutes (Fin 0.5) then 50 else 25)
        /\ (sim_status s' = "success" <-> sim_progress s' = 100)).
Proof.
  exists (match split_on "_" EmptyString workitemId with
          | _ :: piece :: _ => parseInt piece
          | _ => NaN
          end).
  cbv zeta. intros now'. eexists. split; [reflexivity|]. unfold legacy_status.
  destruct (gt _ (Fin 3)); [split; [reflexivity | split; reflexivity]|].
  destruct (gt _ (Fin 1.5)); [split; [reflexivity | split; discriminate]|].
  destruct (gt _ (Fin 0.5)); (split; [reflexivity | split; discriminate]).
Qed.

(** X18. A job of the first simulation (an identifier [workitem_<time>_...])
    is answered without the queue: every poll answers 200 and leaves the
    queue as it is, the progress is 25, 50, 75 or 100 and does not decrease
    when the job is polled again later, and the status is success exactly
    when the progress is 100. *)
Theorem legacy_job_progress_is_monotone
        (c1 c2 : clock) (real1 real2 : status_call) (direct1 direct2 : fetch_call)
        (workitemId : string) (queue : gmap string workitem) :
  startsWith workitemId "workitem_" = true ->
  (t_elapsed c1 <= t_elapsed c2)%Z ->
  exists b1 b2,
    status_route c1 real1 direct1 workitemId queue = (Json200 b1, queue)
    /\ status_route c2 real2 direct2 workitemId queue = (Json200 b2, queue)
    /\ r_progress b1 <= r_progress b2
    /\ (r_progress b1 = 25 \/ r_progress b1 = 50 \/ r_progress b1 = 75 \/ r_progress b1 = 100)
    /\ (r_status b1 = Some "success" <-> r_progress b1 = 100).
Proof.
  intros Hid Ht. unfold status_route. rewrite Hid. do 2 eexists.
  split; [reflexivity|]. split; [reflexivity|].
  cbn [r_progress r_status status_body].
  destruct (legacy_level (t_elapsed c1) workitemId) as (workitemTime & L).
  destruct (L (t_elapsed c1)) as (s1 & <- & P1 & S1).
  destruct (L (t_elapsed c2)) as (s2 & <- & P2 & _).
  split; [|split].
  - rewrite P1, P2. apply (legacy_monotone workitemTime _ _ Ht).
  - rewrite P1. cbv zeta.
    destruct (gt _ (Fin 3)); [auto|]. destruct (gt _ (Fin 1.5)); [auto|].
    destruct (gt _ (Fin 0.5)); auto.
  - rewrite <- S1. split; congruence.
Qed.

Lemma legacy_job_progress_is_monotone_witness :
  exists b1 b2,
    status_route (at_time 1000) StatusRejected (FetchRejected "unused")
      "workitem_0_abc" ∅ = (Json200 b1, ∅)
    /\ status_route (at_time 100000) StatusRejected (FetchRejected "unused")
         "workitem_0_abc" ∅ = (Json200 b2, ∅)
    /\ r_progress b1 <= r_progress b2
    /\ (r_progress b1 = 25 \/ r_progress b1 = 50 \/ r_progress b1 = 75 \/ r_progress b1 = 100)
    /\ (r_status b1 = Some "success" <-> r_progress b1 = 100).
Proof.
  apply (legacy_job_progress_is_monotone (at_time 1000) (at_time 100000)
           StatusRejected StatusRejected (FetchRejected "unused") (FetchRejected "unused")
           "workitem_0_abc" ∅ eq_refl).
  simpl. lia.
Defined.

End LegacyProperties.

(** ** The reply of the model *)
Module ParseProperties.
Import JsString JsNumber Regex Sir BIMLLMService StringProperties RegexProperties
       RegexSoundness.

(** The greedy [[\s\S]*] followed by a closing brace stops at the last
    closing brace. *)
Lemma run_to_last_close :
  forall s fuel count i cs,
    String.length s < fuel ->
    iterate (run anything) [] 0 None
            (fun c' cs' => run (Lit "}") c' cs' (fun c'' cs'' => Some (c'', cs'')))
            fuel count {| pos := i; rest := s |} cs
    = match last_close s with
      | Some n => Some ({| pos := n + i; rest := drop n s |}, cs)
      | None => None
      end.
Proof.
  induction s as [|ch s IH]; intros fuel count i cs Hfuel.
  - destruct fuel as [|fuel]; [inversion Hfuel|]. reflexivity.
  - destruct fuel as [|fuel]; [inversion Hfuel|].
    simpl in Hfuel. apply Nat.succ_lt_mono in Hfuel.
    rewrite iterate_step. unfold anything at 1. rewrite run_class, run_lit, clear_nil.
    cbn [rest pos step below Nat.leb andb last_close].
    replace (Nat.eqb (S i) i) with false by (symmetry; apply Nat.eqb_neq; lia).
    fold anything. unfold step. cbn [pos rest].
    rewrite (IH fuel (S count) (S i) cs Hfuel).
    destruct (last_close s) as [n|].
    + cbn [drop]. rewrite Nat.add_succ_r. reflexivity.
    + destruct (Ascii.eqb "}" ch); reflexivity.
Qed.

(** The match of [/\{[\s\S]*\}/] at a position, read off the string. *)
Lemma match_at_braces (i : nat) (s : string) :
  match_at (seq [Lit "{"; star anything; Lit "}"]) {| pos := i; rest := s |}
  = match s with
    | String ch s' =>
        if Ascii.eqb "{" ch then
          match last_close s' with
          | Some n => Some ({| pos := n + S i; rest := drop n s' |}, [])
          | None => None
          end
        else None
    | EmptyString => None
    end.
Proof.
  unfold match_at.
  change (seq [Lit "{"; star anything; Lit "}"])
    with (Seq (Lit "{") (Seq (star anything) (Lit "}"))).
  rewrite run_seq, run_lit. cbn [rest].
  destruct s as [|ch s']; [reflexivity|].
  destruct (Ascii.eqb "{" ch); [|reflexivity].
  rewrite run_seq. unfold star. rewrite run_repeat.
  change (groups_of anything) with (@nil nat). cbn [rest step pos].
  apply run_to_last_close. lia.
Qed.

Lemma search_step (r : regex) (i : nat) (s : string) :
  search r i s
  = match match_at r {| pos := i; rest := s |} with
    | Some (c', cs) =>
        Some {| index := i; matched := String.substring 0 (pos c' - i) s; groups := cs |}
    | None =>
        match s with
        | String _ s' => search r (S i) s'
        | EmptyString => None
        end
    end.
Proof. destruct s; reflexivity. Qed.

Lemma last_close_none (s : string) : without "}" s = true -> last_close s = None.
Proof.
  induction s as [|ch s IH]; [reflexivity|]. cbn [without last_close]. intros H.
  apply andb_true_iff in H as [Hch Hs]. apply negb_true_iff in Hch.
  rewrite (IH Hs), Hch. reflexivity.
Qed.

Lemma last_close_body (body after : string) :
  without "}" after = true ->
  last_close (String.append body (String "}" after)) = Some (S (String.length body)).
Proof.
  intros H. induction body as [|ch body IH].
  - rewrite append_nil. cbn [last_close String.length].
    rewrite (last_close_none after H). reflexivity.
  - rewrite append_cons. cbn [last_close String.length]. rewrite IH. reflexivity.
Qed.

Lemma search_braces_skip (before s : string) :
  without "{" before = true ->
  forall i,
    search (seq [Lit "{"; star anything; Lit "}"]) i (String.append before s)
    = search (seq [Lit "{"; star anything; Lit "}"]) (String.length before + i) s.
Proof.
  induction before as [|ch before IH]; intros H i; [reflexivity|].
  cbn [without] in H. apply andb_true_iff in H as [Hch Hb]. apply negb_true_iff in Hch.
  rewrite append_cons.
  rewrite search_step, match_at_braces, Hch.
  rewrite (IH Hb). cbn [String.length]. f_equal. lia.
Qed.

Lemma search_braces_none (s : string) :
  without "}" s = true ->
  forall i, search (seq [Lit "{"; star anything; Lit "}"]) i s = None.
Proof.
  induction s as [|ch s IH]; intros H i.
  - rewrite search_step, match_at_braces. reflexivity.
  - cbn [without] in H. apply andb_true_iff in H as [Hch Hs].
    rewrite search_step, match_at_braces, (last_close_none s Hs).
    destruct (Ascii.eqb "{" ch); apply (IH Hs).
Qed.

(** X19. [parseSIRResponse] hands to [JSON.parse] the text from the first
    opening brace of the reply to its last closing brace, whatever stands
    before and after; a reply in which no closing brace follows an opening
    one is rejected with 'Failed to parse SIR response: No valid JSON found
    in response', and [JSON.parse] is not called. *)
Theorem reply_is_parsed_from_first_to_last_brace
        (JSON_parse : string -> outcome json) (before body after : string) :
  without "{" before = true ->
  without "}" after = true ->
  parseSIRResponse JSON_parse
    (String.append before (String "{" (String.append body (String "}" after))))
  = try_catch (JSON_parse (String "{" (String.append body "}")))
              (fun message => Throw ("Failed to parse SIR response: " ++ message))
  /\ parseSIRResponse JSON_parse (String.append before after)
     = Throw "Failed to parse SIR response: No valid JSON found in response".
Proof.
  intros Hb Ha. unfold parseSIRResponse, exec. split.
  - rewrite (search_braces_skip before _ Hb).
    rewrite search_step, match_at_braces. cbn [Ascii.eqb Bool.eqb].
    rewrite (last_close_body body after Ha). cbn [matched pos].
    replace (S (String.length body) + S (String.length before + 0)
             - (String.length before + 0))
      with (String.length (String "{" (String.append body "}")))
      by (simpl; rewrite length_append; simpl; lia).
    replace (String "{" (String.append body (String "}" after)))
      with (String.append (String "{" (String.append body "}")) after)
      by (rewrite append_cons, append_assoc; reflexivity).
    rewrite substring_append. reflexivity.
  - rewrite (search_braces_skip before _ Hb), (search_braces_none after Ha).
    reflexivity.
Qed.

Lemma reply_is_parsed_from_first_to_last_brace_witness :
  parseSIRResponse (fun text => Ok (JStr text))
    (String.append "Here it is: " (String "{" (String.append "{}{}" (String "}" " Done."))))
  = Ok (JStr "{{}{}}")
  /\ parseSIRResponse (fun text => Ok (JStr text)) (String.append "} no " " { json")
     = Throw "Failed to parse SIR response: No valid JSON found in response".
Proof.
  exact (reply_is_parsed_from_first_to_last_brace
           (fun text => Ok (JStr text)) "Here it is: " "{}{}" " Done." eq_refl eq_refl).
Defined.

End ParseProperties.

(** ** The metadata pass *)
Module MetadataProperties.
Import JsString JsNumber Regex Sir QAGateway TrackerProperties.
Local Open Scope Q_scope.

Lemma integer_quotient (q : Q) :
  is_integer_Q (q / 100) = true <-> exists k : Z, q == inject_Z (100 * k).
Proof.
  unfold is_integer_Q, Qeqb. rewrite Qeq_bool_iff. split.
  - intros H. exists (Qfloor (q / 100)). rewrite inject_Z_mult, H. field.
  - intros [k H].
    assert (E : q / 100 == inject_Z k).
    { assert (E' : q == 100 * inject_Z k) by (rewrite H, inject_Z_mult; reflexivity).
      rewrite E'. field. }
    rewrite (Qfloor_comp _ _ E), Qfloor_Z, E. reflexivity.
Qed.

Lemma truthy_string (s : string) : JsString.truthy s = true <-> s <> EmptyString.
Proof. destruct s; simpl; split; congruence. Qed.

(** The level of detail raises neither of the two issues exactly when it is
    100, 200, 300, 400 or 500. *)
Lemma lod_accepted (lod : number) :
  negb (JsNumber.truthy lod)
  || (lt lod (Fin 100) || gt lod (Fin 500) || rem100_nonzero lod) = false
  <-> standard_lod lod.
Proof.
  unfold standard_lod. destruct lod as [q| |neg]; simpl.
  - rewrite !orb_false_iff, !negb_false_iff, !Qltb_ge, integer_quotient. split.
    + intros (T & (L & U) & k & E). exists q, k. split; [reflexivity|]. split; [exact E|].
      rewrite E in L, U. change 100 with (inject_Z 100) in L.
      change 500 with (inject_Z 500) in U. rewrite <- Zle_Qle in L, U. lia.
    + intros (q' & k & Hq & E & Hk). injection Hq as <-. split; [|split; [split|]].
      * unfold Qeqb. destruct (Qeq_bool q 0) eqn:Z; [|reflexivity].
        apply Qeq_bool_iff in Z. rewrite Z in E. change 0 with (inject_Z 0) in E.
        unfold Qeq in E. simpl in E. lia.
      * rewrite E. change 100 with (inject_Z 100). rewrite <- Zle_Qle. lia.
      * rewrite E. change 500 with (inject_Z 500). rewrite <- Zle_Qle. lia.
      * exists k. exact E.
  - split; [discriminate|]. intros (q & k & H & _). discriminate H.
  - split.
    + destruct neg; discriminate.
    + intros (q & k & H & _). discriminate H.
Qed.

Lemma metadata_pass (showFraction : Q -> string) (sir : SIR) :
  pass (validateMetadata showFraction sir)
  = negb (negb (JsString.truthy (familyName (metadata sir))))
    && negb (negb (JsString.truthy (category (metadata sir))))
    && negb (negb (JsNumber.truthy (lodLevel (metadata sir)))
             || (lt (lodLevel (metadata sir)) (Fin 100)
                 || gt (lodLevel (metadata sir)) (Fin 500)
                 || rem100_nonzero (lodLevel (metadata sir)))).
Proof.
  unfold validateMetadata, metadata_body, missing_metadata. cbn [finish].
  destruct (negb (JsString.truthy (familyName (metadata sir))));
  destruct (negb (JsString.truthy (category (metadata sir))));
  destruct (negb (JsNumber.truthy (lodLevel (metadata sir))));
  destruct (lt (lodLevel (metadata sir)) (Fin 100) || gt (lodLevel (metadata sir)) (Fin 500)
            || rem100_nonzero (lodLevel (metadata sir)));
  destruct (negb (member (category (metadata sir)) validCategories));
  destruct (match description (metadata sir) with
            | Some d => negb (JsString.truthy d) || String.eqb (trim d) EmptyString
            | None => true
            end); reflexivity.
Qed.

(** X20. The metadata validation passes exactly when the family name and
    the category are not empty and the level of detail is 100, 200, 300,
    400 or 500 (a missing description or an unusual category only costs
    points); and a family that passes it is never refused by the emitter
    for its level of detail. *)
Theorem metadata_passes_exactly_for_standard_lod (showFraction : Q -> string) (sir : SIR) :
  (pass (validateMetadata showFraction sir) = true
   <-> familyName (metadata sir) <> EmptyString
       /\ category (metadata sir) <> EmptyString
       /\ standard_lod (lodLevel (metadata sir)))
  /\ (pass (validateMetadata showFraction sir) = true ->
      SIRToCodeInterpreter.validateSIR sir = None).
Proof.
  rewrite metadata_pass, !andb_true_iff, !negb_true_iff, !negb_false_iff, !truthy_string,
    lod_accepted.
  split; [tauto|]. intros (_ & q & k & E & Hq & Hk).
  unfold SIRToCodeInterpreter.validateSIR. rewrite E. simpl.
  assert (L : Qltb q 100 = false).
  { apply Qltb_ge. rewrite Hq. change 100 with (inject_Z 100). rewrite <- Zle_Qle. lia. }
  assert (U : Qltb 500 q = false).
  { apply Qltb_ge. rewrite Hq. change 500 with (inject_Z 500). rewrite <- Zle_Qle. lia. }
  rewrite L, U. reflexivity.
Qed.

End MetadataProperties.

(** ** Downloads *)
Module DownloadProperties.
Import JsString JsNumber Tracker StringProperties TrackerProperties.

Section Files.
Variable buffer : Type.
Variable generateRFAFile : Backend.apsParams -> buffer.
Variable byteLength : buffer -> nat.

(** X21. The first download route serves the file of a simulated job as soon
    as the job is in the queue, whatever its status is, and no sequence of
    polls changes what it serves. *)
Theorem download_does_not_wait_for_success
        (requests : list (clock * status_call * fetch_call))
        (workitemId : string) (queue : gmap string workitem) (w : workitem) :
  startsWith workitemId "aps_" = true ->
  queue !! workitemId = Some w ->
  download_route buffer generateRFAFile byteLength workitemId queue
  = SendFile buffer (attachment_name (params w)) (byteLength (generateRFAFile (params w)))
      (generateRFAFile (params w))
  /\ download_route buffer generateRFAFile byteLength workitemId
       (polled requests workitemId queue)
     = download_route buffer generateRFAFile byteLength workitemId queue.
Proof.
  intros Hid Hw. unfold download_route. rewrite (aps_not_legacy _ Hid), Hid, Hw.
  split; [reflexivity|].
  destruct (polled_unchanged requests workitemId Hid queue w Hw) as (w' & -> & U).
  unfold simulated_file. destruct U as (_ & _ & -> & _). reflexivity.
Qed.

(** X22. The second download route reads the status that the last poll
    stored, and a poll of either status route stores the same record. The
    file of a simulated job is refused with the code 400 until a poll has
    found the job completed, that is a poll made 15 seconds or more after
    the creation. Before any poll the job that a failed submission left
    behind is refused, however much time has passed. *)
Theorem v1_download_needs_a_completed_poll
        (c : clock) (real : status_call) (direct : fetch_call)
        (workitemId : string) (queue : gmap string workitem) (w : workitem) :
  startsWith workitemId "aps_" = true ->
  queue !! workitemId = Some w ->
  let queue' := snd (poll_simulated_v1 c workitemId queue) in
  snd (status_route c real direct workitemId queue) = queue'
  /\ ((createdAt w + 15000 <= t_elapsed c)%Z ->
   download_route_v1 buffer generateRFAFile byteLength workitemId queue'
   = SendFile buffer (attachment_name (params w)) (byteLength (generateRFAFile (params w)))
       (generateRFAFile (params w)))
  /\ ((t_elapsed c < createdAt w + 15000)%Z ->
      exists st,
        download_route_v1 buffer generateRFAFile byteLength workitemId queue'
        = Refused buffer 400 "Workitem not completed successfully" (Some st)
        /\ st <> "success")
  /\ (status w <> "success" ->
      download_route_v1 buffer generateRFAFile byteLength workitemId queue
      = Refused buffer 400 "Workitem not completed successfully" (Some (status w))).
Proof.
  intros Hid Hw. cbv zeta.
  assert (V : snd (poll_simulated_v1 c workitemId queue)
              = snd (status_route c real direct workitemId queue)).
  { rewrite (status_route_simulated _ _ _ _ _ Hid).
    unfold poll_simulated_v1, poll_simulated. rewrite Hw. reflexivity. }
  rewrite V. clear V. split; [reflexivity|].
  rewrite (status_route_simulated _ _ _ _ _ Hid), (poll_simulated_queue _ _ _ _ Hw).
  unfold download_route_v1. rewrite lookup_insert_eq, Hw, Hid.
  cbn [status checked params].
  set (e := elapsed_seconds (t_elapsed c) (createdAt w)).
  pose proof (LifecycleProperties.success_iff_complete e) as S.
  pose proof (LifecycleProperties.elapsed_at_least (t_elapsed c) (createdAt w) 15) as T.
  fold e in T. split; [|split].
  - intros H. replace (createdAt w + 1000 * 15)%Z with (createdAt w + 15000)%Z in T by lia.
    apply T, S in H. rewrite H. reflexivity.
  - intros H. exists (sim_status (simulated_status e)).
    assert (N : sim_status (simulated_status e) <> "success").
    { intros E. apply S, T in E. lia. }
    split; [|exact N]. apply String.eqb_neq in N. rewrite N. reflexivity.
  - intros N. apply String.eqb_neq in N. rewrite N. reflexivity.
Qed.

End Files.

Lemma download_does_not_wait_for_success_witness :
  download_route string Backend.FileName String.length "aps_1000_k3x9" sample_queue
  = SendFile string "Generated Family.rfa" 20 "Generated Family.rfa"
  /\ download_route string Backend.FileName String.length "aps_1000_k3x9"
       (polled [(at_time 2000, StatusRejected, FetchRejected "unused")] "aps_1000_k3x9"
          sample_queue)
     = download_route string Backend.FileName String.length "aps_1000_k3x9" sample_queue.
Proof.
  exact (download_does_not_wait_for_success string Backend.FileName String.length
           [(at_time 2000, StatusRejected, FetchRejected "unused")]
           "aps_1000_k3x9" sample_queue sample_job eq_refl eq_refl).
Defined.

Lemma v1_download_needs_a_completed_poll_witness :
  download_route_v1 string Backend.FileName String.length "aps_1000_k3x9"
    (snd (poll_simulated_v1 (at_time 16000) "aps_1000_k3x9" sample_queue))
  = SendFile string "Generated Family.rfa" 20 "Generated Family.rfa"
  /\ download_route_v1 string Backend.FileName String.length "aps_1000_k3x9" sample_queue
     = Refused string 400 "Workitem not completed successfully" (Some "submitted").
Proof.
  destruct (v1_download_needs_a_completed_poll string Backend.FileName String.length
              (at_time 16000) StatusRejected (FetchRejected "unused")
              "aps_1000_k3x9" sample_queue sample_job eq_refl eq_refl) as (_ & A & _ & C).
  split; [apply A; simpl; lia | apply C; discriminate].
Defined.

End DownloadProperties.

(** ** The tracker of the browser *)
Module ClientProperties.
Import JsString JsNumber Tracker StringProperties TrackerProperties Client.
Local Open Scope Q_scope.

Lemma running_status (e : Q) :
  e < 15 ->
  sim_status (simulated_status e) = "submitted" \/ sim_status (simulated_status e) = "inprogress".
Proof.
  intros H.
  destruct (phase_of e) as [(A & S & _)|[(A & A' & S & _)|[(A & A' & S & _)|(A & S & _)]]];
    rewrite S; auto. lra.
Qed.

Lemma completed_status (e : Q) :
  15 <= e -> simulated_status e
             = {| sim_status := "success"; sim_progress := 100;
                  sim_message := "Family creation completed successfully";
                  sim_estimatedTimeRemaining := "0 seconds" |}.
Proof.
  intros H. unfold simulated_status.
  assert (H0 : 3 <= e) by lra. assert (H1 : 8 <= e) by lra.
  apply Qltb_ge in H0 as ->. apply Qltb_ge in H1 as ->.
  assert (Hb : Qltb e totalSimulatedTime = false) by (apply Qltb_ge; unfold totalSimulatedTime; lra).
  rewrite Hb. reflexivity.
Qed.

(** X23. The tracker of the browser, following a simulated job: as long as
    the polls are made less than 15 seconds after the creation another poll
    is scheduled, and the first poll made 15 seconds or more after it ends
    the tracking: the page shows the status ready with the text [Family
    created successfully!], the progress bar is hidden at 100 percent, one
    message with the links is added to the chat, and no later poll is
    made. An error is never shown. *)
Theorem tracker_ends_ready_on_a_simulated_job
        (early later : list (clock * status_call * fetch_call))
        (final : clock * status_call * fetch_call)
        (workitemId : string) (queue : gmap string workitem) (w : workitem) (u : ui) :
  startsWith workitemId "aps_" = true ->
  queue !! workitemId = Some w ->
  Forall (fun request => (t_elapsed (fst (fst request)) < createdAt w + 15000)%Z) early ->
  (createdAt w + 15000 <= t_elapsed (fst (fst final)))%Z ->
  exists queue',
    trackWorkitem (early ++ final :: later) workitemId queue u
    = ({| indicator := "ready"; statusText := "Family created successfully!";
          progressDisplayed := false; progressWidth := 100; progressText := 100;
          chat := (chat u ++ [CreationCompleted workitemId])%list |},
       queue', false)
    /\ queue' = polled (early ++ [final]) workitemId queue.
Proof.
  intros Hid. revert queue w u.
  induction early as [|[[c real] direct] early IH]; intros queue w u Hw Hearly Hfinal.
  - destruct final as [[c real] direct]. cbn [fst] in Hfinal.
    cbn [app trackWorkitem]. unfold polled, poll. cbn [List.fold_left app].
    rewrite (status_route_simulated _ _ _ _ _ Hid). unfold poll_simulated. rewrite Hw.
    assert (E : 15 <= elapsed_seconds (t_elapsed c) (createdAt w)).
    { apply (LifecycleProperties.elapsed_at_least _ _ 15). lia. }
    rewrite (completed_status _ E). eexists. split; reflexivity.
  - apply Forall_cons in Hearly as [Hc Hearly]. cbn [fst] in Hc.
    cbn [app trackWorkitem]. unfold polled. cbn [List.fold_left app]. unfold poll at 2.
    fold (polled (early ++ [final]) workitemId).
    rewrite (status_route_simulated _ _ _ _ _ Hid). unfold poll_simulated. rewrite Hw.
    cbn [snd].
    set (s := simulated_status (elapsed_seconds (t_elapsed c) (createdAt w))).
    assert (R : sim_status s = "submitted" \/ sim_status s = "inprogress").
    { apply running_status. apply Qnot_le_lt. intros E.
      apply (LifecycleProperties.elapsed_at_least _ _ 15) in E. lia. }
    unfold checkStatus, body_of. cbn [b_status b_progress b_message r_status].
    set (q1 := <[workitemId := checked w s (t_checked c)]> queue).
    set (u1 := updateStatus "processing" (message_or_default (Some (sim_message s)))
                 (updateProgress (progress_or_zero (Some (sim_progress s))) u)).
    destruct (IH q1 (checked w s (t_checked c)) u1 (lookup_insert_eq _ _ _) Hearly Hfinal)
      as (queue' & E & Q).
    exists queue'. split; [|exact Q].
    destruct R as [R|R]; rewrite R; cbn [String.eqb Ascii.eqb Bool.eqb orb]; exact E.
Qed.

(** X24. The tracker of the browser, following a job of the real backend:
    when the status call of the server fails, the server answers the status
    unknown with the progress 50, and the tracker schedules no other poll.
    The page is left with the status processing and the progress bar
    displayed at 50 percent; no later request is made. *)
Theorem tracker_stops_when_the_status_call_fails
        (c : clock) (direct : fetch_call)
        (later : list (clock * status_call * fetch_call))
        (workitemId : string) (queue : gmap string workitem) (w : workitem) (u : ui) :
  startsWith workitemId "workitem_" = false ->
  startsWith workitemId "aps_" = false ->
  queue !! workitemId = Some w ->
  isRealAPS w = true ->
  trackWorkitem ((c, StatusRejected, direct) :: later) workitemId queue u
  = ({| indicator := "processing"; statusText := "Checking status...";
        progressDisplayed := true; progressWidth := 50; progressText := 50;
        chat := chat u |},
     queue, false).
Proof.
  intros H1 H2 Hw Hreal. cbn [trackWorkitem]. unfold status_route.
  rewrite H1, H2, Hw, Hreal. reflexivity.
Qed.

Lemma tracker_stops_when_the_status_call_fails_witness :
  trackWorkitem [(at_time 2000, StatusRejected, FetchRejected "unused");
                 (at_time 2500, StatusReturned (Some (Some "success")),
                  FetchRejected "unused")]
    "4f8a2c" real_queue idle
  = ({| indicator := "processing"; statusText := "Checking status...";
        progressDisplayed := true; progressWidth := 50; progressText := 50;
        chat := [] |},
     real_queue, false).
Proof.
  exact (tracker_stops_when_the_status_call_fails (at_time 2000) (FetchRejected "unused")
           [(at_time 2500, StatusReturned (Some (Some "success")), FetchRejected "unused")]
           "4f8a2c" real_queue real_job idle eq_refl eq_refl eq_refl eq_refl).
Defined.

Lemma tracker_ends_ready_on_a_simulated_job_witness :
  exists queue',
    trackWorkitem ([(at_time 1500, StatusRejected, FetchRejected "unused");
                    (at_time 9000, StatusRejected, FetchRejected "unused")]
                     ++ (at_time 16000, StatusRejected, FetchRejected "unused")
                     :: [(at_time 16500, StatusRejected, FetchRejected "unused")])
      "aps_1000_k3x9" sample_queue idle
    = ({| indicator := "ready"; statusText := "Family created successfully!";
          progressDisplayed := false; progressWidth := 100; progressText := 100;
          chat := ([] ++ [CreationCompleted "aps_1000_k3x9"])%list |},
       queue', false)
    /\ queue' = polled ([(at_time 1500, StatusRejected, FetchRejected "unused");
                         (at_time 9000, StatusRejected, FetchRejected "unused")]
                          ++ [(at_time 16000, StatusRejected, FetchRejected "unused")])
                   "aps_1000_k3x9" sample_queue.
Proof.
  apply (tracker_ends_ready_on_a_simulated_job
           [(at_time 1500, StatusRejected, FetchRejected "unused");
            (at_time 9000, StatusRejected, FetchRejected "unused")]
           [(at_time 16500, StatusRejected, FetchRejected "unused")]
           (at_time 16000, StatusRejected, FetchRejected "unused")
           "aps_1000_k3x9" sample_queue sample_job idle eq_refl eq_refl).
  - repeat constructor; simpl; lia.
  - simpl. lia.
Defined.

End ClientProperties.
